(** * PyCABeM: a shallow embedding of [hicbem.py] and [benchmark.py]

    The development follows the two Python 2 sources.  Integers are [Z]
    (Python's [/] on two ints floors, as [Z.div] does for a positive
    divisor), strings are [string], tuples and lists are [list].  Code that
    raises is modelled with an explicit result type carrying the exception
    class; code that talks to the operating system (clock, child process,
    standard output, signals) threads an explicit [World].  Floats are
    the binary64 numbers of [SpecFloat]. *)

From Stdlib Require Import ZArith QArith List String Ascii Bool Lia.
From Stdlib Require DecimalString SpecFloat.
Import ListNotations.
Open Scope string_scope.
Open Scope Z_scope.

(** ** Python exceptions *)

Module Py.

(** The exception classes the two sources can meet.  In Python 2
    [StandardError] is the base of every built-in error except
    [KeyboardInterrupt], [SystemExit], [StopIteration] and
    [GeneratorExit]. *)
Inductive exc : Type :=
| AssertionError (msg : string)
| ValueError (msg : string)
| IndexError
| TypeError (msg : string)
| NameError (name : string)
| OSError (errno : Z)
| OverflowError (msg : string)
| RuntimeError (msg : string)
| KeyboardInterrupt
| SystemExit (code : Z).

Definition isStandardError (e : exc) : bool :=
  match e with
  | KeyboardInterrupt | SystemExit _ => false
  | _ => true
  end.

(** Outcome of a pure computation that may raise. *)
Inductive res (A : Type) : Type :=
| Ok (a : A)
| Raise (e : exc).
Arguments Ok {A} a.
Arguments Raise {A} e.

Definition bind {A B} (m : res A) (k : A -> res B) : res B :=
  match m with
  | Ok a => k a
  | Raise e => Raise e
  end.

End Py.

Notation "x <-? m ;; k" := (Py.bind m (fun x => k))
  (at level 61, m at next level, right associativity).

(** ** hicbem.py *)

Module Hicbem.
Import Py.

(** *** parseParams *)

(** [s[i]] *)
Definition item (i : nat) (s : string) : res ascii :=
  match String.get i s with
  | Some c => Ok c
  | None => Raise IndexError
  end.

(** [sub in s] on strings: [sub] occurs in [s] as a substring. *)
Fixpoint str_in (sub s : string) : bool :=
  String.prefix sub s ||
  match s with
  | EmptyString => false
  | String _ s' => str_in sub s'
  end.

(** [c in s] for a single character [c]. *)
Definition chr_in (c : ascii) (s : string) : bool :=
  str_in (String c EmptyString) s.

Definition len (s : string) : Z := Z.of_nat (String.length s).

(** The local [sparam] holds [False], ['d'] or ['t']. *)
Inductive sparam_t : Type := SpFalse | SpD | SpT.

Definition truthy (sp : sparam_t) : bool :=
  match sp with SpFalse => false | _ => true end.

(** The locals of [parseParams].  [multiplier] is unbound until the
    branch for [-tm] or [-th] assigns it. *)
Record locals : Type := mkLocals {
  udatas : list string;
  wdatas : list string;
  timeout : Z;
  sparam : sparam_t;
  weighted : bool;
  timemul : Z;
  multiplier : option Z
}.

Definition locals0 : locals := mkLocals [] [] 0 SpFalse false 1 None.

(** Assignments to the locals. *)
Definition append_udatas (arg : string) (l : locals) : locals :=
  mkLocals (udatas l ++ [arg]) (wdatas l) (timeout l) (sparam l)
    (weighted l) (timemul l) (multiplier l).

Definition append_wdatas (arg : string) (l : locals) : locals :=
  mkLocals (udatas l) (wdatas l ++ [arg]) (timeout l) (sparam l)
    (weighted l) (timemul l) (multiplier l).

Definition set_timeout (v : Z) (l : locals) : locals :=
  mkLocals (udatas l) (wdatas l) v (sparam l) (weighted l) (timemul l)
    (multiplier l).

Definition set_sparam (v : sparam_t) (l : locals) : locals :=
  mkLocals (udatas l) (wdatas l) (timeout l) v (weighted l) (timemul l)
    (multiplier l).

Definition set_weighted (v : bool) (l : locals) : locals :=
  mkLocals (udatas l) (wdatas l) (timeout l) (sparam l) v (timemul l)
    (multiplier l).

Definition set_multiplier (v : Z) (l : locals) : locals :=
  mkLocals (udatas l) (wdatas l) (timeout l) (sparam l) (weighted l)
    (timemul l) (Some v).

Definition unexpected (arg : string) : exc :=
  ValueError ("Unexpected argument: " ++ arg).

Section ParseParams.

(** Python's built-in [int] on a string: the integer it denotes, or
    [ValueError]. *)
Variable int : string -> res Z.

(** The branch [if arg[0] == '-'] of the loop body. *)
Definition option_arg (l : locals) (arg : string) : res locals :=
  c1 <-? item 1 arg ;;
  if Ascii.eqb c1 "d" || Ascii.eqb c1 "f" then
    let l := set_weighted false l in
    let l := set_sparam SpD l in
    if 3 <=? len arg then
      c2 <-? item 2 arg ;;
      if negb (chr_in c2 "uw") || (3 <? len arg) then
        Raise (unexpected arg)
      else Ok (set_weighted (Ascii.eqb c2 "w") l)
    else Ok l
  else if Ascii.eqb c1 "t" then
    let l := set_sparam SpT l in
    if 3 <=? len arg then
      c2 <-? item 2 arg ;;
      if negb (chr_in c2 "smh") || (3 <? len arg) then
        Raise (unexpected arg)
      else if Ascii.eqb c2 "m" then Ok (set_multiplier 60 l)
      else if Ascii.eqb c2 "h" then Ok (set_multiplier 3600 l)
      else Ok l
    else Ok l
  else Raise (unexpected arg).

(** The branch [else] of the loop body: a value for the last option. *)
Definition value_arg (l : locals) (arg : string) : res locals :=
  l <-? match sparam l with
        | SpD =>
            if weighted l then Ok (append_wdatas arg l)
            else Ok (append_udatas arg l)
        | SpT =>
            n <-? int arg ;;
            Ok (set_timeout (n * timemul l) l)
        | SpFalse =>
            Raise (TypeError
              "'in <string>' requires string as left operand, not bool")
        end ;;
  Ok (set_sparam SpFalse l).

(** One round of [for arg in args]. *)
Definition parse_arg (l : locals) (arg : string) : res locals :=
  c0 <-? item 0 arg ;;
  let dash := Ascii.eqb c0 "-" in
  if negb (Bool.eqb (negb dash) (truthy (sparam l)))
     || (if dash then len arg <? 2 else str_in arg "..") then
    Raise (ValueError
      ("Unexpected argument" ++
       (if truthy (sparam l) then ", file/dir name is expected: "
        else ": ") ++ arg))
  else if dash then option_arg l arg
  else value_arg l arg.

Fixpoint parse_args (l : locals) (args : list string) : res locals :=
  match args with
  | [] => Ok l
  | arg :: rest => l' <-? parse_arg l arg ;; parse_args l' rest
  end.

Definition parseParams (args : list string)
  : res (list string * list string * Z) :=
  match args with
  | [] => Raise (AssertionError "Input arguments must be specified")
  | _ =>
      l <-? parse_args locals0 args ;;
      Ok (udatas l, wdatas l, timeout l)
  end.

End ParseParams.

(** A decimal reading of [int]: an optional sign followed by digits.
    It serves to run [parseParams] on examples. *)
Definition digit (c : ascii) : option Z :=
  let n := Z.of_nat (nat_of_ascii c) in
  if (48 <=? n) && (n <=? 57) then Some (n - 48) else None.

Fixpoint digits (acc : Z) (s : string) : option Z :=
  match s with
  | EmptyString => Some acc
  | String c s' =>
      match digit c with
      | Some d => digits (10 * acc + d) s'
      | None => None
      end
  end.

Definition int_decimal (s : string) : res Z :=
  let bad := Raise (ValueError ("invalid literal for int() with base 10: " ++ s)) in
  let unsigned (s : string) :=
    match s with
    | EmptyString => None
    | _ => digits 0 s
    end in
  match s with
  | String "-" s' =>
      match unsigned s' with Some n => Ok (- n) | None => bad end
  | String "+" s' =>
      match unsigned s' with Some n => Ok n | None => bad end
  | _ => match unsigned s with Some n => Ok n | None => bad end
  end.

(** *** secondsToHms *)

(** [secondsToHms] on an [int] argument: both divisions are Python 2
    integer divisions and [int(...)] is the identity on their results. *)
Definition secondsToHms (seconds : Z) : Z * Z * Z :=
  let hours := seconds / 3600 in
  let mins := (seconds - hours * 3600) / 60 in
  let secs := seconds - hours * 3600 - mins * 60 in
  (hours, mins, secs).

(** Python's [float] is the IEEE 754 binary64 format, every operation
    rounded to the nearest number of the format, ties to even. *)
Definition float : Type := SpecFloat.spec_float.

Definition prec : Z := 53.
Definition emax : Z := 1024.

(** The conversion of an [int] or [long] operand to [float]. *)
Definition float_of_int (n : Z) : float :=
  SpecFloat.binary_normalize prec emax n 0 false.

(** [x / y] and [x - y] on floats; no divisor of [secondsToHms] is
    zero. *)
Definition float_div (x y : float) : float := SpecFloat.SFdiv prec emax x y.
Definition float_sub (x y : float) : float := SpecFloat.SFsub prec emax x y.

(** [int(x)] on a float: truncation towards zero; [ValueError] on a NaN
    and [OverflowError] on an infinity. *)
Definition int_of_float (x : float) : res Z :=
  match x with
  | SpecFloat.S754_zero _ => Ok 0
  | SpecFloat.S754_finite s m e =>
      let n := match e with
               | Zneg k => Z.pos m / 2 ^ Z.pos k
               | _ => Z.pos m * 2 ^ e
               end in
      Ok (if s then - n else n)
  | SpecFloat.S754_nan =>
      Raise (ValueError "cannot convert float NaN to integer")
  | SpecFloat.S754_infinity _ =>
      Raise (OverflowError "cannot convert float infinity to integer")
  end.

(** [secondsToHms] on a [float] argument, as [time.clock()] returns them:
    [hours] and [mins] are integers, the products [hours * 3600] and
    [mins * 60] are exact, and each is converted to [float] for the
    subtraction. *)
Definition secondsToHms_float (seconds : float) : res (Z * Z * float) :=
  hours <-? int_of_float (float_div seconds (float_of_int 3600)) ;;
  mins <-? int_of_float
             (float_div (float_sub seconds (float_of_int (hours * 3600)))
                (float_of_int 60)) ;;
  let secs := float_sub (float_sub seconds (float_of_int (hours * 3600)))
                (float_of_int (mins * 60)) in
  Ok (hours, mins, secs).

(** *** The world of one monitored child process *)

Inductive signal : Type := SIGTERM | SIGKILL.

(** What is written on standard output, one constructor per [print]. *)
Inductive message : Type :=
| MsgStarting (algname : string)
| MsgFinished (algname : string)
| MsgSpawnError (algname : string) (err : exc)
| MsgTimeout (algname : string) (timeout exectime : Z) (hms : Z * Z * Z)
| MsgParsed (udatas wdatas : list string) (timeout : Z)
| MsgInterrupted (err : exc)
| MsgCompleted (exectime : Z) (hms : Z * Z * Z).

(** [now] is the time of the clock that [time.sleep] advances, in whole
    seconds; [sent] lists the signals sent so far, each with the pid of
    the child it went to and the time of sending, oldest first; [stdout]
    lists what was printed, oldest first.  Time is discrete and only
    sleeping takes time.  In this module [time.clock()] reads that same
    clock, as it does on Windows and as the docstring of [controlTime]
    takes it ("start time of the execution"), and no call into the
    operating system raises once the child is spawned; module [Host]
    below lifts both restrictions, and [controlTime_wall_clock] relates
    the two. *)
Record World : Type := mkWorld {
  now : Z;
  sent : list (nat * signal * Z);
  stdout : list message
}.

(** The behaviour of a spawned child, fixed when it is spawned: the time
    at which it exits on its own ([None]: it never does) and how long it
    takes to exit once it has received SIGTERM ([None]: it ignores the
    signal).  SIGKILL cannot be ignored and ends the child at once. *)
Record Proc : Type := mkProc {
  pid : nat;
  exit_at : option Z;
  term_delay : option Z
}.

(** Does the signal [s], once sent, have the child [p] exited by time
    [t]? *)
Definition ended_by (p : Proc) (t : Z) (s : nat * signal * Z) : bool :=
  let '(to, sig, at_time) := s in
  Nat.eqb to (pid p) &&
  match sig with
  | SIGKILL => true
  | SIGTERM =>
      match term_delay p with
      | Some d => at_time + d <=? t
      | None => false
      end
  end.

Definition exited (p : Proc) (w : World) : bool :=
  match exit_at p with
  | Some e => e <=? now w
  | None => false
  end
  || existsb (ended_by p (now w)) (sent w).

(** [proc.poll() is None] *)
Definition poll_is_None (p : Proc) (w : World) : bool := negb (exited p w).

(** [time.sleep(1)]: one second passes. *)
Definition sleep1 (w : World) : World :=
  mkWorld (now w + 1) (sent w) (stdout w).

Definition send (p : Proc) (s : signal) (w : World) : World :=
  mkWorld (now w) (sent w ++ [(pid p, s, now w)]) (stdout w).

(** The world [d] seconds later, nothing else having happened. *)
Definition later (d : Z) (w : World) : World :=
  mkWorld (now w + d) (sent w) (stdout w).

(** [proc.terminate()] and [proc.kill()] *)
Definition terminate (p : Proc) : World -> World := send p SIGTERM.
Definition kill (p : Proc) : World -> World := send p SIGKILL.

Definition print (m : message) (w : World) : World :=
  mkWorld (now w) (sent w) (stdout w ++ [m]).

(** *** controlTime *)

(** The inner loop [while proc.poll() is None and i < 10: i += 1;
    time.sleep(1)], by recursion on the [10 - i] rounds that are left. *)
Fixpoint grace_wait (p : Proc) (left : nat) (w : World) : World :=
  match left with
  | O => w
  | S left' =>
      if poll_is_None p w then grace_wait p left' (sleep1 w) else w
  end.

(** The body of [if timeout and time.clock() - exectime > timeout:], from
    [proc.terminate()] to the [print]; [elapsed] is the new value of the
    local [exectime]. *)
Definition on_timeout (p : Proc) (algname : string) (timeout elapsed : Z)
    (w : World) : World :=
  let w := terminate p w in
  let w := grace_wait p 10 w in
  let w := if poll_is_None p w then kill p w else w in
  print (MsgTimeout algname timeout elapsed (secondsToHms elapsed)) w.

(** A run of a loop that may not end: [Done] when the loop was left,
    [Looping] when the rounds granted were used up with the loop still
    running; both carry the world reached. *)
Inductive run : Type :=
| Done (w : World)
| Looping (w : World).

Definition world_of (r : run) : World :=
  match r with Done w | Looping w => w end.

(** [controlTime(proc, algname, exectime, timeout)] on a host whose
    [time.clock()] is the clock that [time.sleep] advances and whose calls
    do not raise; [rounds] bounds the iterations of the outer
    [while proc.poll() is None].  [Host.controlTime] is the function on
    any host. *)
Fixpoint controlTime (rounds : nat) (p : Proc) (algname : string)
    (exectime timeout : Z) (w : World) : run :=
  if poll_is_None p w then
    match rounds with
    | O => Looping w
    | S rounds' =>
        let w := sleep1 w in
        if negb (timeout =? 0) && (now w - exectime >? timeout) then
          let exectime := now w - exectime in
          controlTime rounds' p algname exectime timeout
            (on_timeout p algname timeout exectime w)
        else
          controlTime rounds' p algname exectime timeout w
    end
  else Done w.

(** *** execAlgorithm *)

(** The outcome of a statement run in a world: it returned, it raised, or
    it was still looping when the rounds granted to [controlTime] were
    used up. *)
Inductive outcome (A : Type) : Type :=
| Returned (a : A) (w : World)
| Raised (e : exc) (w : World)
| Running (w : World).
Arguments Returned {A} a w.
Arguments Raised {A} e w.
Arguments Running {A} w.

Definition M (A : Type) : Type := World -> outcome A.

Definition ret {A} (a : A) : M A := fun w => Returned a w.

Definition raise {A} (e : exc) : M A := fun w => Raised e w.

Definition bindM {A B} (m : M A) (k : A -> M B) : M B :=
  fun w =>
    match m w with
    | Returned a w' => k a w'
    | Raised e w' => Raised e w'
    | Running w' => Running w'
    end.

Local Notation "x <- m ;; k" := (bindM m (fun x => k))
  (at level 61, m at next level, right associativity).

Definition act (f : World -> World) : M unit := fun w => Returned tt (f w).

(** [try: body] / [except StandardError as err: handler] / [else: orelse];
    an exception that is not a [StandardError] passes through, and so
    does one raised by the [else] clause. *)
Definition try_else {A B} (body : M A) (handler : exc -> M B)
    (orelse : A -> M B) : M B :=
  fun w =>
    match body w with
    | Returned a w' => orelse a w'
    | Raised e w' =>
        if isStandardError e then handler e w' else Raised e w'
    | Running w' => Running w'
    end.

(** [if c: body] *)
Definition when (c : bool) (body : M unit) : M unit :=
  if c then body else ret tt.

(** [time.clock()] where it reads the clock that [time.sleep] advances;
    [Host.clock] is the reading on any host. *)
Definition clock : M Z := fun w => Returned (now w) w.

(** What [subprocess.Popen(args, cwd=workdir)] does: it hands back the
    child it spawned or raises. *)
Inductive spawn : Type :=
| Spawned (p : Proc)
| SpawnFails (e : exc).

Section ExecAlgorithm.

(** The operating system behind [subprocess.Popen]; the outcome may
    depend on the moment of the call. *)
Variable popen : list string -> string -> World -> spawn.

(** Rounds granted to each call of [controlTime]. *)
Variable rounds : nat.

Definition Popen (args : list string) (workdir : string) : M Proc :=
  fun w =>
    match popen args workdir w with
    | Spawned p => Returned p w
    | SpawnFails e => Raised e w
    end.

(** [controlTime] as a statement; on the host of this module it returns
    or goes on, it does not raise. *)
Definition controlTimeM (p : Proc) (algname : string)
    (exectime timeout : Z) : M unit :=
  fun w =>
    match controlTime rounds p algname exectime timeout w with
    | Done w' => Returned tt w'
    | Looping w' => Running w'
    end.

(** [execAlgorithm(algname, workdir, args, timeout, trace=True)].  The
    [try] covers the clock reading and the spawn; its [else] clause,
    which runs [controlTime], is outside the handler. *)
Definition execAlgorithm (algname workdir : string) (args : list string)
    (timeout : Z) (trace : bool) : M unit :=
  if (algname =? "")%string || (workdir =? "")%string
     || match args with [] => true | _ => false end
  then raise (AssertionError "")
  else
    _ <- when trace (act (print (MsgStarting algname))) ;;
    _ <- try_else
           (exectime <- clock ;;
            proc <- Popen args workdir ;;
            ret (exectime, proc))
           (fun err => act (print (MsgSpawnError algname err)))
           (fun started =>
              controlTimeM (snd started) algname (fst started) timeout) ;;
    when trace (act (print (MsgFinished algname))).

Definition execLouvain (udatas wdatas : list string) (timeout : Z)
  : M unit :=
  let algname := "Louvain" in
  let workdir := "LouvainUpd" in
  let args := ["../exectime"; "ls"] in
  execAlgorithm algname workdir args timeout true.

Definition execHirecs (udatas wdatas : list string) (timeout : Z)
  : M unit :=
  let algname := "HiReCS" in
  let workdir := "." in
  let args := ["./hirecs"] in
  execAlgorithm algname workdir args timeout true.

Definition execOslom2 (udatas wdatas : list string) (timeout : Z)
  : M unit := ret tt.

Definition execGanxis (udatas wdatas : list string) (timeout : Z)
  : M unit := ret tt.

(** *** benchmark *)

(** An algorithm function of the benchmark, with the name it is defined
    under. *)
Record alg : Type := mkAlg {
  alg_name : string;
  alg_call : list string -> list string -> Z -> M unit
}.

(** The tuple [algors] of [benchmark]. *)
Definition algors : list alg :=
  [ mkAlg "execLouvain" execLouvain;
    mkAlg "execHirecs" execHirecs;
    mkAlg "execOslom2" execOslom2;
    mkAlg "execGanxis" execGanxis ].

(** [for alg in algors: alg(udatas, wdatas, timeout)], together with
    the names of the functions it called, in the order of the calls. *)
Fixpoint for_alg (algs : list alg) (udatas wdatas : list string)
    (timeout : Z) (w : World) : list string * outcome unit :=
  match algs with
  | [] => ([], Returned tt w)
  | a :: rest =>
      match alg_call a udatas wdatas timeout w with
      | Returned _ w' =>
          let (called, o) := for_alg rest udatas wdatas timeout w' in
          (alg_name a :: called, o)
      | o => ([alg_name a], o)
      end
  end.

Section Benchmark.

Variable int : string -> res Z.

(** [benchmark], called on [args], over a tuple of algorithm functions: the
    [try] encloses the whole [for] loop. *)
Definition benchmark_over (algs : list alg) (args : list string)
    (w : World) : list string * outcome unit :=
  let exectime := now w in
  match parseParams int args with
  | Raise e => ([], Raised e w)
  | Ok (udatas, wdatas, timeout) =>
      let w := print (MsgParsed udatas wdatas timeout) w in
      match for_alg algs udatas wdatas timeout w with
      | (called, Raised err w') =>
          if isStandardError err
          then (called, Returned tt (print (MsgInterrupted err) w'))
          else (called, Raised err w')
      | (called, Returned _ w') =>
          let exectime := now w' - exectime in
          (called,
           Returned tt
             (print (MsgCompleted exectime (secondsToHms exectime)) w'))
      | (called, Running w') => (called, Running w')
      end
  end.

Definition benchmark : list string -> World
                       -> list string * outcome unit :=
  benchmark_over algors.

End Benchmark.

End ExecAlgorithm.

End Hicbem.

(** ** hicbem.py on a host *)

(** The monitoring of [hicbem.py] with what the host decides made
    explicit: what [time.clock()] reads, and which of the calls into the
    operating system raise. *)
Module Host.
Import Py Hicbem.

(** [clock_at t] is what [time.clock()] returns at the moment [t] of the
    clock that [time.sleep] advances, in whole seconds.  Python 2 reads
    the processor time of the calling process on Unix and the wall-clock
    time since its first call on Windows.  [sleep_error w] is what
    [time.sleep(1)] raises in the world [w], if anything: a
    [KeyboardInterrupt] when the user interrupts the benchmark.
    [kill_error p s w] is what [os.kill] raises when [proc.terminate()] or
    [proc.kill()] sends [s] to the child [p], if anything.  [popen] is the
    operating system behind [subprocess.Popen]. *)
Record host : Type := mkHost {
  clock_at : Z -> Z;
  sleep_error : World -> option exc;
  kill_error : Proc -> signal -> World -> option exc;
  popen : list string -> string -> World -> spawn
}.

Local Notation "x <- m ;; k" := (bindM m (fun x => k))
  (at level 61, m at next level, right associativity).

Section OnHost.

Variable h : host.

(** [time.clock()] *)
Definition clock : M Z := fun w => Returned (clock_at h (now w)) w.

(** [time.sleep(1)] *)
Definition sleep : M unit :=
  fun w =>
    match sleep_error h w with
    | Some e => Raised e w
    | None => Returned tt (sleep1 w)
    end.

(** [proc.poll() is None] *)
Definition poll (p : Proc) : M bool :=
  fun w => Returned (poll_is_None p w) w.

(** [proc.terminate()] and [proc.kill()] *)
Definition send_signal (p : Proc) (s : signal) : M unit :=
  fun w =>
    match kill_error h p s w with
    | Some e => Raised e w
    | None => Returned tt (send p s w)
    end.

Definition terminate (p : Proc) : M unit := send_signal p SIGTERM.
Definition kill (p : Proc) : M unit := send_signal p SIGKILL.

(** The inner loop [while proc.poll() is None and i < 10: i += 1;
    time.sleep(1)], by recursion on the [10 - i] rounds that are left. *)
Fixpoint grace_wait (p : Proc) (left : nat) : M unit :=
  match left with
  | O => ret tt
  | S left' =>
      alive <- poll p ;;
      if alive then _ <- sleep ;; grace_wait p left' else ret tt
  end.

(** The body of [if timeout and time.clock() - exectime > timeout:], from
    [proc.terminate()] to the [print]; [elapsed] is the new value of the
    local [exectime]. *)
Definition on_timeout (p : Proc) (algname : string) (timeout elapsed : Z)
  : M unit :=
  _ <- terminate p ;;
  _ <- grace_wait p 10 ;;
  alive <- poll p ;;
  _ <- when alive (kill p) ;;
  act (print (MsgTimeout algname timeout elapsed (secondsToHms elapsed))).

(** [controlTime(proc, algname, exectime, timeout)]; [rounds] bounds the
    iterations of the outer [while proc.poll() is None], and the run is
    [Running] when they are used up. *)
Fixpoint controlTime (rounds : nat) (p : Proc) (algname : string)
    (exectime timeout : Z) : M unit :=
  alive <- poll p ;;
  if alive then
    match rounds with
    | O => fun w => Running w
    | S rounds' =>
        _ <- sleep ;;
        t <- clock ;;
        if negb (timeout =? 0) && (t - exectime >? timeout) then
          let exectime := t - exectime in
          _ <- on_timeout p algname timeout exectime ;;
          controlTime rounds' p algname exectime timeout
        else controlTime rounds' p algname exectime timeout
    end
  else ret tt.

Definition Popen (args : list string) (workdir : string) : M Proc :=
  fun w =>
    match popen h args workdir w with
    | Spawned p => Returned p w
    | SpawnFails e => Raised e w
    end.

(** Rounds granted to each call of [controlTime]. *)
Variable rounds : nat.

(** [execAlgorithm(algname, workdir, args, timeout, trace=True)].  The
    [try] covers the clock reading and the spawn; its [else] clause,
    which runs [controlTime], is outside the handler. *)
Definition execAlgorithm (algname workdir : string) (args : list string)
    (timeout : Z) (trace : bool) : M unit :=
  if (algname =? "")%string || (workdir =? "")%string
     || match args with [] => true | _ => false end
  then raise (AssertionError "")
  else
    _ <- when trace (act (print (MsgStarting algname))) ;;
    _ <- try_else
           (exectime <- clock ;;
            proc <- Popen args workdir ;;
            ret (exectime, proc))
           (fun err => act (print (MsgSpawnError algname err)))
           (fun started =>
              controlTime rounds (snd started) algname (fst started)
                timeout) ;;
    when trace (act (print (MsgFinished algname))).

Definition execLouvain (udatas wdatas : list string) (timeout : Z)
  : M unit :=
  let algname := "Louvain" in
  let workdir := "LouvainUpd" in
  let args := ["../exectime"; "ls"] in
  execAlgorithm algname workdir args timeout true.

Definition execHirecs (udatas wdatas : list string) (timeout : Z)
  : M unit :=
  let algname := "HiReCS" in
  let workdir := "." in
  let args := ["./hirecs"] in
  execAlgorithm algname workdir args timeout true.

Definition execOslom2 (udatas wdatas : list string) (timeout : Z)
  : M unit := ret tt.

Definition execGanxis (udatas wdatas : list string) (timeout : Z)
  : M unit := ret tt.

(** The tuple [algors] of [benchmark]. *)
Definition algors : list alg :=
  [ mkAlg "execLouvain" execLouvain;
    mkAlg "execHirecs" execHirecs;
    mkAlg "execOslom2" execOslom2;
    mkAlg "execGanxis" execGanxis ].

(** [benchmark], called on [args], with the names of the functions of
    [algors] it called: the [try] encloses the whole [for] loop. *)
Definition benchmark (int : string -> res Z) (args : list string)
    (w : World) : list string * outcome unit :=
  let exectime := clock_at h (now w) in
  match parseParams int args with
  | Raise e => ([], Raised e w)
  | Ok (udatas, wdatas, timeout) =>
      let w := print (MsgParsed udatas wdatas timeout) w in
      match for_alg algors udatas wdatas timeout w with
      | (called, Raised err w') =>
          if isStandardError err
          then (called, Returned tt (print (MsgInterrupted err) w'))
          else (called, Raised err w')
      | (called, Returned _ w') =>
          let exectime := clock_at h (now w') - exectime in
          (called,
           Returned tt
             (print (MsgCompleted exectime (secondsToHms exectime)) w'))
      | (called, Running w') => (called, Running w')
      end
  end.

End OnHost.

(** A host whose [time.clock()] is the clock that [time.sleep] advances
    and whose calls, [subprocess.Popen] apart, do not raise. *)
Definition wall_clock_host
    (popen : list string -> string -> World -> spawn) : host :=
  mkHost (fun t => t) (fun _ => None) (fun _ _ _ => None) popen.

(** A Unix host: the benchmark process uses a millisecond of processor
    time for every second it sleeps, every launch succeeds with the child
    [child], and no call raises. *)
Definition unix_host (child : Proc) : host :=
  mkHost (fun t => t / 1000) (fun _ => None) (fun _ _ _ => None)
    (fun _ _ _ => Spawned child).

(** A host on which the wall clock is read, every launch succeeds with
    the child [child], and [os.kill] is refused with [EPERM], as it is
    for a child that runs under another user. *)
Definition EPERM : Z := 1.

Definition no_permission_host (child : Proc) : host :=
  mkHost (fun t => t) (fun _ => None) (fun _ _ _ => Some (OSError EPERM))
    (fun _ _ _ => Spawned child).

End Host.

(** ** The execution pool of benchcore *)

Module ExecPool.

(** Modelled from the spec: the Job of benchcore.py, which is not among
    the sources; the fields are those of the spec's data model that the
    scheduler reads. *)
Record Job : Type := mkJob {
  name : string;
  timeout : Z;
  startdelay : Z
}.

(** Modelled from the spec: the lifecycle of the pool of benchcore.py,
    Open, Draining, Closed. *)
Inductive lifecycle : Type := Open | Draining | Closed.

(** Modelled from the spec: the ExecutionPool of benchcore.py with its
    capacity, its FIFO queue of pending jobs and its table of active
    jobs (those that hold a worker slot). *)
Record Pool : Type := mkPool {
  capacity : nat;
  pending : list Job;
  active : list Job;
  phase : lifecycle
}.

(** Modelled from the spec: the constructor of the pool of benchcore.py,
    an open pool with nothing queued and nothing running. *)
Definition ExecPool (workers : nat) : Pool := mkPool workers [] [] Open.

(** Modelled from the spec: the admission step of benchcore.py; if a
    worker slot is free the job at the head of the pending queue takes
    it. *)
Definition admission (p : Pool) : Pool :=
  match pending p with
  | [] => p
  | j :: queue =>
      if (List.length (active p) <? capacity p)%nat
      then mkPool (capacity p) queue (active p ++ [j]) (phase p)
      else p
  end.

(** Modelled from the spec: execute(job) of benchcore.py; the job is
    enqueued as pending and, if a slot is free, admission begins at
    once.  The pool must be open. *)
Definition execute (j : Job) (p : Pool) : Pool :=
  match phase p with
  | Open => admission (mkPool (capacity p) (pending p ++ [j]) (active p) Open)
  | _ => p
  end.

(** Modelled from the spec: a terminal transition of an active job of
    benchcore.py (natural exit, failure or timeout); its slot is released
    and the next pending job is popped into it. *)
Definition reap (jobname : string) (p : Pool) : Pool :=
  admission (mkPool (capacity p) (pending p)
           (filter (fun j => negb (name j =? jobname)%string) (active p))
           (phase p)).

(** Modelled from the spec: join(deadline) of benchcore.py; it returns
    on drain or when the deadline elapses, when pending jobs are dropped
    and active jobs terminated.  Either way nothing is pending or active
    afterwards and the pool may be used again. *)
Definition join (p : Pool) : Pool :=
  mkPool (capacity p) [] [] Open.

(** Modelled from the spec: the teardown of benchcore.py; every process
    is killed, every pending job cancelled, and the pool is closed. *)
Definition teardown (p : Pool) : Pool :=
  mkPool (capacity p) [] [] Closed.

(** What can happen to a pool. *)
Inductive event : Type :=
| Execute (j : Job)
| Reap (jobname : string)
| Join
| Teardown.

Definition step (p : Pool) (e : event) : Pool :=
  match e with
  | Execute j => execute j p
  | Reap n => reap n p
  | Join => join p
  | Teardown => teardown p
  end.

(** The pool after a history of events, starting from a new pool. *)
Definition after (workers : nat) (history : list event) : Pool :=
  fold_left step history (ExecPool workers).

End ExecPool.

(** ** benchmark.py *)

Module Benchmark.
Import Py.

(** Values that travel through the untyped calls of [evalResults]. *)
Inductive pyval : Type :=
| VNone
| VBool (b : bool)
| VInt (n : Z)
| VStr (s : string).

Definition pyval_eqb (a b : pyval) : bool :=
  match a, b with
  | VNone, VNone => true
  | VBool x, VBool y => Bool.eqb x y
  | VInt x, VInt y => x =? y
  | VStr x, VStr y => (x =? y)%string
  | VBool x, VInt y | VInt y, VBool x => (if x then 1 else 0) =? y
  | _, _ => false
  end.

Inductive signum : Type :=
| SIGTERM | SIGHUP | SIGINT | SIGQUIT | SIGABRT | SIGUSR1 | SIGUSR2
| SIGCHLD | SIGCONT | SIGURG | SIGWINCH | SIGTSTP.

(** What the operating system does with a signal whose disposition is
    the default one. *)
Inductive action : Type := Terminate | Ignore | Stop | Continue.

Definition default_action (s : signum) : action :=
  match s with
  | SIGCHLD | SIGURG | SIGWINCH => Ignore
  | SIGCONT => Continue
  | SIGTSTP => Stop
  | _ => Terminate
  end.

(** The Python functions that serve as signal handlers. *)
Inductive pyhandler : Type :=
| default_int_handler
| terminationHandler_fn.

Inductive disposition : Type :=
| SIG_DFL
| Handler (h : pyhandler).

Inductive message : Type :=
| MsgAppInterrupted (algname : string) (err : exc)
| MsgEvalInterrupted (elgname : string) (err : exc)
| MsgEvalStarting (measure : string)
| MsgEvalCompleted (measure : string)
| MsgEvalDone.

(** What happens to the pool object and to the process. *)
Inductive event : Type :=
| Deleted (p : ExecPool.Pool)
| Exit (code : Z)
| KilledBy (s : signum)
| StoppedBy (s : signum).

(** [execpool] is the module global [_execpool] ([None] is Python's
    [None]; a pool object is true, and the global holds the only lasting
    reference to it); [handlers] the signal dispositions of the process;
    [log] the events so far, oldest first. *)
Record State : Type := mkState {
  execpool : option ExecPool.Pool;
  handlers : signum -> disposition;
  stdout : list message;
  log : list event
}.

Inductive outcome (A : Type) : Type :=
| Ret (a : A) (st : State)
| Exc (e : exc) (st : State).
Arguments Ret {A} a st.
Arguments Exc {A} e st.

Definition M (A : Type) : Type := State -> outcome A.

Definition ret {A} (a : A) : M A := fun st => Ret a st.
Definition raise {A} (e : exc) : M A := fun st => Exc e st.

Definition bind {A B} (m : M A) (k : A -> M B) : M B :=
  fun st =>
    match m st with
    | Ret a st' => k a st'
    | Exc e st' => Exc e st'
    end.

Local Notation "x <- m ;; k" := (bind m (fun x => k))
  (at level 61, m at next level, right associativity).

(** [try: body] / [except StandardError as err: handler] / [else:
    orelse] *)
Definition try_else {A B} (body : M A) (handler : exc -> M B)
    (orelse : A -> M B) : M B :=
  fun st =>
    match body st with
    | Ret a st' => orelse a st'
    | Exc e st' => if isStandardError e then handler e st' else Exc e st'
    end.

Definition when (c : bool) (body : M unit) : M unit :=
  if c then body else ret tt.

Definition printed (m : message) (st : State) : State :=
  mkState (execpool st) (handlers st) (stdout st ++ [m]) (log st).

Definition print (m : message) : M unit := fun st => Ret tt (printed m st).

Definition set_execpool (v : option ExecPool.Pool) : M unit :=
  fun st => Ret tt (mkState v (handlers st) (stdout st) (log st)).

Definition record (e : event) (st : State) : State :=
  mkState (execpool st) (handlers st) (stdout st) (log st ++ [e]).

(** [for x in xs: acc = body(x, acc)] *)
Fixpoint for_each {X A} (xs : list X) (body : X -> A -> M A) (acc : A)
  : M A :=
  match xs with
  | [] => ret acc
  | x :: rest => acc' <- body x acc ;; for_each rest body acc'
  end.

(** *** The pools the benchmark creates *)

Section Pools.

(** [multiprocessing.cpu_count()] *)
Variable cpu_count : Z.

(** [if not _execpool: _execpool = ExecPool(workers)] *)
Definition ensure_pool (workers : Z) : M unit :=
  fun st =>
    match execpool st with
    | Some _ => Ret tt st
    | None =>
        set_execpool (Some (ExecPool.ExecPool (Z.to_nat workers))) st
    end.

Definition generateNets_pool : M unit :=
  ensure_pool (Z.max (cpu_count - 1) 1).

Definition shuffleNets_pool : M unit :=
  ensure_pool (Z.max (cpu_count - 1) 1).

Definition convertNets_pool : M unit :=
  ensure_pool (Z.max (cpu_count - 1) 1).

Definition runApps_pool : M unit :=
  ensure_pool (Z.max (Z.min 4 (cpu_count - 1)) 1).

Definition evalResults_pool : M unit :=
  ensure_pool (Z.max (cpu_count - 1) 1).

End Pools.

(** *** runApps *)

(** A function of benchapps whose name starts with [exec]: called on the
    pool, a network, the asymmetry flag and a timeout, it schedules jobs
    and returns their number, or raises. *)
Record app : Type := mkApp {
  app_name : string;
  app_call : string -> pyval -> Q -> M Z
}.

(** The inner function [execute(net, asym, jobsnum)] of [runApps], for
    the tuple [algs] and the [timeout] it closes over; the [try] is inside
    the loop.  The first component lists the functions called, in the
    order of the calls. *)
Fixpoint execute (algs : list app) (timeout : Q) (net : string)
    (asym : pyval) (jobsnum : Z) (st : State)
  : list string * outcome Z :=
  match algs with
  | [] => ([], Ret jobsnum st)
  | alg :: rest =>
      match app_call alg net asym timeout st with
      | Ret n st' =>
          let (called, o) := execute rest timeout net asym (jobsnum + n) st' in
          (app_name alg :: called, o)
      | Exc err st' =>
          if isStandardError err then
            let st' := printed (MsgAppInterrupted (app_name alg) err) st' in
            let (called, o) := execute rest timeout net asym jobsnum st' in
            (app_name alg :: called, o)
          else ([app_name alg], Exc err st')
      end
  end.

(** The constant [_extnetfile]. *)
Definition _extnetfile : string := ".nsa".

Section RunApps.

(** [glob.iglob] *)
Variable iglob : string -> list string.

(** The body of the two loops of [runApps] over the networks:
    [tnum = execute(net, asym, jobsnum)], [jobsnum += tnum],
    [netcount += tnum != 0], on the pair of the locals [jobsnum] and
    [netcount]. *)
Definition run_net (algs : list app) (timeout : Q) (asym : pyval)
    (net : string) (acc : Z * Z) : M (Z * Z) :=
  fun st =>
    let '(jobsnum, netcount) := acc in
    match snd (execute algs timeout net asym jobsnum st) with
    | Ret tnum st' =>
        Ret (jobsnum + tnum, netcount + (if tnum =? 0 then 0 else 1)) st'
    | Exc e st' => Exc e st'
    end.

(** The loops of [runApps] over the networks of [datadirs] and over
    [datafiles], from [jobsnum = 1] and [netcount = 0]; the result is the
    pair of these locals after the loops. *)
Definition runApps_nets (algs : list app) (timeout : Q)
    (datadirs datafiles : list (pyval * string)) : M (Z * Z) :=
  acc <- for_each datadirs
           (fun d acc =>
              let '(asym, ddir) := d in
              for_each (iglob (ddir ++ "*" ++ _extnetfile))
                (fun net acc => run_net algs timeout asym net acc)
                acc)
           (1, 0) ;;
  for_each datafiles
    (fun d acc => let '(asym, net) := d in run_net algs timeout asym net acc)
    acc.

End RunApps.

(** *** evalResults *)

(** [v += 1] *)
Definition incr (v : pyval) : M pyval :=
  match v with
  | VInt n => ret (VInt (n + 1))
  | VBool b => ret (VInt ((if b then 1 else 0) + 1))
  | VNone =>
      raise (TypeError
        "unsupported operand type(s) for +=: 'NoneType' and 'int'")
  | VStr _ => raise (TypeError "cannot concatenate 'str' and 'int' objects")
  end.

Definition digit_of (n : nat) : string :=
  String (ascii_of_nat (48 + n)) EmptyString.

(** The message of the [TypeError] Python 2 raises when a function
    declared with four parameters is called with [given] arguments. *)
Definition arity_error (given : nat) : exc :=
  TypeError ("evaluate() takes exactly 4 arguments ("
             ++ digit_of given ++ " given)").

(** [s[i:]] *)
Fixpoint drop_chars (i : nat) (s : string) : string :=
  match i, s with
  | S i', String _ s' => drop_chars i' s'
  | _, _ => s
  end.

Section EvalResults.

Variable cpu_count : Z.

(** The constant [_extclnodes] of benchcore. *)
Variable _extclnodes : string.

(** [dir(appsmodule)], [str.lower], [glob.iglob] and
    [os.path.splitext]. *)
Variable dir : list string.
Variable lower : string -> string.
Variable iglob : string -> list string.
Variable splitext : string -> string * string.

(** The global [func], if one of the modules imported with [*] binds
    it; benchmark.py itself does not. *)
Variable func : option string.

(** [evalAlgorithm(_execpool, elgname, basefile, measure, timeout)] of
    benchapps; the pool is the global of the state. *)
Variable evalAlgorithm : string -> pyval -> pyval -> Q -> M unit.

Definition _prefExec : string := "exec".

(** The inner function [evaluate(measure, basefile, asym, jobsnum)] for
    the tuple [evalalgs] and the [timeout] it closes over, applied to
    the positional arguments of a call.  Python binds them to the four
    parameters, none of which has a default, or raises [TypeError]. *)
Definition evaluate (evalalgs : list string) (timeout : Q)
    (args : list pyval) : M pyval :=
  match args with
  | [measure; basefile; asym; jobsnum] =>
      for_each evalalgs
        (fun elgname jobsnum =>
           try_else
             (_ <- evalAlgorithm elgname basefile measure timeout ;;
              when (pyval_eqb measure (VStr "nmi"))
                (evalAlgorithm elgname basefile (VStr "nmi-s") timeout))
             (fun err =>
                _ <- print (MsgEvalInterrupted elgname err) ;;
                ret jobsnum)
             (fun _ => incr jobsnum))
        jobsnum
  | _ => raise (arity_error (List.length args))
  end.

(** [for asym, ddir in datadirs: for basefile in glob.iglob(...):
    evaluate(measure, basefile, asym, jobsnum)] *)
Definition eval_datadirs (evalalgs : list string) (timeout : Q)
    (measure fileext : string) (jobsnum : Z)
    (datadirs : list (pyval * string)) : M unit :=
  for_each datadirs
    (fun d _ =>
       let '(asym, ddir) := d in
       for_each (iglob (ddir ++ "*" ++ fileext))
         (fun basefile _ =>
            _ <- evaluate evalalgs timeout
                   [VStr measure; VStr basefile; asym; VInt jobsnum] ;;
            ret tt)
         tt)
    tt.

(** [for asym, basefile in datafiles: basefile = ... + fileext;
    evaluate(basefile, asym, jobsnum)] *)
Definition eval_datafiles (evalalgs : list string) (timeout : Q)
    (fileext : string) (jobsnum : Z)
    (datafiles : list (pyval * string)) : M unit :=
  for_each datafiles
    (fun d _ =>
       let '(asym, basefile) := d in
       let basefile := fst (splitext basefile) ++ fileext in
       _ <- evaluate evalalgs timeout
              [VStr basefile; asym; VInt jobsnum] ;;
       ret tt)
    tt.

(** The dictionary [measures], in the order Python 2 iterates over its
    keys 1 and 2. *)
Definition measures : list (Z * (string * string * string)) :=
  [ (1, ("nmi", _extclnodes, "NMI")); (2, ("mod", ".hig", "Q")) ].

(** The names of the algorithms to evaluate.  When no algorithm was
    given the comprehension over [dir(appsmodule)] tests
    [func.startswith], not [funcname.startswith]. *)
Definition evalalgs_of (algorithms : option (list string))
  : M (list string) :=
  match algorithms with
  | Some (a :: l) => ret (map lower (a :: l))
  | _ =>
      let ianame := String.length _prefExec in
      match dir, func with
      | [], _ => ret []
      | _ :: _, None => raise (NameError "func")
      | _ :: _, Some f =>
          ret (map (fun funcname => lower (drop_chars ianame funcname))
                 (filter (fun _ => String.prefix _prefExec f) dir))
      end
  end.

(** One round of [for im in measures]; [jobsnum] is the local of that
    name, unbound until a round assigns it. *)
Definition eval_measure (evalres : Z) (algorithms : option (list string))
    (datadirs datafiles : list (pyval * string)) (timeout : Q)
    (m : Z * (string * string * string)) (jobsnum : option Z)
  : M (option Z) :=
  let '(im, (measure, fileext, title)) := m in
  if negb (Z.land evalres im =? im) then ret jobsnum
  else
    evalalgs <- evalalgs_of algorithms ;;
    _ <- print (MsgEvalStarting title) ;;
    let jobsnum := 0 in
    _ <- eval_datadirs evalalgs timeout measure fileext jobsnum datadirs ;;
    _ <- eval_datafiles evalalgs timeout fileext jobsnum datafiles ;;
    _ <- print (MsgEvalCompleted title) ;;
    ret (Some jobsnum).

(** [evalResults(evalres, appsmodule, algorithms, datadirs, datafiles,
    exectime, timeout)]; the module object [appsmodule] is always
    true. *)
Definition evalResults (evalres : Z) (algorithms : option (list string))
    (datadirs datafiles : list (pyval * string)) (exectime timeout : Q)
  : M unit :=
  fun st =>
    if negb (negb (evalres =? 0)
             && negb (match datadirs, datafiles with
                      | [], [] => true
                      | _, _ => false
                      end)
             && Qle_bool 0 exectime && Qle_bool 0 timeout)
    then Exc (AssertionError "Invalid input arguments") st
    else
      match execpool st with
      | Some _ =>
          Exc (AssertionError "_execpool should be clear on algs evaluation")
            st
      | None =>
          (_ <- evalResults_pool cpu_count ;;
           jobsnum <- for_each measures
                        (eval_measure evalres algorithms datadirs
                           datafiles timeout)
                        None ;;
           _ <- (fun st =>
                   match execpool st, jobsnum with
                   | None, _ => Ret tt st
                   | Some _, None => Exc (NameError "jobsnum") st
                   | Some p, Some _ =>
                       (_ <- set_execpool (Some (ExecPool.join p)) ;;
                        set_execpool None) st
                   end) ;;
           print MsgEvalDone) st
      end.

End EvalResults.

(** *** The signal handlers *)

(** [terminationHandler(signal, frame)]: [del _execpool] drops the
    reference the global holds on the pool, which is logged, the global
    is rebound to [None], and [sys.exit(0)] raises [SystemExit]. *)
Definition terminationHandler (sig : signum) : M unit :=
  fun st =>
    let st :=
      match execpool st with
      | Some p =>
          let st := record (Deleted p) st in
          mkState None (handlers st) (stdout st) (log st)
      | None => st
      end in
    Exc (SystemExit 0) st.

Definition signum_eqb (a b : signum) : bool :=
  match a, b with
  | SIGTERM, SIGTERM | SIGHUP, SIGHUP | SIGINT, SIGINT
  | SIGQUIT, SIGQUIT | SIGABRT, SIGABRT | SIGUSR1, SIGUSR1
  | SIGUSR2, SIGUSR2 | SIGCHLD, SIGCHLD | SIGCONT, SIGCONT
  | SIGURG, SIGURG | SIGWINCH, SIGWINCH | SIGTSTP, SIGTSTP => true
  | _, _ => false
  end.

(** [signal.signal(sig, handler)] *)
Definition signal_signal (sig : signum) (h : pyhandler) (st : State)
  : State :=
  mkState (execpool st)
    (fun s => if signum_eqb s sig then Handler h else handlers st s)
    (stdout st) (log st).

(** The dispositions of a Python process at start: [SIGINT] raises
    [KeyboardInterrupt], the other signals have their default action. *)
Definition start_handlers (s : signum) : disposition :=
  match s with
  | SIGINT => Handler default_int_handler
  | _ => SIG_DFL
  end.

Definition start : State := mkState None start_handlers [] [].

(** The five [signal.signal] calls of the main block, run before
    [benchmark] when arguments were given. *)
Definition set_handlers (st : State) : State :=
  let st := signal_signal SIGTERM terminationHandler_fn st in
  let st := signal_signal SIGHUP terminationHandler_fn st in
  let st := signal_signal SIGINT terminationHandler_fn st in
  let st := signal_signal SIGQUIT terminationHandler_fn st in
  signal_signal SIGABRT terminationHandler_fn st.

Definition call_handler (h : pyhandler) (sig : signum) : M unit :=
  match h with
  | default_int_handler => raise KeyboardInterrupt
  | terminationHandler_fn => terminationHandler sig
  end.

(** Delivery of a signal to the process.  With the default disposition
    the operating system takes the default action of the signal without
    running any Python code: the process is killed, stopped, or goes on.
    A handler that raises [SystemExit] ends the process with that code;
    one that raises something else ends it with code 1; one that returns
    lets the process go on. *)
Definition deliver (sig : signum) (st : State) : State :=
  match handlers st sig with
  | SIG_DFL =>
      match default_action sig with
      | Terminate => record (KilledBy sig) st
      | Stop => record (StoppedBy sig) st
      | Ignore | Continue => st
      end
  | Handler h =>
      match call_handler h sig st with
      | Ret _ st' => st'
      | Exc (SystemExit code) st' => record (Exit code) st'
      | Exc _ st' => record (Exit 1) st'
      end
  end.

End Benchmark.

(** ** The parameters of benchmark.py *)

Module BenchmarkParams.
Import Py.

(** *** String methods *)

(** The index of the first [c] in [s]. *)
Fixpoint index_of (c : ascii) (s : string) : option nat :=
  match s with
  | EmptyString => None
  | String a s' =>
      if Ascii.eqb a c then Some 0%nat else option_map S (index_of c s')
  end.

(** [s[i:]] for [i >= 0] *)
Definition slice_from (i : nat) (s : string) : string :=
  Benchmark.drop_chars i s.

(** [s.find(c, start)] for a single character [c] and [start >= 0]: the
    lowest index of [c] at or after [start], or [-1]. *)
Definition find (c : ascii) (start : nat) (s : string) : Z :=
  match index_of c (slice_from start s) with
  | Some i => Z.of_nat (start + i)
  | None => -1
  end.

(** [s.split(c, 1)]: a list of one string when [c] does not occur in [s],
    of two otherwise; the pair holds the first and, if any, the second. *)
Fixpoint split1 (c : ascii) (s : string) : string * option string :=
  match s with
  | EmptyString => (EmptyString, None)
  | String a s' =>
      if Ascii.eqb a c then (EmptyString, Some s')
      else let (h, t) := split1 c s' in (String a h, t)
  end.

Fixpoint lstrip (chars s : string) : string :=
  match s with
  | EmptyString => EmptyString
  | String a s' => if Hicbem.chr_in a chars then lstrip chars s' else s
  end.

Fixpoint rstrip (chars s : string) : string :=
  match s with
  | EmptyString => EmptyString
  | String a s' =>
      match rstrip chars s' with
      | EmptyString =>
          if Hicbem.chr_in a chars then EmptyString else String a EmptyString
      | r => String a r
      end
  end.

(** [s.strip(chars)] *)
Definition strip (chars s : string) : string := rstrip chars (lstrip chars s).

(** The argument of [strip] in [parseParams]: the double quote and the
    single quote. *)
Definition quotes : string := String (ascii_of_nat 34) "'".

(** [s.endswith(c)] for a single character [c]. *)
Fixpoint endswith (c : ascii) (s : string) : bool :=
  match s with
  | EmptyString => false
  | String a EmptyString => Ascii.eqb a c
  | String _ s' => endswith c s'
  end.

(** The whitespace of a byte string: space, and tab to carriage return. *)
Definition isspace (c : ascii) : bool :=
  let n := nat_of_ascii c in
  Nat.eqb n 32 || (Nat.leb 9 n && Nat.leb n 13).

Fixpoint split_words (word s : string) : list string :=
  match s with
  | EmptyString =>
      match word with EmptyString => [] | _ => [word] end
  | String a s' =>
      if isspace a then
        match word with
        | EmptyString => split_words EmptyString s'
        | _ => word :: split_words EmptyString s'
        end
      else split_words (word ++ String a EmptyString) s'
  end.

(** [s.split()]: the words of [s] between runs of whitespace. *)
Definition split (s : string) : list string := split_words EmptyString s.

(** ['{}'.format(n)] for an [int]. *)
Definition str (n : Z) : string :=
  DecimalString.NilZero.string_of_int (Z.to_int n).

(** *** parseParams *)

Definition _syntdir : string := "syntnets/".
Definition _syntinum : Z := 5.

(** An entry [(asym, path, gen)] of [datas]; [asym] is [None], [True] or
    [False]. *)
Definition data : Type := option bool * string * bool.

(** The locals of [parseParams] that live across the rounds of the loop.
    [timeout] is the int [36 * 60*60] or the product of a float and
    [timemul]; both are read as the rationals they denote. *)
Record locals : Type := mkLocals {
  gensynt : Z;
  netins : Z;
  shufnum : Z;
  syntdir : string;
  convnets : Z;
  runalgs : bool;
  evalres : Z;
  datas : list data;
  timeout : Q;
  timemul : Z;
  algorithms : option (list string)
}.

Definition locals0 : locals :=
  mkLocals 0 _syntinum 0 _syntdir 0 false 0 [] (inject_Z (36 * 60 * 60)) 1
    None.

(** Assignments to the locals. *)
Definition set_gensynt (v : Z) (l : locals) : locals :=
  mkLocals v (netins l) (shufnum l) (syntdir l) (convnets l) (runalgs l)
    (evalres l) (datas l) (timeout l) (timemul l) (algorithms l).

Definition set_netins (v : Z) (l : locals) : locals :=
  mkLocals (gensynt l) v (shufnum l) (syntdir l) (convnets l) (runalgs l)
    (evalres l) (datas l) (timeout l) (timemul l) (algorithms l).

Definition set_shufnum (v : Z) (l : locals) : locals :=
  mkLocals (gensynt l) (netins l) v (syntdir l) (convnets l) (runalgs l)
    (evalres l) (datas l) (timeout l) (timemul l) (algorithms l).

Definition set_syntdir (v : string) (l : locals) : locals :=
  mkLocals (gensynt l) (netins l) (shufnum l) v (convnets l) (runalgs l)
    (evalres l) (datas l) (timeout l) (timemul l) (algorithms l).

Definition set_convnets (v : Z) (l : locals) : locals :=
  mkLocals (gensynt l) (netins l) (shufnum l) (syntdir l) v (runalgs l)
    (evalres l) (datas l) (timeout l) (timemul l) (algorithms l).

Definition set_runalgs (v : bool) (l : locals) : locals :=
  mkLocals (gensynt l) (netins l) (shufnum l) (syntdir l) (convnets l) v
    (evalres l) (datas l) (timeout l) (timemul l) (algorithms l).

Definition set_evalres (v : Z) (l : locals) : locals :=
  mkLocals (gensynt l) (netins l) (shufnum l) (syntdir l) (convnets l)
    (runalgs l) v (datas l) (timeout l) (timemul l) (algorithms l).

Definition append_datas (v : data) (l : locals) : locals :=
  mkLocals (gensynt l) (netins l) (shufnum l) (syntdir l) (convnets l)
    (runalgs l) (evalres l) (datas l ++ [v]) (timeout l) (timemul l)
    (algorithms l).

Definition set_timeout (v : Q) (l : locals) : locals :=
  mkLocals (gensynt l) (netins l) (shufnum l) (syntdir l) (convnets l)
    (runalgs l) (evalres l) (datas l) v (timemul l) (algorithms l).

Definition set_timemul (v : Z) (l : locals) : locals :=
  mkLocals (gensynt l) (netins l) (shufnum l) (syntdir l) (convnets l)
    (runalgs l) (evalres l) (datas l) (timeout l) v (algorithms l).

Definition set_algorithms (v : list string) (l : locals) : locals :=
  mkLocals (gensynt l) (netins l) (shufnum l) (syntdir l) (convnets l)
    (runalgs l) (evalres l) (datas l) (timeout l) (timemul l) (Some v).

Definition unexpected (arg : string) : exc :=
  ValueError ("Unexpected argument: " ++ arg).

Definition out_of_range (netins shufnum : Z) : exc :=
  ValueError ("Value is out of range:  netins: " ++ str netins
              ++ " >= 1, shufnum: " ++ str shufnum ++ " >= 0").

(** One round of [for i in range(2,4)]: the character at [i], if there
    is one, has to be one of [allowed]. *)
Definition check_char (allowed arg : string) (i : nat) : res unit :=
  if Z.of_nat i <? Hicbem.len arg then
    c <-? Hicbem.item i arg ;;
    if negb (Hicbem.chr_in c allowed) then Raise (unexpected arg)
    else Ok tt
  else Ok tt.

Section ParseParams.

(** Python's built-ins [int] and [float] on a string: the number it
    denotes, or [ValueError]. *)
Variable int : string -> res Z.
Variable float : string -> res Q.

(** [if val[0]:], the numbers of instances and of shuffles. *)
Definition instances (l : locals) (val0 : string) : res locals :=
  match val0 with
  | EmptyString => Ok l
  | _ =>
      let (nums0, nums1) := split1 "." val0 in
      l <-? match nums0 with
            | EmptyString => Ok (set_netins 0 l)
            | _ => n <-? int nums0 ;; Ok (set_netins n l)
            end ;;
      l <-? match nums1 with
            | Some s => n <-? int s ;; Ok (set_shufnum n l)
            | None => Ok l
            end ;;
      if (netins l <? 0) || (shufnum l <? 0) then
        Raise (out_of_range (netins l) (shufnum l))
      else Ok l
  end.

(** [if len(val) > 1:], the output directory. *)
Definition outpdir (l : locals) (arg : string) (val1 : option string)
  : res locals :=
  match val1 with
  | None => Ok l
  | Some EmptyString => Raise (unexpected arg)
  | Some v =>
      let d := strip quotes v in
      Ok (set_syntdir (if endswith "/" d then d else d ++ "/") l)
  end.

(** The branch of [-g]. *)
Definition option_g (l : locals) (arg : string) : res locals :=
  let l := set_gensynt 1 l in
  let alen := Hicbem.len arg in
  if alen =? 2 then Ok l
  else
    let pos := find "=" 2 arg in
    c2 <-? Hicbem.item 2 arg ;;
    if negb (Hicbem.chr_in c2 "f=") || (alen =? pos + 1) then
      Raise (unexpected arg)
    else
      let l := if Ascii.eqb c2 "f" then set_gensynt 2 l else l in
      if negb (pos =? -1) then
        let (val0, val1) := split1 "=" (slice_from (Z.to_nat (pos + 1)) arg) in
        l <-? instances l val0 ;;
        outpdir l arg val1
      else Ok l.

(** The branch of [-a]. *)
Definition option_a (l : locals) (arg : string) : res locals :=
  if negb (String.eqb (String.substring 0 3 arg) "-a="
           && (4 <=? Hicbem.len arg)) then
    Raise (unexpected arg)
  else Ok (set_algorithms (split (strip quotes (slice_from 3 arg))) l).

(** The branch of [-c]. *)
Definition option_c (l : locals) (arg : string) : res locals :=
  let l := set_convnets 1 l in
  _ <-? check_char "fr" arg 2 ;;
  _ <-? check_char "fr" arg 3 ;;
  let arg := slice_from 2 arg in
  let l := if Hicbem.str_in "f" arg
           then set_convnets (Z.lor (convnets l) 2) l else l in
  let l := if Hicbem.str_in "r" arg
           then set_convnets (Z.lor (convnets l) 4) l else l in
  Ok l.

(** The branch of [-r]. *)
Definition option_r (l : locals) (arg : string) : res locals :=
  if negb (String.eqb arg "-r") then Raise (unexpected arg)
  else Ok (set_runalgs true l).

(** The branch of [-e]. *)
Definition option_e (l : locals) (arg : string) : res locals :=
  _ <-? check_char "nm" arg 2 ;;
  _ <-? check_char "nm" arg 3 ;;
  if (Hicbem.len arg =? 2) || (Hicbem.len arg =? 4) then
    Ok (set_evalres 3 l)
  else
    c2 <-? Hicbem.item 2 arg ;;
    if Ascii.eqb c2 "n" then Ok (set_evalres 1 l)
    else Ok (set_evalres 2 l).

(** The branch of [-d] and [-f]. *)
Definition option_d (l : locals) (arg : string) : res locals :=
  let pos := find "=" 2 arg in
  if pos =? -1 then Raise (unexpected arg)
  else
    c2 <-? Hicbem.item 2 arg ;;
    if negb (Hicbem.chr_in c2 "gas=") || (Hicbem.len arg =? pos + 1) then
      Raise (unexpected arg)
    else
      gv <-? (if Ascii.eqb c2 "g" then
                c3 <-? Hicbem.item 3 arg ;; Ok (true, c3)
              else Ok (false, c2)) ;;
      let '(gen, val) := gv in
      let asym := if Ascii.eqb val "a" then Some true
                  else if Ascii.eqb val "s" then Some false
                  else None in
      Ok (append_datas
            (asym, strip quotes (slice_from (Z.to_nat (pos + 1)) arg), gen) l).

(** The branch of [-t]. *)
Definition option_t (l : locals) (arg : string) : res locals :=
  let pos := find "=" 2 arg in
  if pos =? -1 then Raise (unexpected arg)
  else
    c2 <-? Hicbem.item 2 arg ;;
    if negb (Hicbem.chr_in c2 "smh=") || (Hicbem.len arg =? pos + 1) then
      Raise (unexpected arg)
    else
      let pos := pos + 1 in
      let l := if Ascii.eqb c2 "m" then set_timemul 60 l
               else if Ascii.eqb c2 "h" then set_timemul 3600 l
               else l in
      x <-? float (slice_from (Z.to_nat pos) arg) ;;
      Ok (set_timeout (x * inject_Z (timemul l)) l).

(** One round of [for arg in args]. *)
Definition parse_arg (l : locals) (arg : string) : res locals :=
  c0 <-? Hicbem.item 0 arg ;;
  if negb (Ascii.eqb c0 "-") then Raise (unexpected arg)
  else
    c1 <-? Hicbem.item 1 arg ;;
    if Ascii.eqb c1 "g" then option_g l arg
    else if Ascii.eqb c1 "a" then option_a l arg
    else if Ascii.eqb c1 "c" then option_c l arg
    else if Ascii.eqb c1 "r" then option_r l arg
    else if Ascii.eqb c1 "e" then option_e l arg
    else if Ascii.eqb c1 "d" || Ascii.eqb c1 "f" then option_d l arg
    else if Ascii.eqb c1 "t" then option_t l arg
    else Raise (unexpected arg).

Fixpoint parse_args (l : locals) (args : list string) : res locals :=
  match args with
  | [] => Ok l
  | arg :: rest => l' <-? parse_arg l arg ;; parse_args l' rest
  end.

Definition parseParams (args : list string)
  : res (Z * Z * Z * string * Z * bool * Z * list data * Q
         * option (list string)) :=
  match args with
  | [] => Raise (AssertionError "Input arguments must be specified")
  | _ =>
      l <-? parse_args locals0 args ;;
      Ok (gensynt l, netins l, shufnum l, syntdir l, convnets l, runalgs l,
          evalres l, datas l, timeout l, algorithms l)
  end.

End ParseParams.

(** A reading of [float] for integer literals, to run [parseParams] on
    examples. *)
Definition float_decimal (s : string) : res Q :=
  n <-? Hicbem.int_decimal s ;; Ok (inject_Z n).

End BenchmarkParams.

(** ** Reference definitions for the statements *)

Module Reference.
Import Py Hicbem.

(** The four spellings of the time option of hicbem.py. *)
Definition time_option (arg : string) : bool :=
  existsb (String.eqb arg) ["-t"; "-ts"; "-tm"; "-th"].

(** An argument with the unit of the time option taken away. *)
Definition drop_unit (arg : string) : string :=
  if time_option arg then "-t" else arg.

(** The timeout as the claim on the time units words it: the value given
    to the last time option, read by [int] and multiplied by 1, whatever
    the unit; [timeout] when there is none.  Arguments come in pairs of
    an option and its value. *)
Fixpoint seconds_of_last_value (int : string -> res Z) (args : list string)
    (timeout : Z) : Z :=
  match args with
  | opt :: value :: rest =>
      seconds_of_last_value int rest
        (if time_option opt then
           match int value with
           | Ok n => n * 1
           | Raise _ => timeout
           end
         else timeout)
  | _ => timeout
  end.

(** The locals of [parseParams] with [multiplier] unbound. *)
Definition forget_multiplier (l : locals) : locals :=
  mkLocals (udatas l) (wdatas l) (timeout l) (sparam l) (weighted l)
    (timemul l) None.

(** What one round of the loop of [parseParams] does on an option: it
    leaves the timeout alone and expects a value next, a time value
    exactly for the four time options. *)
Definition option_round (l : locals) (arg : string) (l' : locals) : Prop :=
  sparam l = SpFalse /\ sparam l' <> SpFalse /\ timeout l' = timeout l
  /\ (sparam l' = SpT <-> time_option arg = true).

(** What one round does on a value: a time value is read by [int] and
    multiplied by [timemul]; any other value leaves the timeout alone. *)
Definition value_round (int : string -> res Z) (l : locals) (arg : string)
    (l' : locals) : Prop :=
  sparam l <> SpFalse /\ sparam l' = SpFalse /\ time_option arg = false
  /\ (sparam l = SpT ->
      exists n, int arg = Ok n /\ timeout l' = n * timemul l)
  /\ (sparam l <> SpT -> timeout l' = timeout l).

(** An argument that starts with a dash. *)
Definition dashed (arg : string) : bool :=
  match arg with
  | String "-" _ => true
  | _ => false
  end.

(** The ten options of hicbem.py. *)
Definition options : list string :=
  ["-d"; "-du"; "-dw"; "-f"; "-fu"; "-fw"; "-t"; "-ts"; "-tm"; "-th"].

(** Options and values take turns, starting with an option if
    [expect_option]. *)
Fixpoint alternates (expect_option : bool) (args : list string) : bool :=
  match args with
  | [] => true
  | a :: rest =>
      Bool.eqb (dashed a) expect_option && alternates (negb expect_option) rest
  end.

(** An option is one of the ten; a value is neither ["."] nor [".."]. *)
Definition well_formed_arg (arg : string) : Prop :=
  if dashed arg then In arg options else arg <> "." /\ arg <> "..".

(** The options that announce a weighted dataset. *)
Definition weighted_option (arg : string) : bool :=
  existsb (String.eqb arg) ["-dw"; "-fw"].

(** The values of the dataset options, weighted or not as asked, in the
    order of the arguments. *)
Fixpoint datasets (want_weighted : bool) (args : list string) : list string :=
  match args with
  | opt :: value :: rest =>
      if negb (time_option opt)
         && Bool.eqb (weighted_option opt) want_weighted
      then value :: datasets want_weighted rest
      else datasets want_weighted rest
  | _ => []
  end.

(** Every value given to a time option is read by [int]. *)
Fixpoint time_values_readable (int : string -> res Z) (args : list string)
  : bool :=
  match args with
  | opt :: value :: rest =>
      (if time_option opt
       then match int value with Ok _ => true | Raise _ => false end
       else true)
      && time_values_readable int rest
  | _ => true
  end.

(** The networks [runApps] goes through: those found in the directories,
    then the files. *)
Definition networks (iglob : string -> list string)
    (datadirs datafiles : list (Benchmark.pyval * string)) : list string :=
  (flat_map
     (fun d => iglob (snd d ++ "*" ++ Benchmark._extnetfile)%string) datadirs
   ++ map snd datafiles)%list.

(** An algorithm of benchapps behaves when it returns a count that is not
    negative or raises a [StandardError]. *)
Definition behaves (timeout : Q) (alg : Benchmark.app) : Prop :=
  forall net asym st,
    match Benchmark.app_call alg net asym timeout st with
    | Benchmark.Ret n _ => 0 <= n
    | Benchmark.Exc e _ => isStandardError e = true
    end.

(** Two functions of benchapps for the examples: one schedules a job, the
    other raises. *)
Definition one_job_app : Benchmark.app :=
  Benchmark.mkApp "execHirecs" (fun _ _ _ => Benchmark.ret 1).

Definition failing_app : Benchmark.app :=
  Benchmark.mkApp "execScp" (fun _ _ _ => Benchmark.raise (ValueError "scp")).

(** The pool bound to [_execpool] once a statement has run, if it
    returned. *)
Definition pool_after (m : Benchmark.M unit) (st : Benchmark.State)
  : option ExecPool.Pool :=
  match m st with
  | Benchmark.Ret _ st' => Benchmark.execpool st'
  | Benchmark.Exc _ _ => None
  end.

(** No more jobs hold a slot than the pool has workers. *)
Definition within_capacity (p : ExecPool.Pool) : Prop :=
  (List.length (ExecPool.active p) <= ExecPool.capacity p)%nat.

(** The signals for which the main block of benchmark.py sets a
    handler. *)
Definition handled : list Benchmark.signum :=
  [Benchmark.SIGTERM; Benchmark.SIGHUP; Benchmark.SIGINT;
   Benchmark.SIGQUIT; Benchmark.SIGABRT].

(** An operating system on which no executable can be launched. *)
Definition popen_ENOENT (args : list string) (workdir : string) (w : World)
  : spawn := SpawnFails (OSError 2).

End Reference.

Import Reference.

(** ** The conversion of networks in benchmark.py *)

Module Conversion.

(** [AttributeError] beside the built-in classes of [Py.exc]; it is a
    [StandardError]. *)
Inductive exc : Type :=
| AttributeError (msg : string)
| Builtin (e : Py.exc).

Definition isStandardError (e : exc) : bool :=
  match e with
  | AttributeError _ => true
  | Builtin e => Py.isStandardError e
  end.

(** The keyword arguments of a call [Job(name=..., args=...,
    timeout=...)]. *)
Record job : Type := mkJob {
  name : string;
  args : list string;
  timeout : Z
}.

(** [bool(v)] *)
Definition truthy (v : Benchmark.pyval) : bool :=
  match v with
  | Benchmark.VNone => false
  | Benchmark.VBool b => b
  | Benchmark.VInt n => negb (n =? 0)
  | Benchmark.VStr s => negb (s =? "")%string
  end.

(** What is printed: the first two on standard output, the last on
    standard error. *)
Inductive message : Type :=
| MsgConverting (datadir : string)
| MsgConverted (netsnum : Z)
| MsgConversionError (inpnet : string) (err : exc).

Section Pool.

(** The pool objects of benchcore: their truth value, their constructor
    and the two methods the conversion calls.  A method changes the
    object and may raise. *)
Variable Pool : Type.
Variable truth : Pool -> bool.
Variable ExecPool : Z -> Pool.
Variable pool_execute : job -> Pool -> Pool * option exc.
Variable pool_join : Z -> Pool -> Pool * option exc.

(** [execpool] is the module global [_execpool]; [executed] lists the
    jobs given to [_execpool.execute], oldest first. *)
Record State : Type := mkState {
  execpool : option Pool;
  stdout : list message;
  stderr : list message;
  executed : list job
}.

Inductive outcome (A : Type) : Type :=
| Ret (a : A) (st : State)
| Exc (e : exc) (st : State).
Arguments Ret {A} a st.
Arguments Exc {A} e st.

Definition M (A : Type) : Type := State -> outcome A.

Definition ret {A} (a : A) : M A := fun st => Ret a st.

Definition bind {A B} (m : M A) (k : A -> M B) : M B :=
  fun st =>
    match m st with
    | Ret a st' => k a st'
    | Exc e st' => Exc e st'
    end.

Local Notation "x <- m ;; k" := (bind m (fun x => k))
  (at level 61, m at next level, right associativity).

(** [try: body] / [except StandardError as err: handler] *)
Definition try_except (body : M unit) (handler : exc -> M unit) : M unit :=
  fun st =>
    match body st with
    | Ret a st' => Ret a st'
    | Exc e st' => if isStandardError e then handler e st' else Exc e st'
    end.

Definition when (c : bool) (body : M unit) : M unit :=
  if c then body else ret tt.

Definition print (m : message) : M unit :=
  fun st =>
    Ret tt (mkState (execpool st) (stdout st ++ [m]) (stderr st)
              (executed st)).

(** [print(..., file=sys.stderr)] *)
Definition print_stderr (m : message) : M unit :=
  fun st =>
    Ret tt (mkState (execpool st) (stdout st) (stderr st ++ [m])
              (executed st)).

Definition set_execpool (v : option Pool) : M unit :=
  fun st => Ret tt (mkState v (stdout st) (stderr st) (executed st)).

(** [bool(_execpool)] *)
Definition execpool_truth (st : State) : bool :=
  match execpool st with
  | Some p => truth p
  | None => false
  end.

(** [_execpool.execute(j)]: the attribute is looked up before the
    argument is built. *)
Definition execute (j : job) : M unit :=
  fun st =>
    match execpool st with
    | None =>
        Exc (AttributeError "'NoneType' object has no attribute 'execute'")
          st
    | Some p =>
        let (p', err) := pool_execute j p in
        let st' := mkState (Some p') (stdout st) (stderr st)
                     (executed st ++ [j]) in
        match err with
        | Some e => Exc e st'
        | None => Ret tt st'
        end
    end.

(** [_execpool.join(t)] *)
Definition join (t : Z) : M unit :=
  fun st =>
    match execpool st with
    | None =>
        Exc (AttributeError "'NoneType' object has no attribute 'join'") st
    | Some p =>
        let (p', err) := pool_join t p in
        let st' := mkState (Some p') (stdout st) (stderr st) (executed st) in
        match err with
        | Some e => Exc e st'
        | None => Ret tt st'
        end
    end.

(** [for x in xs: acc = body(x, acc)] *)
Fixpoint for_each {X A} (xs : list X) (body : X -> A -> M A) (acc : A)
  : M A :=
  match xs with
  | [] => ret acc
  | x :: rest => acc' <- body x acc ;; for_each rest body acc'
  end.

(** [pyexec] of benchapps, [multiprocessing.cpu_count()], [glob.iglob],
    [os.path.split] and [os.path.splitext]. *)
Variable pyexec : string.
Variable cpu_count : Z.
Variable iglob : string -> list string.
Variable split : string -> string * string.
Variable splitext : string -> string * string.

(** The argument list [convertNet] builds. *)
Definition tohig_args (inpnet : string) (asym : Benchmark.pyval)
    (overwrite : bool) (resdub : Z) : list string :=
  let args := [pyexec; "3dparty/tohig.py"; inpnet;
               "-f=ns" ++ (if truthy asym then "a" else "e");
               "-o" ++ (if overwrite then "f" else "s")] in
  if negb (resdub =? 0) then (args ++ ["-r"])%list else args.

Definition convertNet (inpnet : string) (asym : Benchmark.pyval)
    (overwrite : bool) (resdub : Z) (timeout : Z) : M unit :=
  try_except
    (let args := tohig_args inpnet asym overwrite resdub in
     execute (mkJob (fst (splitext (snd (split inpnet)))) args timeout))
    (fun err => print_stderr (MsgConversionError inpnet err)).

(** [if not os.path.splitext(os.path.splitext(net)[0])[1]]: the name has
    no second extension, it is no shuffle. *)
Definition no_shuffle (net : string) : bool :=
  (snd (splitext (fst (splitext net))) =? "")%string.

Definition convTimeMax : Z := 3 * 60.

Definition convertNets (datadir : string) (asym : Benchmark.pyval)
    (overwrite : bool) (resdub : Z) (convtimeout : Z) : M unit :=
  _ <- print (MsgConverting datadir) ;;
  _ <- (fun st =>
          if negb (execpool_truth st)
          then set_execpool (Some (ExecPool (Z.max (cpu_count - 1) 1))) st
          else Ret tt st) ;;
  netsnum <- for_each (iglob (datadir ++ "*" ++ Benchmark._extnetfile))
               (fun net netsnum =>
                  if no_shuffle net then
                    _ <- convertNet net asym overwrite resdub convTimeMax ;;
                    ret (netsnum + 1)
                  else ret netsnum)
               0 ;;
  _ <- (fun st =>
          if execpool_truth st then
            (_ <- join (Z.max convtimeout (netsnum * convTimeMax)) ;;
             set_execpool None) st
          else Ret tt st) ;;
  print (MsgConverted netsnum).

(** The block [if convnets:] of [benchmark]; [convertNets] and
    [convertNet] get their last parameter by default. *)
Definition convert (convnets : Z)
    (datadirs datafiles : list (Benchmark.pyval * string)) : M unit :=
  when (negb (convnets =? 0))
    (_ <- for_each datadirs
            (fun d _ =>
               convertNets (snd d) (fst d) (Z.land convnets 3 =? 3)
                 (Z.land convnets 4) (30 * 60))
            tt ;;
     for_each datafiles
       (fun d _ =>
          convertNet (snd d) (fst d) (Z.land convnets 3 =? 3)
            (Z.land convnets 4) (3 * 60))
       tt).

End Pool.

Arguments Ret {Pool A} a st.
Arguments Exc {Pool A} e st.

End Conversion.

(** ** prepareInput of benchmark.py *)

Module PrepareInput.

Section FileSystem.

(** The state of the file system, and a generator of [glob.iglob] in
    progress: [next] gives its next path, if any, on the file system as
    it is when the loop asks. *)
Variable FS : Type.
Variable Gen : Type.
Variable iglob : string -> Gen.
Variable next : Gen -> FS -> option (string * Gen).

(** [os.path.isdir], [os.path.exists] and [dirempty] of benchutils read
    the file system; [os.path.split] and [os.path.splitext] read the
    path alone. *)
Variable isdir : string -> FS -> bool.
Variable exists_ : string -> FS -> bool.
Variable dirempty : string -> FS -> bool.
Variable split : string -> string * string.
Variable splitext : string -> string * string.

(** [backupPath] of benchutils, [os.mkdir] and [os.link] change the file
    system and may raise.  A [SyncValue] object is known by the number of
    its creation. *)
Variable backupPath : string -> bool -> nat -> FS -> FS * option Py.exc.
Variable mkdir : string -> FS -> FS * option Py.exc.
Variable link : string -> string -> FS -> FS * option Py.exc.

(** [fs] is the file system, [syncvalues] the number of [SyncValue]
    objects created so far. *)
Record State : Type := mkState {
  fs : FS;
  syncvalues : nat
}.

(** A loop over a generator may not end: [Timeout] is the run that is
    still going when the rounds allowed are used up. *)
Inductive outcome (A : Type) : Type :=
| Ret (a : A) (st : State)
| Exc (e : Py.exc) (st : State)
| Timeout.
Arguments Ret {A} a st.
Arguments Exc {A} e st.
Arguments Timeout {A}.

Definition M (A : Type) : Type := State -> outcome A.

Definition ret {A} (a : A) : M A := fun st => Ret a st.

Definition bind {A B} (m : M A) (k : A -> M B) : M B :=
  fun st =>
    match m st with
    | Ret a st' => k a st'
    | Exc e st' => Exc e st'
    | Timeout => Timeout
    end.

Local Notation "x <- m ;; k" := (bind m (fun x => k))
  (at level 61, m at next level, right associativity).

Definition when (c : bool) (body : M unit) : M unit :=
  if c then body else ret tt.

(** A call that changes the file system. *)
Definition effect (f : FS -> FS * option Py.exc) : M unit :=
  fun st =>
    let (fs', err) := f (fs st) in
    let st' := mkState fs' (syncvalues st) in
    match err with
    | Some e => Exc e st'
    | None => Ret tt st'
    end.

(** A call that reads the file system. *)
Definition read {A} (f : FS -> A) : M A := fun st => Ret (f (fs st)) st.

(** [SyncValue()] *)
Definition SyncValue : M nat :=
  fun st => Ret (syncvalues st) (mkState (fs st) (S (syncvalues st))).

(** [for x in g: acc = body(x, acc)] for a generator [g], for at most
    [rounds] rounds. *)
Fixpoint iterate {A} (rounds : nat) (g : Gen) (body : string -> A -> M A)
    (acc : A) : M A :=
  fun st =>
    match rounds with
    | O => Timeout
    | S rounds' =>
        match next g (fs st) with
        | None => Ret acc st
        | Some (x, g') =>
            match body x acc st with
            | Ret acc' st' => iterate rounds' g' body acc' st'
            | Exc e st' => Exc e st'
            | Timeout => Timeout
            end
        end
    end.

(** [for x in xs: acc = body(x, acc)] for a list. *)
Fixpoint for_each {X A} (xs : list X) (body : X -> A -> M A) (acc : A)
  : M A :=
  match xs with
  | [] => ret acc
  | x :: rest => acc' <- body x acc ;; for_each rest body acc'
  end.

(** The inner function [prepareDir(dirname, netfile, bcksuffix)]. *)
Definition prepareDir (dirname netfile : string) (bcksuffix : nat)
  : M unit :=
  there <- read (exists_ dirname) ;;
  full <- (if there then read (fun s => negb (dirempty dirname s))
           else ret false) ;;
  _ <- when full (effect (backupPath dirname false bcksuffix)) ;;
  there <- read (exists_ dirname) ;;
  _ <- when (negb there) (effect (mkdir dirname)) ;;
  effect (link netfile (dirname ++ "/" ++ snd (split netfile))).

(** The two lists the function fills. *)
Definition lists : Type :=
  (list (option bool * string) * list (option bool * string))%type.

Definition append_datadirs (d : option bool * string) (acc : lists)
  : lists := (fst acc ++ [d], snd acc)%list.

Definition append_datafiles (d : option bool * string) (acc : lists)
  : lists := (fst acc, snd acc ++ [d])%list.

(** The body of [for path in glob.iglob(wpath)].  [bcksuffix] is bound
    when [gen] is true and read only then. *)
Definition prepare_path (rounds : nat) (asym : option bool) (gen : bool)
    (path : string) (acc : lists) : M lists :=
  bcksuffix <- (if gen then SyncValue else ret O) ;;
  dir <- read (isdir path) ;;
  if dir then
    let path := if BenchmarkParams.endswith "/" path then path
                else path ++ "/" in
    if gen then
      iterate rounds (iglob (path ++ "*" ++ Benchmark._extnetfile))
        (fun net acc =>
           let dirname := fst (splitext net) in
           _ <- prepareDir dirname net bcksuffix ;;
           ret (append_datadirs (asym, dirname ++ "/") acc))
        acc
    else ret (append_datadirs (asym, path) acc)
  else
    if gen then
      let dirname := fst (splitext path) in
      _ <- prepareDir dirname path bcksuffix ;;
      ret (append_datafiles (asym, dirname ++ "/" ++ snd (split path)) acc)
    else ret (append_datafiles (asym, path) acc).

Definition prepareInput (rounds : nat) (datas : list BenchmarkParams.data)
  : M lists :=
  match datas with
  | [] => ret ([], [])
  | _ =>
      for_each datas
        (fun d acc =>
           let '(asym, wpath, gen) := d in
           iterate rounds (iglob wpath) (prepare_path rounds asym gen) acc)
        ([], [])
  end.

End FileSystem.

Arguments Ret {FS A} a st.
Arguments Exc {FS A} e st.
Arguments Timeout {FS A}.

End PrepareInput.

(** ** Reference definitions for the parameters of benchmark.py *)

Module ParamsReference.
Import BenchmarkParams.

(** The letter of an option: the character after the leading dash. *)
Definition option_letter (arg : string) : option ascii :=
  match arg with
  | String "-" (String c _) => Some c
  | _ => None
  end.

(** The letters [parseParams] dispatches on. *)
Definition letters : list ascii :=
  ["g"; "a"; "c"; "r"; "e"; "d"; "f"; "t"]%char.

Definition has_letter (cs : list ascii) (arg : string) : bool :=
  match option_letter arg with
  | Some c => existsb (Ascii.eqb c) cs
  | None => false
  end.

(** The ranges of the numeric locals and the shape of [syntdir]. *)
Definition in_range (l : locals) : Prop :=
  In (gensynt l) [0; 1; 2] /\
  0 <= netins l /\
  0 <= shufnum l /\
  In (convnets l) [0; 1; 3; 5; 7] /\
  In (evalres l) [0; 1; 2; 3] /\
  endswith "/" (syntdir l) = true.

(** The first and the last character of a string. *)
Definition first_char (s : string) : option ascii := String.get 0 s.

Fixpoint last_char (s : string) : option ascii :=
  match s with
  | EmptyString => None
  | String a EmptyString => Some a
  | String _ s' => last_char s'
  end.

(** [s] neither starts nor ends with a quote. *)
Definition unquoted (s : string) : Prop :=
  (forall c, first_char s = Some c -> Hicbem.chr_in c quotes = false) /\
  (forall c, last_char s = Some c -> Hicbem.chr_in c quotes = false).

(** Is the third character of [arg] a [g]? *)
Definition third_is_g (arg : string) : bool :=
  match String.get 2 arg with
  | Some c => Ascii.eqb c "g"
  | None => false
  end.

(** A built-in that raises nothing but [ValueError], as [int] and [float]
    do on a string. *)
Definition raises_ValueError {A : Type} (f : string -> Py.res A) : Prop :=
  forall s e, f s = Py.Raise e -> exists m, e = Py.ValueError m.

End ParamsReference.

(** ** Reference definitions for the conversion *)

Module ConversionReference.
Import Conversion.

(** The job [convertNet] submits for a network out of [convertNets]. *)
Definition conversion_job (pyexec : string)
    (split splitext : string -> string * string) (asym : Benchmark.pyval)
    (overwrite : bool) (resdub : Z) (net : string) : job :=
  mkJob (fst (splitext (snd (split net))))
    (tohig_args pyexec net asym overwrite resdub) convTimeMax.

(** The networks of a directory that [convertNets] converts. *)
Definition networks_of (iglob : string -> list string)
    (splitext : string -> string * string) (datadir : string)
  : list string :=
  filter (no_shuffle splitext)
    (iglob (datadir ++ "*" ++ Benchmark._extnetfile)).

(** The jobs of the directories of [datadirs]. *)
Definition directory_jobs (pyexec : string) (iglob : string -> list string)
    (split splitext : string -> string * string) (convnets : Z)
    (datadirs : list (Benchmark.pyval * string)) : list job :=
  flat_map
    (fun d =>
       map (conversion_job pyexec split splitext (fst d)
              (Z.land convnets 3 =? 3) (Z.land convnets 4))
         (networks_of iglob splitext (snd d)))
    datadirs.

(** What [convertNet] reports when [_execpool] is [None]. *)
Definition no_pool_error (d : Benchmark.pyval * string) : message :=
  MsgConversionError (snd d)
    (AttributeError "'NoneType' object has no attribute 'execute'").

(** A pool that counts the jobs it is given and never raises. *)
Definition counting_execute (j : job) (p : nat) : nat * option exc :=
  (S p, None).

Definition counting_join (t : Z) (p : nat) : nat * option exc := (p, None).

(** A directory listing and the two path functions on its names. *)
Definition sample_iglob (pattern : string) : list string :=
  ["d/a.nsa"; "d/a.1.nsa"; "d/b.nsa"].

Definition sample_split (path : string) : string * string :=
  ("d", Benchmark.drop_chars 2 path).

Definition sample_splitext (path : string) : string * string :=
  if (path =? "d/a.nsa")%string then ("d/a", ".nsa")
  else if (path =? "d/a.1.nsa")%string then ("d/a.1", ".nsa")
  else if (path =? "d/b.nsa")%string then ("d/b", ".nsa")
  else if (path =? "d/a.1")%string then ("d/a", ".1")
  else if (path =? "a.nsa")%string then ("a", ".nsa")
  else if (path =? "b.nsa")%string then ("b", ".nsa")
  else (path, "").

End ConversionReference.

(** ** Reference definitions for prepareInput *)

Module PrepareReference.
Import PrepareInput.

(** The run [r] from the state [st] did not raise and, if it returned,
    left the state as it was. *)
Definition untouched {FS A : Type} (st : State FS) (r : outcome FS A)
  : Prop :=
  match r with
  | Ret _ st' => st' = st
  | Exc _ _ => False
  | Timeout => True
  end.

(** Every directory listed so far ends with a slash. *)
Definition slashed (acc : lists) : Prop :=
  Forall (fun d => BenchmarkParams.endswith "/" (snd d) = true) (fst acc).

(** A generator over a list that is fixed when the generator is made, on
    a file system without state. *)
Definition list_next (g : list string) (s : unit)
  : option (string * list string) :=
  match g with
  | [] => None
  | x :: g' => Some (x, g')
  end.

(** A file system operation that does nothing and does not raise. *)
Definition no_effect (s : unit) : unit * option Py.exc := (s, None).

End PrepareReference.

(** * Properties *)

Import Hicbem.

(** ** secondsToHms *)

Example secondsToHms_3725 : secondsToHms 3725 = (1, 2, 5).
Proof. reflexivity. Qed.

Example secondsToHms_59 : secondsToHms 59 = (0, 0, 59).
Proof. reflexivity. Qed.


Example secondsToHms_float_3725_5 :
  secondsToHms_float (float_div (float_of_int 7451) (float_of_int 2))
  = Py.Ok (1, 2, float_div (float_of_int 11) (float_of_int 2)).
Proof. vm_compute. reflexivity. Qed.




(** ** The monitored child *)

Section Child.

Variable p : Proc.

Lemma later_0 (w : World) : later 0 w = w.
Proof. destruct w; unfold later; simpl; f_equal; lia. Qed.

Lemma later_later (a b : Z) (w : World) :
  later a (later b w) = later (b + a) w.
Proof. unfold later; simpl; f_equal; lia. Qed.

Lemma sleep1_later (w : World) : sleep1 w = later 1 w.
Proof. reflexivity. Qed.

Lemma ended_by_mono (t t' : Z) (s : nat * signal * Z) :
  t <= t' -> ended_by p t s = true -> ended_by p t' s = true.
Proof.
  intros Ht. destruct s as [[to sig] at_time]. simpl.
  destruct (Nat.eqb to (pid p)); simpl; [| discriminate].
  destruct sig; [| reflexivity].
  destruct (term_delay p); [| discriminate].
  rewrite !Z.leb_le. lia.
Qed.

(** A child that has exited stays so. *)
Lemma exited_later (d : Z) (w : World) :
  0 <= d -> exited p w = true -> exited p (later d w) = true.
Proof.
  intros Hd. unfold exited. simpl. rewrite !orb_true_iff.
  intros [H | H].
  - left. destruct (exit_at p); [| discriminate].
    rewrite Z.leb_le in *. lia.
  - right. rewrite existsb_exists in *.
    destruct H as [s [Hin Hs]]. exists s. split; [exact Hin |].
    apply ended_by_mono with (t := now w); [lia | exact Hs].
Qed.

Lemma poll_later (d : Z) (w : World) :
  0 <= d -> poll_is_None p (later d w) = true -> poll_is_None p w = true.
Proof.
  unfold poll_is_None. intros Hd H.
  destruct (exited p w) eqn:E; [| reflexivity].
  rewrite (exited_later d w Hd E) in H. exact H.
Qed.

(** Printing does not change what [poll] sees. *)
Lemma exited_print (m : message) (w : World) :
  exited p (print m w) = exited p w.
Proof. reflexivity. Qed.

Lemma exited_kill (w : World) : exited p (kill p w) = true.
Proof.
  unfold exited, kill, send. simpl. rewrite existsb_app. simpl.
  rewrite Nat.eqb_refl. simpl. rewrite !orb_true_r. reflexivity.
Qed.

(** The grace loop returns after [k <= left] sleeps: the child was seen
    alive at each of the first [k] polls, and was seen exited at the next
    unless all [left] rounds were used. *)
Lemma grace_wait_spec (left : nat) (w : World) :
  exists k : nat,
    (k <= left)%nat /\
    grace_wait p left w = later (Z.of_nat k) w /\
    (forall j : nat, (j < k)%nat ->
       poll_is_None p (later (Z.of_nat j) w) = true) /\
    ((k < left)%nat -> poll_is_None p (later (Z.of_nat k) w) = false).
Proof.
  revert w. induction left as [| left IH]; intros w.
  - exists 0%nat. simpl. rewrite later_0.
    repeat split; [lia | intros j Hj; lia | intros Hk; lia].
  - simpl. destruct (poll_is_None p w) eqn:E.
    + destruct (IH (sleep1 w)) as [k [Hk [Heq [Halive Hdead]]]].
      exists (S k). rewrite sleep1_later in *.
      rewrite later_later in Heq.
      repeat split.
      * lia.
      * rewrite Heq. f_equal. lia.
      * intros j Hj. destruct j as [| j].
        -- simpl. rewrite later_0. exact E.
        -- specialize (Halive j ltac:(lia)).
           rewrite later_later in Halive.
           replace (Z.of_nat (S j)) with (1 + Z.of_nat j) by lia.
           exact Halive.
      * intros Hlt. specialize (Hdead ltac:(lia)).
        rewrite later_later in Hdead.
        replace (Z.of_nat (S k)) with (1 + Z.of_nat k) by lia.
        exact Hdead.
    + exists 0%nat. simpl. rewrite later_0.
      repeat split; [lia | intros j Hj; lia | intros _; exact E].
Qed.

(** What the timeout branch sends: SIGTERM at once and SIGKILL ten
    seconds later, the latter exactly when the child is still seen alive
    at that time. *)
Lemma on_timeout_sent (algname : string) (timeout elapsed : Z) (w : World) :
  sent (on_timeout p algname timeout elapsed w)
  = (sent w ++ (pid p, SIGTERM, now w)
       :: (if poll_is_None p (later 10 (terminate p w))
           then [(pid p, SIGKILL, now w + 10)] else []))%list.
Proof.
  cbv beta zeta delta [on_timeout].
  destruct (grace_wait_spec 10 (terminate p w)) as [k [Hk [Heq [_ Hdead]]]].
  rewrite Heq.
  destruct (poll_is_None p (later 10 (terminate p w))) eqn:E10.
  - assert (k = 10%nat) as ->.
    { destruct (Nat.eq_dec k 10) as [Hk10 | Hk10]; [exact Hk10 |].
      specialize (Hdead ltac:(lia)).
      replace (later 10 (terminate p w))
        with (later (10 - Z.of_nat k) (later (Z.of_nat k) (terminate p w)))
        in E10 by (rewrite later_later; f_equal; lia).
      apply poll_later in E10; [congruence | lia]. }
    change (Z.of_nat 10) with 10. rewrite E10. simpl.
    rewrite <- app_assoc. reflexivity.
  - assert (poll_is_None p (later (Z.of_nat k) (terminate p w)) = false)
      as ->.
    { destruct (Nat.eq_dec k 10) as [-> | Hk10]; [exact E10 |].
      apply Hdead. lia. }
    reflexivity.
Qed.

(** When the timeout branch is left the child has exited, and at most ten
    seconds have passed. *)
Lemma on_timeout_exited (algname : string) (timeout elapsed : Z) (w : World) :
  poll_is_None p (on_timeout p algname timeout elapsed w) = false
  /\ now w <= now (on_timeout p algname timeout elapsed w) <= now w + 10.
Proof.
  cbv beta zeta delta [on_timeout].
  destruct (grace_wait_spec 10 (terminate p w)) as [k [Hk [Heq [_ Hdead]]]].
  rewrite Heq. unfold poll_is_None.
  destruct (exited p (later (Z.of_nat k) (terminate p w))) eqn:E; simpl negb;
    cbv iota; rewrite exited_print.
  - rewrite E. split; [reflexivity | simpl; lia].
  - rewrite exited_kill. split; [reflexivity | simpl; lia].
Qed.

End Child.

(** ** controlTime *)

Section ControlTime.

Variable p : Proc.
Variable algname : string.

(** While the child is seen alive and the timeout does not fire, a round
    of the monitoring loop only sleeps. *)
Lemma controlTime_sleeps (n rounds : nat) (exectime timeout : Z) (w : World) :
  (n <= rounds)%nat ->
  (forall j : nat, (j < n)%nat ->
     poll_is_None p (later (Z.of_nat j) w) = true) ->
  timeout = 0 \/ now w + Z.of_nat n - exectime <= timeout ->
  controlTime rounds p algname exectime timeout w
  = controlTime (rounds - n) p algname exectime timeout
      (later (Z.of_nat n) w).
Proof.
  revert rounds w. induction n as [| n IH]; intros rounds w Hn Halive Hquiet.
  - simpl. rewrite later_0, Nat.sub_0_r. reflexivity.
  - destruct rounds as [| rounds]; [lia |].
    pose proof (Halive 0%nat ltac:(lia)) as H0.
    simpl in H0. rewrite later_0 in H0.
    cbn [controlTime]. rewrite H0. cbv zeta.
    assert (Hno : negb (timeout =? 0)
                  && (now (sleep1 w) - exectime >? timeout) = false).
    { destruct Hquiet as [-> | Hq]; [reflexivity |].
      apply andb_false_iff. right. simpl.
      rewrite Z.gtb_ltb, Z.ltb_ge. lia. }
    rewrite Hno. rewrite IH.
    + rewrite sleep1_later, later_later. simpl Nat.sub.
      do 2 f_equal. lia.
    + lia.
    + intros j Hj. rewrite sleep1_later, later_later.
      replace (1 + Z.of_nat j) with (Z.of_nat (S j)) by lia.
      apply Halive. lia.
    + destruct Hquiet as [-> | Hq]; [left; reflexivity | right].
      simpl. lia.
Qed.

(** With timeout 0 the loop sleeps until it sees the child exited. *)
Lemma controlTime_0_spec (rounds : nat) (exectime : Z) (w : World) :
  exists k : nat,
    (k <= rounds)%nat /\
    (forall j : nat, (j < k)%nat ->
       poll_is_None p (later (Z.of_nat j) w) = true) /\
    (controlTime rounds p algname exectime 0 w
       = Done (later (Z.of_nat k) w)
     /\ poll_is_None p (later (Z.of_nat k) w) = false
     \/
     controlTime rounds p algname exectime 0 w
       = Looping (later (Z.of_nat k) w)
     /\ k = rounds
     /\ poll_is_None p (later (Z.of_nat k) w) = true).
Proof.
  revert w. induction rounds as [| rounds IH]; intros w.
  - exists 0%nat. simpl. rewrite later_0.
    split; [lia | split; [intros j Hj; lia |]].
    destruct (poll_is_None p w); [right | left]; auto.
  - cbn [controlTime]. destruct (poll_is_None p w) eqn:E.
    + cbv zeta. simpl negb. cbv iota. simpl andb. cbv iota.
      destruct (IH (sleep1 w)) as [k [Hk [Halive Hres]]].
      exists (S k). rewrite sleep1_later in *.
      assert (Hshift : later (Z.of_nat (S k)) w
                       = later (Z.of_nat k) (later 1 w))
        by (rewrite later_later; f_equal; lia).
      rewrite Hshift.
      split; [lia | split].
      * intros j Hj. destruct j as [| j].
        -- simpl. rewrite later_0. exact E.
        -- replace (later (Z.of_nat (S j)) w)
             with (later (Z.of_nat j) (later 1 w))
             by (rewrite later_later; f_equal; lia).
           apply Halive. lia.
      * destruct Hres as [[H1 H2] | [H1 [H2 H3]]]; [left | right]; auto.
    + exists 0%nat. simpl. rewrite later_0.
      split; [lia | split; [intros j Hj; lia | left; auto]].
Qed.

End ControlTime.

Example controlTime_0_never_exits :
  controlTime 1000 (mkProc 7 None (Some 1)) "HiReCS" 0 0 (mkWorld 0 [] [])
  = Looping (mkWorld 1000 [] []).
Proof. vm_compute. reflexivity. Qed.

Example controlTime_0_exits :
  controlTime 1000 (mkProc 7 (Some 25) (Some 1)) "HiReCS" 0 0 (mkWorld 0 [] [])
  = Done (mkWorld 25 [] []).
Proof. vm_compute. reflexivity. Qed.

(** C7: with timeout 0 the monitoring loop sends no signal and prints
    nothing, however many rounds it runs: after [k] sleeps it has either
    seen the child exited and returned, or it is still looping with the
    child alive; it returns as soon as a poll sees the child exited. *)
Theorem controlTime_timeout_0_unbounded
    (rounds : nat) (p : Proc) (algname : string) (exectime : Z) (w : World) :
  let r := controlTime rounds p algname exectime 0 w in
  sent (world_of r) = sent w /\
  stdout (world_of r) = stdout w /\
  (exists k : nat,
     (k <= rounds)%nat /\
     (r = Done (later (Z.of_nat k) w)
      /\ poll_is_None p (later (Z.of_nat k) w) = false
      \/
      r = Looping (later (Z.of_nat k) w)
      /\ k = rounds /\ poll_is_None p (later (Z.of_nat k) w) = true)) /\
  (forall j : nat, (j <= rounds)%nat ->
     poll_is_None p (later (Z.of_nat j) w) = false ->
     exists w', r = Done w').
Proof.
  intros r.
  destruct (controlTime_0_spec p algname rounds exectime w)
    as [k [Hk [Halive Hres]]].
  fold r in Hres.
  assert (Hw : world_of r = later (Z.of_nat k) w).
  { destruct Hres as [[H _] | [H _]]; rewrite H; reflexivity. }
  rewrite Hw. repeat split.
  - exists k. split; [exact Hk | exact Hres].
  - intros j Hj Hdead.
    destruct Hres as [[H _] | [H [Hkr Hk_alive]]]; [eauto |].
    exfalso. subst k.
    replace (later (Z.of_nat rounds) w)
      with (later (Z.of_nat rounds - Z.of_nat j) (later (Z.of_nat j) w))
      in Hk_alive by (rewrite later_later; f_equal; lia).
    apply poll_later in Hk_alive; [congruence | lia].
Qed.

Section Expiry.

Variable p : Proc.
Variable algname : string.

Lemma controlTime_exited (rounds : nat) (exectime timeout : Z) (w : World) :
  poll_is_None p w = false ->
  controlTime rounds p algname exectime timeout w = Done w.
Proof. intros H. destruct rounds; simpl; rewrite H; reflexivity. Qed.

(** The round in which the timeout fires: it is the last one. *)
Lemma controlTime_fires (rounds : nat) (exectime timeout : Z) (w : World) :
  timeout <> 0 ->
  poll_is_None p w = true ->
  now w + 1 - exectime > timeout ->
  controlTime (S rounds) p algname exectime timeout w
  = Done (on_timeout p algname timeout (now w + 1 - exectime) (sleep1 w)).
Proof.
  intros Ht Halive Hover. cbn [controlTime]. rewrite Halive. cbv zeta.
  assert (Hfire : negb (timeout =? 0)
                  && (now (sleep1 w) - exectime >? timeout) = true).
  { apply andb_true_iff. split.
    - apply negb_true_iff, Z.eqb_neq. exact Ht.
    - simpl. rewrite Z.gtb_ltb, Z.ltb_lt. lia. }
  rewrite Hfire. apply controlTime_exited.
  apply (on_timeout_exited p algname timeout _ (sleep1 w)).
Qed.

(** Among the first [n] polls either all see the child alive or there is a
    first one that sees it exited. *)
Lemma first_exit (n : nat) (w : World) :
  (forall j : nat, (j < n)%nat ->
     poll_is_None p (later (Z.of_nat j) w) = true)
  \/ exists k : nat,
       (k < n)%nat /\
       poll_is_None p (later (Z.of_nat k) w) = false /\
       forall j : nat, (j < k)%nat ->
         poll_is_None p (later (Z.of_nat j) w) = true.
Proof.
  induction n as [| n IH].
  - left. intros j Hj. lia.
  - destruct IH as [Hall | [k [Hk [Hdead Hbefore]]]].
    + destruct (poll_is_None p (later (Z.of_nat n) w)) eqn:E.
      * left. intros j Hj.
        destruct (Nat.eq_dec j n) as [-> | Hne]; [exact E |].
        apply Hall. lia.
      * right. exists n. split; [lia | split; [exact E | exact Hall]].
    + right. exists k. split; [lia | split; [exact Hdead | exact Hbefore]].
Qed.

End Expiry.

Example controlTime_ignores_SIGTERM :
  controlTime 4 (mkProc 7 None None) "Louvain" 100 2 (mkWorld 100 [] [])
  = Done (mkWorld 113 [(7%nat, SIGTERM, 103); (7%nat, SIGKILL, 113)]
            [MsgTimeout "Louvain" 2 3 (0, 0, 3)]).
Proof. vm_compute. reflexivity. Qed.

Example controlTime_heeds_SIGTERM :
  controlTime 4 (mkProc 7 None (Some 4)) "Louvain" 100 2 (mkWorld 100 [] [])
  = Done (mkWorld 107 [(7%nat, SIGTERM, 103)]
            [MsgTimeout "Louvain" 2 3 (0, 0, 3)]).
Proof. vm_compute. reflexivity. Qed.

(** C2: in the round in which the monitor finds a child it has just seen
    alive past a non-zero timeout, it sends SIGTERM at once, then polls
    once a second, for at most ten seconds, until a poll sees the child
    exited; it sends SIGKILL, ten seconds after SIGTERM, exactly when the
    child is still seen alive then, and sends nothing else; a child that
    exits within the ten seconds gets no SIGKILL.  The loop then ends. *)
Theorem controlTime_terminate_then_kill
    (rounds : nat) (p : Proc) (algname : string) (exectime timeout : Z)
    (w : World) :
  timeout <> 0 ->
  poll_is_None p w = true ->
  now w + 1 - exectime > timeout ->
  let t := now w + 1 in
  let alive_after_grace := poll_is_None p (later 10 (terminate p (sleep1 w))) in
  exists w' : World,
    controlTime (S rounds) p algname exectime timeout w = Done w' /\
    sent w' = (sent w ++ (pid p, SIGTERM, t)
                 :: (if alive_after_grace then [(pid p, SIGKILL, t + 10)]
                     else []))%list /\
    (exists k : nat,
       (k <= 10)%nat /\ now w' = t + Z.of_nat k /\
       (forall j : nat, (j < k)%nat ->
          poll_is_None p (later (Z.of_nat j) (terminate p (sleep1 w))) = true) /\
       ((k < 10)%nat ->
          poll_is_None p (later (Z.of_nat k) (terminate p (sleep1 w))) = false
          /\ alive_after_grace = false)) /\
    poll_is_None p w' = false.
Proof.
  intros Ht Halive Hover t alive_after_grace.
  exists (on_timeout p algname timeout (now w + 1 - exectime) (sleep1 w)).
  split; [apply controlTime_fires; assumption |].
  split; [apply (on_timeout_sent p algname timeout _ (sleep1 w)) |].
  split; [| apply (on_timeout_exited p algname timeout _ (sleep1 w))].
  cbv beta zeta delta [on_timeout].
  destruct (grace_wait_spec p 10 (terminate p (sleep1 w)))
    as [k [Hk [Heq [Hseen Hdead]]]].
  exists k. rewrite Heq.
  split; [exact Hk | split; [| split; [exact Hseen |]]].
  - destruct (poll_is_None p (later (Z.of_nat k) (terminate p (sleep1 w))));
      reflexivity.
  - intros Hlt. specialize (Hdead Hlt). split; [exact Hdead |].
    subst alive_after_grace.
    destruct (poll_is_None p (later 10 (terminate p (sleep1 w)))) eqn:E;
      [| reflexivity].
    replace (later 10 (terminate p (sleep1 w)))
      with (later (10 - Z.of_nat k)
              (later (Z.of_nat k) (terminate p (sleep1 w))))
      in E by (rewrite later_later; f_equal; lia).
    apply poll_later in E; [congruence | lia].
Qed.

Lemma controlTime_terminate_then_kill_witness :
  exists w' : World,
    controlTime 1 (mkProc 7 None (Some 4)) "Louvain" 100 2 (mkWorld 102 [] [])
    = Done w' /\
    sent w' = [(7%nat, SIGTERM, 103)].
Proof.
  destruct (controlTime_terminate_then_kill 0 (mkProc 7 None (Some 4))
              "Louvain" 100 2 (mkWorld 102 [] []))
    as [w' [Hrun [Hsent _]]].
  - discriminate.
  - reflexivity.
  - simpl. lia.
  - exists w'. split; [exact Hrun | exact Hsent].
Defined.

(** Where [time.clock()] is the clock that [time.sleep] advances, as on
    Windows, a child monitored from its spawn time [now w] with a timeout
    [T > 0] has exited, and the loop has returned, at most [T + 10 + 1]
    seconds after the spawn.  Either a poll saw the child exited within the
    first [T] seconds and no signal was sent, or the child was alive at
    every poll up to [T] and SIGTERM was sent at [T + 1], the first tick at
    which the time elapsed since the spawn exceeds [T], followed by SIGKILL
    at [T + 11] if the child was still alive. *)
Theorem controlTime_timeout_deadline
    (rounds : nat) (p : Proc) (algname : string) (T : Z) (w : World) :
  0 < T ->
  (Z.to_nat T + 1 <= rounds)%nat ->
  exists w' : World,
    controlTime rounds p algname (now w) T w = Done w' /\
    poll_is_None p w' = false /\
    now w' <= now w + T + 10 + 1 /\
    ((exists k : Z, 0 <= k <= T /\ w' = later k w)
     \/
     poll_is_None p (later T w) = true /\
     w' = on_timeout p algname T (T + 1) (later (T + 1) w) /\
     sent w' = (sent w ++ (pid p, SIGTERM, now w + T + 1)
                  :: (if poll_is_None p
                           (later 10 (terminate p (later (T + 1) w)))
                      then [(pid p, SIGKILL, now w + T + 1 + 10)]
                      else []))%list).
Proof.
  intros HT Hrounds.
  set (n := Z.to_nat T).
  assert (Hn : Z.of_nat n = T) by (subst n; lia).
  destruct (first_exit p (S n) w) as [Hall | [k [Hk [Hdead Hbefore]]]].
  - (* alive at every poll up to T: the timeout fires at T + 1 *)
    assert (Hwait : controlTime rounds p algname (now w) T w
                    = controlTime (rounds - n) p algname (now w) T
                        (later (Z.of_nat n) w)).
    { apply controlTime_sleeps.
      - lia.
      - intros j Hj. apply Hall. lia.
      - right. lia. }
    destruct (rounds - n)%nat as [| r] eqn:Er; [lia |].
    rewrite Hn in Hwait.
    pose proof (Hall n ltac:(lia)) as HaliveT. rewrite Hn in HaliveT.
    rewrite controlTime_fires in Hwait;
      [| lia | exact HaliveT | simpl; lia ].
    replace (now (later T w) + 1 - now w) with (T + 1) in Hwait
      by (simpl; lia).
    replace (sleep1 (later T w)) with (later (T + 1) w) in Hwait
      by (rewrite sleep1_later, later_later; reflexivity).
    exists (on_timeout p algname T (T + 1) (later (T + 1) w)).
    pose proof (on_timeout_exited p algname T (T + 1) (later (T + 1) w))
      as [Hex Hnow].
    split; [exact Hwait | split; [exact Hex | split]].
    + change (now (later (T + 1) w)) with (now w + (T + 1)) in Hnow. lia.
    + right. split; [exact HaliveT | split; [reflexivity |]].
      rewrite on_timeout_sent.
      change (sent (later (T + 1) w)) with (sent w).
      change (now (later (T + 1) w)) with (now w + (T + 1)).
      rewrite !Z.add_assoc. reflexivity.
  - (* a poll saw the child exited before the timeout could fire *)
    exists (later (Z.of_nat k) w).
    assert (Hwait : controlTime rounds p algname (now w) T w
                    = controlTime (rounds - k) p algname (now w) T
                        (later (Z.of_nat k) w)).
    { apply controlTime_sleeps.
      - lia.
      - exact Hbefore.
      - right. lia. }
    rewrite (controlTime_exited p algname (rounds - k) (now w) T _ Hdead)
      in Hwait.
    split; [exact Hwait | split; [exact Hdead | split]].
    + simpl. lia.
    + left. exists (Z.of_nat k). split; [lia | reflexivity].
Qed.

Lemma controlTime_timeout_deadline_witness :
  exists w' : World,
    controlTime 4 (mkProc 7 None None) "Louvain" 100 2 (mkWorld 100 [] [])
    = Done w' /\
    now w' <= 100 + 2 + 10 + 1.
Proof.
  destruct (controlTime_timeout_deadline 4 (mkProc 7 None None) "Louvain" 2
              (mkWorld 100 [] []))
    as [w' [Hrun [_ [Hnow _]]]].
  - lia.
  - simpl. lia.
  - exists w'. split; [exact Hrun | exact Hnow].
Defined.

(** ** execAlgorithm *)

Example execAlgorithm_no_executable :
  execAlgorithm popen_ENOENT 0 "HiReCS" "." ["./hirecs"] 5 true
    (mkWorld 3 [] [])
  = Returned tt
      (mkWorld 3 []
         [MsgStarting "HiReCS"; MsgSpawnError "HiReCS" (Py.OSError 2);
          MsgFinished "HiReCS"]).
Proof. reflexivity. Qed.

Example execAlgorithm_interrupted_spawn :
  execAlgorithm (fun _ _ _ => SpawnFails Py.KeyboardInterrupt) 0
    "HiReCS" "." ["./hirecs"] 5 false (mkWorld 3 [] [])
  = Raised Py.KeyboardInterrupt (mkWorld 3 [] []).
Proof. reflexivity. Qed.

(** C6: when [subprocess.Popen] raises a [StandardError], [execAlgorithm]
    returns normally: the clock has not moved and no signal was sent, so
    the child was not monitored, and the output is the error report,
    between the start and finish lines when tracing is on. *)
Theorem execAlgorithm_spawn_error
    (popen : list string -> string -> World -> spawn) (rounds : nat)
    (algname workdir : string) (args : list string) (timeout : Z)
    (trace : bool) (w : World) (e : Py.exc) :
  algname <> "" -> workdir <> "" -> args <> [] ->
  popen args workdir (if trace then print (MsgStarting algname) w else w)
    = SpawnFails e ->
  Py.isStandardError e = true ->
  execAlgorithm popen rounds algname workdir args timeout trace w
  = Returned tt
      (mkWorld (now w) (sent w)
         (stdout w
          ++ (if trace then [MsgStarting algname] else [])
          ++ [MsgSpawnError algname e]
          ++ (if trace then [MsgFinished algname] else []))%list).
Proof.
  intros Ha Hw Hargs Hpopen Hstd.
  unfold execAlgorithm.
  apply String.eqb_neq in Ha. apply String.eqb_neq in Hw.
  rewrite Ha, Hw. destruct args as [| a args]; [congruence |].
  cbn [orb].
  destruct trace; cbn [when];
    unfold bindM, act, ret, try_else, clock, Popen;
    rewrite Hpopen, Hstd; cbn.
  - unfold print. cbn. rewrite <- !app_assoc. reflexivity.
  - unfold print. cbn. reflexivity.
Qed.

Lemma execAlgorithm_spawn_error_witness :
  execAlgorithm popen_ENOENT 0 "HiReCS" "." ["./hirecs"] 5 true
    (mkWorld 3 [] [])
  = Returned tt
      (mkWorld 3 []
         [MsgStarting "HiReCS"; MsgSpawnError "HiReCS" (Py.OSError 2);
          MsgFinished "HiReCS"]).
Proof.
  apply (execAlgorithm_spawn_error popen_ENOENT 0 "HiReCS" "." ["./hirecs"] 5
           true (mkWorld 3 [] []) (Py.OSError 2));
    try discriminate; reflexivity.
Defined.

(** ** parseParams of hicbem.py *)

Section ParseParamsFacts.

Variable int : string -> Py.res Z.

Lemma len_String (c : ascii) (s : string) : len (String c s) = 1 + len s.
Proof. unfold len. simpl String.length. lia. Qed.

Lemma len_nonneg (s : string) : 0 <= len s.
Proof. unfold len. lia. Qed.

Lemma time_option_dash (c : ascii) (s : string) :
  Ascii.eqb c "-" = false -> time_option (String c s) = false.
Proof. intros E. unfold time_option. cbn. rewrite E. reflexivity. Qed.

Ltac split_chars :=
  repeat match goal with
  | |- context [ascii_dec ?a ?b] =>
      destruct (ascii_dec a b); [subst |]; cbn
  end.

Ltac close_option_round :=
  cbn;
  let H := fresh "H" in
  intros H;
  first
    [ discriminate H
    | injection H as <-; cbn;
      split; [reflexivity | split; [reflexivity | left]];
      unfold option_round; cbn;
      repeat split; intros; try discriminate; reflexivity ].

Lemma parse_arg_option (l : locals) (c1 : ascii) (rest : string) :
  sparam l = SpFalse ->
  parse_arg int l (String "-" (String c1 rest))
  = option_arg l (String "-" (String c1 rest)).
Proof.
  intros Hsp. unfold parse_arg. cbn [item String.get Py.bind].
  rewrite Hsp. cbn [Ascii.eqb Bool.eqb truthy negb orb].
  assert (Hlen : (len (String "-" (String c1 rest)) <? 2) = false).
  { apply Z.ltb_ge. rewrite !len_String. pose proof (len_nonneg rest). lia. }
  rewrite Hlen. reflexivity.
Qed.

(** An option of more than three characters is refused. *)
Lemma option_arg_long (l l' : locals) (c1 c2 c3 : ascii) (rest : string) :
  option_arg l (String "-" (String c1 (String c2 (String c3 rest))))
  <> Py.Ok l'.
Proof.
  unfold option_arg. cbn [item String.get Py.bind].
  assert (H3 : (3 <=? len (String "-" (String c1 (String c2 (String c3 rest)))))
               = true).
  { apply Z.leb_le. rewrite !len_String. pose proof (len_nonneg rest). lia. }
  assert (H4 : (3 <? len (String "-" (String c1 (String c2 (String c3 rest)))))
               = true).
  { apply Z.ltb_lt. rewrite !len_String. pose proof (len_nonneg rest). lia. }
  rewrite H3, H4, !orb_true_r.
  destruct (Ascii.eqb c1 "d" || Ascii.eqb c1 "f"); [discriminate |].
  destruct (Ascii.eqb c1 "t"); discriminate.
Qed.

Ltac refuse_long :=
  rewrite parse_arg_option by reflexivity;
  let H := fresh "H" in
  intros H; exfalso; exact (option_arg_long _ _ _ _ _ _ H).

Lemma parse_arg_step (l : locals) (arg : string) (l' : locals) :
  parse_arg int l arg = Py.Ok l' ->
  timemul l' = timemul l /\
  parse_arg int (forget_multiplier l) (drop_unit arg)
    = Py.Ok (forget_multiplier l') /\
  (option_round l arg l' \/ value_round int l arg l').
Proof.
  destruct arg as [| c0 rest]; [discriminate |].
  destruct l as [u w t sp wt tm mu].
  destruct (Ascii.eqb c0 "-") eqn:E0.
  - (* an option *)
    apply Ascii.eqb_eq in E0. subst c0.
    destruct sp; [| discriminate | discriminate].
    destruct rest as [| c1 rest]; [discriminate |].
    destruct (Ascii.eqb_spec c1 "d") as [-> | Hd];
      [| destruct (Ascii.eqb_spec c1 "f") as [-> | Hf];
         [| destruct (Ascii.eqb_spec c1 "t") as [-> | Ht]]].
    + destruct rest as [| c2 [| c3 rest]].
      * close_option_round.
      * cbn. split_chars; close_option_round.
      * refuse_long.
    + destruct rest as [| c2 [| c3 rest]].
      * close_option_round.
      * cbn. split_chars; close_option_round.
      * refuse_long.
    + destruct rest as [| c2 [| c3 rest]].
      * close_option_round.
      * cbn. split_chars; close_option_round.
      * refuse_long.
    + rewrite parse_arg_option by reflexivity.
      unfold option_arg. cbn [item String.get Py.bind].
      apply Ascii.eqb_neq in Hd, Hf, Ht. rewrite Hd, Hf, Ht.
      discriminate.
  - (* a value *)
    pose proof (time_option_dash c0 rest E0) as Hopt.
    unfold drop_unit. rewrite Hopt.
    unfold parse_arg. cbn [item String.get Py.bind]. rewrite E0.
    cbn [negb sparam forget_multiplier truthy].
    destruct sp; cbn [truthy Bool.eqb negb orb]; [discriminate | |];
      destruct (str_in (String c0 rest) ".."); try discriminate;
      unfold value_arg; cbn [sparam weighted Py.bind].
    + destruct wt; cbn; intros H; injection H as <-; cbn;
        (split; [reflexivity | split; [reflexivity | right]]);
        unfold value_round; cbn;
        repeat split; intros; try discriminate; try reflexivity;
        try (rewrite E0; reflexivity); exfalso; auto.
    + destruct (int (String c0 rest)) as [n | e] eqn:En; cbn;
        intros H; [| discriminate H].
      injection H as <-. cbn.
      split; [reflexivity | split; [reflexivity | right]].
      unfold value_round. cbn.
      repeat split; intros; try discriminate; try reflexivity;
        try (rewrite E0; reflexivity).
      * exists n. split; [exact En | reflexivity].
      * exfalso; auto.
Qed.
(** The loop ignores the unit as well. *)
Lemma parse_args_drop_unit (args : list string) (l l' : locals) :
  parse_args int l args = Py.Ok l' ->
  parse_args int (forget_multiplier l) (map drop_unit args)
  = Py.Ok (forget_multiplier l').
Proof.
  revert l. induction args as [| arg args IH]; intros l H.
  - injection H as <-. reflexivity.
  - cbn [parse_args map] in *.
    destruct (parse_arg int l arg) as [l1 | e] eqn:E1; [| discriminate H].
    apply parse_arg_step in E1. destruct E1 as [_ [E1 _]].
    rewrite E1. cbn [Py.bind] in *. apply IH. exact H.
Qed.

(** Induction over a list two elements at a time. *)
Lemma pair_ind {A : Type} (P : list A -> Prop) :
  P [] -> (forall a, P [a]) ->
  (forall a b l, P l -> P (a :: b :: l)) ->
  forall l, P l.
Proof.
  intros H0 H1 H2 l.
  assert (H : P l /\ forall a, P (a :: l)).
  { induction l as [| b l [IH1 IH2]].
    - split; [exact H0 | exact H1].
    - split; [apply IH2 | intros a; apply H2; exact IH1]. }
  apply H.
Qed.

(** The loop leaves in [timeout] the value of the last time option,
    times 1. *)
Lemma parse_args_timeout (args : list string) :
  forall l l' : locals,
    sparam l = SpFalse -> timemul l = 1 ->
    parse_args int l args = Py.Ok l' ->
    timeout l' = seconds_of_last_value int args (timeout l).
Proof.
  induction args as [| a | a b rest IH] using pair_ind;
    intros l l' Hsp Hmul H.
  - injection H as <-. reflexivity.
  - cbn [parse_args] in H.
    destruct (parse_arg int l a) as [l1 | e] eqn:E1; [| discriminate H].
    cbn [Py.bind] in H. injection H as <-.
    apply parse_arg_step in E1.
    destruct E1 as [_ [_ [[_ [_ [Ht _]]] | [Hne _]]]];
      [exact Ht | congruence].
  - cbn [parse_args] in H.
    destruct (parse_arg int l a) as [l1 | e] eqn:E1; [| discriminate H].
    cbn [Py.bind] in H.
    destruct (parse_arg int l1 b) as [l2 | e] eqn:E2; [| discriminate H].
    cbn [Py.bind] in H.
    apply parse_arg_step in E1. apply parse_arg_step in E2.
    destruct E1 as [Hm1 [_ [[_ [Hsp1 [Ht1 Hopt]]] | [Hne _]]]];
      [| congruence].
    destruct E2 as [Hm2 [_ [[Hsp1' _] | [_ [Hsp2 [_ [HT HnT]]]]]]];
      [congruence |].
    rewrite (IH l2 l' Hsp2 ltac:(congruence) H).
    cbn [seconds_of_last_value]. f_equal.
    destruct (time_option a) eqn:Ea.
    + destruct (HT (proj2 Hopt eq_refl)) as [n [Hn Hval]].
      rewrite Hn, Hval, Hm1, Hmul. reflexivity.
    + rewrite HnT, Ht1; [reflexivity |].
      intros Hc. apply Hopt in Hc. discriminate Hc.
Qed.

End ParseParamsFacts.

Example parseParams_tm :
  parseParams int_decimal ["-dw"; "nets"; "-tm"; "5"] = Py.Ok ([], ["nets"], 5).
Proof. reflexivity. Qed.

Example parseParams_th_then_t :
  parseParams int_decimal ["-th"; "2"; "-d"; "a"; "-t"; "7"; "-du"]
  = Py.Ok (["a"], [], 7).
Proof. reflexivity. Qed.

Example parseParams_dots :
  parseParams int_decimal ["-d"; ".."]
  = Py.Raise (Py.ValueError "Unexpected argument, file/dir name is expected: ..").
Proof. reflexivity. Qed.

(** C9: whenever [parseParams] of hicbem.py accepts its arguments, the
    timeout it returns is the value given to the last time option, read by
    [int] and multiplied by 1, whatever unit that option names; and the
    same triple is returned when every [-ts], [-tm] and [-th] is replaced
    by [-t]. *)
Theorem parseParams_time_unit_ignored
    (int : string -> Py.res Z) (args udatas wdatas : list string)
    (timeout : Z) :
  parseParams int args = Py.Ok (udatas, wdatas, timeout) ->
  timeout = seconds_of_last_value int args 0 /\
  parseParams int (map drop_unit args) = Py.Ok (udatas, wdatas, timeout).
Proof.
  unfold parseParams. destruct args as [| a args]; [discriminate |].
  destruct (parse_args int locals0 (a :: args)) as [l | e] eqn:E;
    [| discriminate].
  cbn [Py.bind]. intros H. injection H as Hu Hw Ht.
  split.
  - rewrite <- Ht.
    apply (parse_args_timeout int (a :: args) locals0 l); auto.
  - apply parse_args_drop_unit in E.
    change (forget_multiplier locals0) with locals0 in E.
    cbn [map] in *. rewrite E. cbn [Py.bind].
    subst. reflexivity.
Qed.

Lemma parseParams_time_unit_ignored_witness :
  5 = seconds_of_last_value int_decimal ["-dw"; "nets"; "-tm"; "5"] 0 /\
  parseParams int_decimal (map drop_unit ["-dw"; "nets"; "-tm"; "5"])
  = Py.Ok ([], ["nets"], 5).
Proof.
  apply (parseParams_time_unit_ignored int_decimal
           ["-dw"; "nets"; "-tm"; "5"] [] ["nets"] 5).
  reflexivity.
Defined.

(** ** The execution pool *)

Section PoolInvariant.
Import ExecPool.

Lemma admission_capacity (p : Pool) : capacity (admission p) = capacity p.
Proof.
  unfold admission. destruct (pending p); [reflexivity |].
  destruct (List.length (active p) <? capacity p)%nat; reflexivity.
Qed.

Lemma admission_within (p : Pool) : within_capacity p -> within_capacity (admission p).
Proof.
  unfold within_capacity, admission. intros H.
  destruct (pending p) as [| j queue]; [exact H |].
  destruct (List.length (active p) <? capacity p)%nat eqn:E; [| exact H].
  apply Nat.ltb_lt in E. cbn [active capacity].
  rewrite length_app. simpl. lia.
Qed.

Lemma step_capacity (p : Pool) (e : event) :
  capacity (step p e) = capacity p.
Proof.
  destruct e; cbn [step]; try reflexivity.
  - unfold execute. destruct (phase p); try reflexivity.
    rewrite admission_capacity. reflexivity.
  - unfold reap. rewrite admission_capacity. reflexivity.
Qed.

Lemma step_within (p : Pool) (e : event) :
  within_capacity p -> within_capacity (step p e).
Proof.
  intros H. destruct e; cbn [step].
  - unfold execute. destruct (phase p); try exact H.
    apply admission_within. exact H.
  - unfold reap. apply admission_within.
    unfold within_capacity in *. cbn [active capacity].
    pose proof (filter_length_le
                  (fun j => negb (name j =? jobname)%string) (active p)).
    lia.
  - unfold within_capacity. simpl. lia.
  - unfold within_capacity. simpl. lia.
Qed.

Lemma run_within (history : list event) (p : Pool) :
  within_capacity p ->
  within_capacity (fold_left step history p)
  /\ capacity (fold_left step history p) = capacity p.
Proof.
  revert p. induction history as [| e history IH]; intros p H.
  - split; [exact H | reflexivity].
  - cbn [fold_left].
    destruct (IH (step p e) (step_within p e H)) as [IH1 IH2].
    split; [exact IH1 | rewrite IH2; apply step_capacity].
Qed.

(** At no point of a history does the number of active jobs exceed the
    capacity of the pool. *)
Lemma active_within_capacity (workers : nat) (history : list event) :
  (List.length (active (after workers history)) <= workers)%nat.
Proof.
  unfold after.
  destruct (run_within history (ExecPool workers)) as [H1 H2].
  - unfold within_capacity. simpl. lia.
  - unfold within_capacity in H1. rewrite H2 in H1. exact H1.
Qed.

End PoolInvariant.

Example pool_two_slots :
  map ExecPool.name
    (ExecPool.active
       (ExecPool.after 2
          [ExecPool.Execute (ExecPool.mkJob "A" 0 0);
           ExecPool.Execute (ExecPool.mkJob "B" 0 0);
           ExecPool.Execute (ExecPool.mkJob "C" 0 0);
           ExecPool.Reap "A"]))
  = ["B"; "C"].
Proof. reflexivity. Qed.

Example runApps_pool_8_cpus :
  pool_after (Benchmark.runApps_pool 8) Benchmark.start
  = Some (ExecPool.ExecPool 4).
Proof. reflexivity. Qed.

(** C3, as stated, fails: on a machine with 8 processors the pool that
    [runApps] creates has 4 workers, not [max(cpu_count() - 1, 1) = 7]. *)
Lemma runApps_pool_capacity_counterexample :
  ~ (forall (cpu_count : Z) (st : Benchmark.State),
       Benchmark.execpool st = None ->
       pool_after (Benchmark.runApps_pool cpu_count) st
       = Some (ExecPool.ExecPool (Z.to_nat (Z.max (cpu_count - 1) 1)))).
Proof.
  intros H. specialize (H 8 Benchmark.start eq_refl).
  vm_compute in H. discriminate H.
Qed.

(** C3, amended: the pools that [generateNets], [shuffleNets],
    [convertNets] and [evalResults] create have
    [max(cpu_count() - 1, 1)] workers and the pool that [runApps] creates
    has [max(min(4, cpu_count() - 1), 1)]; both numbers are at least 1;
    and in a pool of any capacity the number of active jobs never exceeds
    the capacity, after any history of submissions, exits, joins and
    teardowns and at any point of it. *)
Theorem pool_capacity_bound
    (cpu_count : Z) (st : Benchmark.State) (workers : nat)
    (history : list ExecPool.event) :
  Benchmark.execpool st = None ->
  let usual := Z.to_nat (Z.max (cpu_count - 1) 1) in
  let capped := Z.to_nat (Z.max (Z.min 4 (cpu_count - 1)) 1) in
  (pool_after (Benchmark.generateNets_pool cpu_count) st
     = Some (ExecPool.ExecPool usual) /\
   pool_after (Benchmark.shuffleNets_pool cpu_count) st
     = Some (ExecPool.ExecPool usual) /\
   pool_after (Benchmark.convertNets_pool cpu_count) st
     = Some (ExecPool.ExecPool usual) /\
   pool_after (Benchmark.evalResults_pool cpu_count) st
     = Some (ExecPool.ExecPool usual) /\
   pool_after (Benchmark.runApps_pool cpu_count) st
     = Some (ExecPool.ExecPool capped)) /\
  (1 <= usual)%nat /\ (1 <= capped <= 4)%nat /\
  (forall n : nat,
     List.length
       (ExecPool.active (ExecPool.after workers (firstn n history)))
     <= workers)%nat /\
  (List.length (ExecPool.active (ExecPool.after workers history))
   <= workers)%nat.
Proof.
  intros Hnone usual capped.
  split; [| split; [subst usual; lia | split; [subst capped; lia | split]]].
  - unfold pool_after, Benchmark.generateNets_pool, Benchmark.shuffleNets_pool,
      Benchmark.convertNets_pool, Benchmark.evalResults_pool,
      Benchmark.runApps_pool, Benchmark.ensure_pool.
    rewrite Hnone. cbn. repeat split; reflexivity.
  - intros n. apply active_within_capacity.
  - apply active_within_capacity.
Qed.

Lemma pool_capacity_bound_witness :
  pool_after (Benchmark.runApps_pool 8) Benchmark.start
    = Some (ExecPool.ExecPool 4) /\
  (List.length
     (ExecPool.active
        (ExecPool.after 2
           [ExecPool.Execute (ExecPool.mkJob "A" 0 0);
            ExecPool.Execute (ExecPool.mkJob "B" 0 0);
            ExecPool.Execute (ExecPool.mkJob "C" 0 0)]))
   <= 2)%nat.
Proof.
  destruct (pool_capacity_bound 8 Benchmark.start 2
              [ExecPool.Execute (ExecPool.mkJob "A" 0 0);
               ExecPool.Execute (ExecPool.mkJob "B" 0 0);
               ExecPool.Execute (ExecPool.mkJob "C" 0 0)] eq_refl)
    as [[_ [_ [_ [_ Hrun]]]] [_ [_ [_ Hactive]]]].
  split; [exact Hrun | exact Hactive].
Defined.

(** ** The signal handlers of benchmark.py *)

Example SIGUSR1_leaves_the_pool :
  Benchmark.deliver Benchmark.SIGUSR1
    (Benchmark.mkState (Some (ExecPool.ExecPool 3))
       (Benchmark.handlers (Benchmark.set_handlers Benchmark.start)) [] [])
  = Benchmark.mkState (Some (ExecPool.ExecPool 3))
      (Benchmark.handlers (Benchmark.set_handlers Benchmark.start)) []
      [Benchmark.KilledBy Benchmark.SIGUSR1].
Proof. reflexivity. Qed.

Example SIGINT_without_pool :
  Benchmark.log
    (Benchmark.deliver Benchmark.SIGINT
       (Benchmark.set_handlers Benchmark.start))
  = [Benchmark.Exit 0].
Proof. reflexivity. Qed.

(** C4: once the main block has set its handlers, the delivery of SIGTERM,
    SIGHUP, SIGINT, SIGQUIT or SIGABRT while [_execpool] holds a pool runs
    [terminationHandler]: the pool is deleted, the global is left bound to
    [None], and only then does the process exit, with code 0. *)
Theorem termination_signal_tears_pool_down
    (sig : Benchmark.signum) (st0 : Benchmark.State) (p : ExecPool.Pool)
    (out : list Benchmark.message) (log : list Benchmark.event) :
  In sig handled ->
  let hs := Benchmark.handlers (Benchmark.set_handlers st0) in
  let st' := Benchmark.deliver sig (Benchmark.mkState (Some p) hs out log) in
  hs sig = Benchmark.Handler Benchmark.terminationHandler_fn /\
  st' = Benchmark.mkState None hs out
          (log ++ [Benchmark.Deleted p; Benchmark.Exit 0])%list /\
  Benchmark.execpool st' = None.
Proof.
  intros Hin hs st'.
  assert (Hh : hs sig = Benchmark.Handler Benchmark.terminationHandler_fn).
  { subst hs. unfold handled in Hin. simpl in Hin.
    destruct Hin as [<- | [<- | [<- | [<- | [<- | []]]]]]; reflexivity. }
  split; [exact Hh |].
  assert (Hst : st' = Benchmark.mkState None hs out
                        (log ++ [Benchmark.Deleted p; Benchmark.Exit 0])%list).
  { subst st'. unfold Benchmark.deliver. cbn [Benchmark.handlers].
    rewrite Hh. cbn. unfold Benchmark.record. cbn.
    rewrite <- ?app_assoc. reflexivity. }
  split; [exact Hst | rewrite Hst; reflexivity].
Qed.

Lemma termination_signal_tears_pool_down_witness :
  Benchmark.deliver Benchmark.SIGQUIT
    (Benchmark.mkState (Some (ExecPool.ExecPool 3))
       (Benchmark.handlers (Benchmark.set_handlers Benchmark.start)) [] [])
  = Benchmark.mkState None
      (Benchmark.handlers (Benchmark.set_handlers Benchmark.start)) []
      [Benchmark.Deleted (ExecPool.ExecPool 3); Benchmark.Exit 0].
Proof.
  apply (termination_signal_tears_pool_down Benchmark.SIGQUIT Benchmark.start
           (ExecPool.ExecPool 3) [] []).
  unfold handled. simpl. tauto.
Defined.

(** ** Failures of single algorithms *)

Section Locality.

(** [runApps.execute] calls every function of the tuple, whatever
    [StandardError] some of them raise. *)
Lemma execute_calls_all (algs : list Benchmark.app) (timeout : Q)
    (net : string) (asym : Benchmark.pyval) :
  (forall alg st e st',
     In alg algs ->
     Benchmark.app_call alg net asym timeout st = Benchmark.Exc e st' ->
     Py.isStandardError e = true) ->
  forall (jobsnum : Z) (st : Benchmark.State),
  exists (n : Z) (st' : Benchmark.State),
    Benchmark.execute algs timeout net asym jobsnum st
    = (map Benchmark.app_name algs, Benchmark.Ret n st').
Proof.
  induction algs as [| alg algs IH]; intros Hstd jobsnum st.
  - exists jobsnum, st. reflexivity.
  - cbn [Benchmark.execute map].
    assert (Hrest : forall alg0 st0 e st1,
               In alg0 algs ->
               Benchmark.app_call alg0 net asym timeout st0
               = Benchmark.Exc e st1 ->
               Py.isStandardError e = true).
    { intros alg0 st0 e st1 Hin. apply Hstd. right. exact Hin. }
    destruct (Benchmark.app_call alg net asym timeout st)
      as [n st1 | e st1] eqn:Ecall.
    + destruct (IH Hrest (jobsnum + n) st1) as [n' [st' Hrun]].
      rewrite Hrun. exists n', st'. reflexivity.
    + rewrite (Hstd alg st e st1 (or_introl eq_refl) Ecall).
      destruct (IH Hrest jobsnum
                  (Benchmark.printed
                     (Benchmark.MsgAppInterrupted
                        (Benchmark.app_name alg) e) st1))
        as [n' [st' Hrun]].
      rewrite Hrun. exists n', st'. reflexivity.
Qed.

Variables udatas wdatas : list string.
Variable timeout : Z.

(** The loop of hicbem's [benchmark] over functions that all return. *)
Lemma for_alg_all_return (algs : list alg) :
  (forall b, In b algs ->
     forall w, exists w', alg_call b udatas wdatas timeout w = Returned tt w') ->
  forall w, exists w',
    for_alg algs udatas wdatas timeout w
    = (map alg_name algs, Returned tt w').
Proof.
  induction algs as [| b algs IH]; intros Hret w.
  - exists w. reflexivity.
  - cbn [for_alg map].
    destruct (Hret b (or_introl eq_refl) w) as [w1 Hb]. rewrite Hb.
    destruct (IH (fun c Hc => Hret c (or_intror Hc)) w1) as [w' Hrun].
    rewrite Hrun. exists w'. reflexivity.
Qed.

(** The loop stops at the first function that raises. *)
Lemma for_alg_stops (pre post : list alg) (a : alg) (err : Py.exc) :
  (forall b, In b pre ->
     forall w, exists w', alg_call b udatas wdatas timeout w = Returned tt w') ->
  (forall w, exists w', alg_call a udatas wdatas timeout w = Raised err w') ->
  forall w, exists w',
    for_alg (pre ++ a :: post) udatas wdatas timeout w
    = (map alg_name pre ++ [alg_name a], Raised err w')%list.
Proof.
  induction pre as [| b pre IH]; intros Hret Hraise w.
  - cbn [app for_alg map]. destruct (Hraise w) as [w' Ha]. rewrite Ha.
    exists w'. reflexivity.
  - cbn [app for_alg map].
    destruct (Hret b (or_introl eq_refl) w) as [w1 Hb]. rewrite Hb.
    destruct (IH (fun c Hc => Hret c (or_intror Hc)) Hraise w1)
      as [w' Hrun].
    rewrite Hrun. exists w'. reflexivity.
Qed.

End Locality.

Section SpawnFailures.

Variable popen : list string -> string -> World -> spawn.
Variable rounds : nat.

Hypothesis popen_StandardError :
  forall args workdir w e,
    popen args workdir w = SpawnFails e -> Py.isStandardError e = true.

(** With launch failures that are [StandardError]s, [execAlgorithm]
    called with [trace=True] on non-empty arguments returns or is still
    monitoring; it does not raise. *)
Lemma execAlgorithm_no_raise (algname workdir : string) (args : list string)
    (timeout : Z) (w : World) :
  algname <> "" -> workdir <> "" -> args <> [] ->
  (exists w', execAlgorithm popen rounds algname workdir args timeout true w
              = Returned tt w')
  \/ (exists w', execAlgorithm popen rounds algname workdir args timeout true w
                 = Running w').
Proof.
  intros Ha Hw Hargs. unfold execAlgorithm.
  apply String.eqb_neq in Ha. apply String.eqb_neq in Hw.
  rewrite Ha, Hw. destruct args as [| a args]; [congruence |].
  cbn [orb when].
  unfold bindM, act, ret, try_else, clock, Popen, controlTimeM.
  destruct (popen (a :: args) workdir (print (MsgStarting algname) w))
    as [p | e] eqn:Ep.
  - cbn [fst snd].
    destruct (controlTime rounds p algname
                (now (print (MsgStarting algname) w)) timeout
                (print (MsgStarting algname) w)) as [w1 | w1].
    + left. eexists. reflexivity.
    + right. eexists. reflexivity.
  - rewrite (popen_StandardError _ _ _ _ Ep). left. eexists. reflexivity.
Qed.

End SpawnFailures.

Section HicbemBenchmark.

Variable popen : list string -> string -> World -> spawn.
Variable rounds : nat.
Variable int : string -> Py.res Z.

Hypothesis popen_StandardError :
  forall args workdir w e,
    popen args workdir w = SpawnFails e -> Py.isStandardError e = true.

(** Launch failures do not keep hicbem's [benchmark] from calling its
    four functions: it returns having called them all, unless the rounds
    granted to the monitoring ran out. *)
Lemma benchmark_spawn_failures (args udatas wdatas : list string)
    (timeout : Z) (w : World) :
  parseParams int args = Py.Ok (udatas, wdatas, timeout) ->
  (exists w',
     benchmark popen rounds int args w
     = (map alg_name (algors popen rounds), Returned tt w'))
  \/ (exists called w',
        benchmark popen rounds int args w = (called, Running w')).
Proof.
  intros Hparse. unfold benchmark, benchmark_over. rewrite Hparse.
  unfold algors. cbn [for_alg alg_call alg_name map].
  set (w0 := print (MsgParsed udatas wdatas timeout) w).
  change (execLouvain popen rounds udatas wdatas timeout w0)
    with (execAlgorithm popen rounds "Louvain" "LouvainUpd"
            ["../exectime"; "ls"] timeout true w0).
  destruct (execAlgorithm_no_raise popen rounds popen_StandardError
              "Louvain" "LouvainUpd" ["../exectime"; "ls"] timeout w0)
    as [[w1 H1] | [w1 H1]]; try discriminate; rewrite H1;
    [| right; do 2 eexists; reflexivity].
  change (execHirecs popen rounds udatas wdatas timeout w1)
    with (execAlgorithm popen rounds "HiReCS" "." ["./hirecs"] timeout
            true w1).
  destruct (execAlgorithm_no_raise popen rounds popen_StandardError
              "HiReCS" "." ["./hirecs"] timeout w1)
    as [[w2 H2] | [w2 H2]]; try discriminate; rewrite H2;
    [| right; do 2 eexists; reflexivity].
  left. cbn. eexists. reflexivity.
Qed.

End HicbemBenchmark.

Example benchmark_no_executables :
  benchmark popen_ENOENT 0 int_decimal ["-t"; "5"] (mkWorld 0 [] [])
  = (["execLouvain"; "execHirecs"; "execOslom2"; "execGanxis"],
     Returned tt
       (mkWorld 0 []
          [MsgParsed [] [] 5;
           MsgStarting "Louvain"; MsgSpawnError "Louvain" (Py.OSError 2);
           MsgFinished "Louvain";
           MsgStarting "HiReCS"; MsgSpawnError "HiReCS" (Py.OSError 2);
           MsgFinished "HiReCS";
           MsgCompleted 0 (0, 0, 0)])).
Proof. reflexivity. Qed.

(** ** evalResults *)

Section EvalResultsFacts.
Import Benchmark.

Variable cpu_count : Z.
Variable _extclnodes : string.
Variable dir : list string.
Variable lower : string -> string.
Variable iglob : string -> list string.
Variable splitext : string -> string * string.
Variable func : option string.
Variable evalAlgorithm : string -> pyval -> pyval -> Q -> M unit.

Hypothesis evalAlgorithm_StandardError :
  forall elgname basefile measure timeout st e st',
    evalAlgorithm elgname basefile measure timeout st = Exc e st' ->
    Py.isStandardError e = true.

(** The call with three arguments raises before anything else happens. *)
Lemma eval_datafiles_raises (evalalgs : list string) (timeout : Q)
    (fileext : string) (jobsnum : Z) (datafiles : list (pyval * string))
    (st : State) :
  datafiles <> [] ->
  eval_datafiles splitext evalAlgorithm evalalgs timeout fileext jobsnum
    datafiles st
  = Exc (arity_error 3) st.
Proof.
  destruct datafiles as [| [asym basefile] rest]; [congruence |].
  intros _. reflexivity.
Qed.

(** The call with four arguments returns: what [evalAlgorithm] raises is
    caught inside [evaluate]. *)
Lemma evaluate_returns (evalalgs : list string) (timeout : Q)
    (measure basefile asym : pyval) :
  forall (jobsnum : Z) (st : State),
  exists (n : Z) (st' : State),
    evaluate evalAlgorithm evalalgs timeout
      [measure; basefile; asym; VInt jobsnum] st
    = Ret (VInt n) st'.
Proof.
  unfold evaluate.
  induction evalalgs as [| elgname evalalgs IH]; intros jobsnum st.
  - exists jobsnum, st. reflexivity.
  - cbn [for_each]. unfold bind at 1, try_else at 1.
    unfold bind at 1.
    destruct (evalAlgorithm elgname basefile measure timeout st)
      as [[] st1 | e st1] eqn:E1.
    + unfold when.
      destruct (pyval_eqb measure (VStr "nmi")).
      * destruct (evalAlgorithm elgname basefile (VStr "nmi-s") timeout st1)
          as [[] st2 | e st2] eqn:E2.
        -- cbn [incr ret]. apply IH.
        -- rewrite (evalAlgorithm_StandardError _ _ _ _ _ _ _ E2).
           cbn. apply IH.
      * cbn [ret incr]. apply IH.
    + rewrite (evalAlgorithm_StandardError _ _ _ _ _ _ _ E1).
      cbn. apply IH.
Qed.

Lemma eval_datadirs_returns (evalalgs : list string) (timeout : Q)
    (measure fileext : string) (jobsnum : Z)
    (datadirs : list (pyval * string)) :
  forall st : State,
  exists st' : State,
    eval_datadirs iglob evalAlgorithm evalalgs timeout measure fileext
      jobsnum datadirs st
    = Ret tt st'.
Proof.
  unfold eval_datadirs.
  induction datadirs as [| [asym ddir] datadirs IH]; intros st.
  - exists st. reflexivity.
  - cbn [for_each]. unfold bind at 1.
    assert (Hfiles : forall files st0, exists st1,
               for_each files
                 (fun (basefile : string) (_ : unit) =>
                    bind
                      (evaluate evalAlgorithm evalalgs timeout
                         [VStr measure; VStr basefile; asym; VInt jobsnum])
                      (fun _ => ret tt)) tt st0
               = Ret tt st1).
    { induction files as [| f files IHf]; intros st0.
      - exists st0. reflexivity.
      - cbn [for_each]. unfold bind at 1. unfold bind at 1.
        destruct (evaluate_returns evalalgs timeout (VStr measure) (VStr f)
                    asym jobsnum st0) as [n [st1 Hev]].
        rewrite Hev. cbn [ret]. apply IHf. }
    destruct (Hfiles (iglob (ddir ++ "*" ++ fileext)) st) as [st1 H1].
    rewrite H1. apply IH.
Qed.

(** A selected measure with individually given dataset files ends in the
    [TypeError]. *)
Lemma eval_measure_raises (evalres : Z) (a : string) (algorithms : list string)
    (datadirs datafiles : list (pyval * string)) (timeout : Q)
    (im : Z) (measure fileext title : string) (jobsnum : option Z)
    (st : State) :
  Z.land evalres im = im ->
  datafiles <> [] ->
  exists st',
    eval_measure dir lower iglob splitext func evalAlgorithm evalres
      (Some (a :: algorithms)) datadirs datafiles timeout
      (im, (measure, fileext, title)) jobsnum st
    = Exc (arity_error 3) st'.
Proof.
  intros Hsel Hfiles. unfold eval_measure.
  rewrite Hsel, Z.eqb_refl. cbn [negb evalalgs_of].
  unfold bind at 1. cbn [ret]. unfold bind at 1. cbn [print].
  unfold bind at 1.
  destruct (eval_datadirs_returns (map lower (a :: algorithms)) timeout
              measure fileext 0 datadirs
              (printed (MsgEvalStarting title) st)) as [st1 H1].
  rewrite H1. unfold bind at 1.
  rewrite eval_datafiles_raises by exact Hfiles.
  exists st1. reflexivity.
Qed.

End EvalResultsFacts.

Example evalResults_one_file :
  Benchmark.evalResults 4 ".cnl" ["execHirecs"] (fun s => s) (fun _ => [])
    (fun s => (s, "")) None (fun _ _ _ _ => Benchmark.ret tt)
    3 (Some ["hirecs"]) [] [(Benchmark.VNone, "net")] 0 10 Benchmark.start
  = Benchmark.Exc
      (Py.TypeError "evaluate() takes exactly 4 arguments (3 given)")
      (Benchmark.mkState (Some (ExecPool.ExecPool 3))
         Benchmark.start_handlers [Benchmark.MsgEvalStarting "NMI"] []).
Proof. reflexivity. Qed.

Example evalResults_all_algorithms :
  Benchmark.evalResults 4 ".cnl" ["execHirecs"] (fun s => s) (fun _ => [])
    (fun s => (s, "")) None (fun _ _ _ _ => Benchmark.ret tt)
    3 None [] [(Benchmark.VNone, "net")] 0 10 Benchmark.start
  = Benchmark.Exc (Py.NameError "func")
      (Benchmark.mkState (Some (ExecPool.ExecPool 3))
         Benchmark.start_handlers [] []).
Proof. reflexivity. Qed.

(** C10: the loop of [evalResults] over individually given dataset files
    calls [evaluate] with three arguments, which raises [TypeError] at the
    first file.  So every call of [evalResults] that passes its assertions,
    with algorithms named, a measure selected, an [evalAlgorithm] that
    raises nothing but [StandardError]s and a non-empty [datafiles], ends
    in that [TypeError]. *)
Theorem evalResults_datafiles_TypeError
    (cpu_count : Z) (_extclnodes : string) (dir : list string)
    (lower : string -> string) (iglob : string -> list string)
    (splitext : string -> string * string) (func : option string)
    (evalAlgorithm : string -> Benchmark.pyval -> Benchmark.pyval -> Q
                     -> Benchmark.M unit)
    (evalres : Z) (a : string) (algorithms : list string)
    (datadirs datafiles : list (Benchmark.pyval * string))
    (exectime timeout : Q) (st : Benchmark.State) :
  (forall elgname basefile measure t st0 e st1,
     evalAlgorithm elgname basefile measure t st0 = Benchmark.Exc e st1 ->
     Py.isStandardError e = true) ->
  Benchmark.execpool st = None ->
  Z.land evalres 1 = 1 \/ Z.land evalres 2 = 2 ->
  (0 <= exectime)%Q -> (0 <= timeout)%Q ->
  datafiles <> [] ->
  (forall evalalgs fileext jobsnum st0,
     Benchmark.eval_datafiles splitext evalAlgorithm evalalgs timeout fileext
       jobsnum datafiles st0
     = Benchmark.Exc (Benchmark.arity_error 3) st0)
  /\
  exists st',
    Benchmark.evalResults cpu_count _extclnodes dir lower iglob splitext func
      evalAlgorithm evalres (Some (a :: algorithms)) datadirs datafiles
      exectime timeout st
    = Benchmark.Exc
        (Py.TypeError "evaluate() takes exactly 4 arguments (3 given)") st'.
Proof.
  intros Hstd Hnone Hsel Hexec Htime Hfiles.
  split.
  - intros evalalgs fileext jobsnum st0.
    apply eval_datafiles_raises. exact Hfiles.
  - unfold Benchmark.evalResults.
    assert (Hres : (evalres =? 0) = false).
    { apply Z.eqb_neq. intros ->. destruct Hsel as [H | H]; discriminate H. }
    rewrite Hres.
    apply Qle_bool_iff in Hexec. apply Qle_bool_iff in Htime.
    rewrite Hexec, Htime.
    destruct datafiles as [| d datafiles']; [congruence |].
    replace (match datadirs with
             | [] => false
             | _ :: _ => false
             end) with false by (destruct datadirs; reflexivity).
    cbn [negb andb]. rewrite Hnone.
    unfold Benchmark.bind at 1.
    unfold Benchmark.evalResults_pool, Benchmark.ensure_pool. rewrite Hnone.
    cbn [Benchmark.set_execpool].
    set (st1 := Benchmark.mkState _ _ _ _).
    unfold Benchmark.bind at 1.
    unfold Benchmark.measures. cbn [Benchmark.for_each].
    unfold Benchmark.bind at 1.
    destruct (Z.eq_dec (Z.land evalres 1) 1) as [H1 | H1].
    + destruct (eval_measure_raises dir lower iglob splitext func
                  evalAlgorithm Hstd evalres a algorithms datadirs
                  (d :: datafiles') timeout 1 "nmi" _extclnodes "NMI" None
                  st1 H1 Hfiles) as [st' Hm].
      rewrite Hm. exists st'. reflexivity.
    + destruct Hsel as [H | H2]; [congruence |].
      unfold Benchmark.eval_measure at 1.
      apply Z.eqb_neq in H1. rewrite H1. cbn [negb Benchmark.ret].
      unfold Benchmark.bind at 1.
      destruct (eval_measure_raises dir lower iglob splitext func
                  evalAlgorithm Hstd evalres a algorithms datadirs
                  (d :: datafiles') timeout 2 "mod" ".hig" "Q" None
                  st1 H2 Hfiles) as [st' Hm].
      rewrite Hm. exists st'. reflexivity.
Qed.

Lemma evalResults_datafiles_TypeError_witness :
  exists st',
    Benchmark.evalResults 4 ".cnl" ["execHirecs"] (fun s => s) (fun _ => [])
      (fun s => (s, "")) None (fun _ _ _ _ => Benchmark.ret tt)
      3 (Some ["hirecs"]) [] [(Benchmark.VNone, "net")] 0 10 Benchmark.start
    = Benchmark.Exc
        (Py.TypeError "evaluate() takes exactly 4 arguments (3 given)") st'.
Proof.
  apply (evalResults_datafiles_TypeError 4 ".cnl" ["execHirecs"]
           (fun s => s) (fun _ => []) (fun s => (s, "")) None
           (fun _ _ _ _ => Benchmark.ret tt)
           3 "hirecs" [] [] [(Benchmark.VNone, "net")] 0 10 Benchmark.start).
  - intros elgname basefile measure t st0 e st1 H. discriminate H.
  - reflexivity.
  - left. reflexivity.
  - discriminate.
  - discriminate.
  - discriminate.
Defined.

(** * Further properties *)

(** ** The arguments hicbem's parseParams accepts *)

Section ParseParamsLanguage.

Variable int : string -> Py.res Z.

Ltac split_on_chars :=
  repeat match goal with
  | |- context [ascii_dec ?a ?b] =>
      destruct (ascii_dec a b); [subst |]; cbn
  end.

Ltac pick_option := repeat first [left; reflexivity | right].

Ltac close_option :=
  cbn;
  let H := fresh "H" in
  intros H;
  first
    [ discriminate H
    | injection H as <-; cbn; left;
      repeat split; try reflexivity; try discriminate; pick_option ].

Ltac refuse_long_option :=
  rewrite parse_arg_option by reflexivity;
  let H := fresh "H" in
  intros H; exfalso; exact (option_arg_long _ _ _ _ _ _ H).

(** What one round of the loop does to the locals. *)
Lemma parse_arg_effect (l : locals) (arg : string) (l' : locals) :
  parse_arg int l arg = Py.Ok l' ->
  (dashed arg = true /\ sparam l = SpFalse /\ In arg options /\
   udatas l' = udatas l /\ wdatas l' = wdatas l /\
   sparam l' = (if time_option arg then SpT else SpD) /\
   (time_option arg = false -> weighted l' = weighted_option arg))
  \/
  (dashed arg = false /\ sparam l <> SpFalse /\ arg <> "." /\ arg <> ".." /\
   sparam l' = SpFalse /\
   udatas l' = (if match sparam l with SpD => negb (weighted l) | _ => false end
                then udatas l ++ [arg] else udatas l)%list /\
   wdatas l' = (if match sparam l with SpD => weighted l | _ => false end
                then wdatas l ++ [arg] else wdatas l)%list).
Proof.
  destruct arg as [| c0 rest]; [discriminate |].
  destruct l as [u w t sp wt tm mu].
  destruct (Ascii.eqb c0 "-") eqn:E0.
  - apply Ascii.eqb_eq in E0. subst c0.
    destruct sp; [| discriminate | discriminate].
    destruct rest as [| c1 rest]; [discriminate |].
    destruct (Ascii.eqb_spec c1 "d") as [-> | Hd];
      [| destruct (Ascii.eqb_spec c1 "f") as [-> | Hf];
         [| destruct (Ascii.eqb_spec c1 "t") as [-> | Ht]]].
    + destruct rest as [| c2 [| c3 rest]].
      * close_option.
      * cbn. split_on_chars; close_option.
      * refuse_long_option.
    + destruct rest as [| c2 [| c3 rest]].
      * close_option.
      * cbn. split_on_chars; close_option.
      * refuse_long_option.
    + destruct rest as [| c2 [| c3 rest]].
      * close_option.
      * cbn. split_on_chars; close_option.
      * refuse_long_option.
    + rewrite parse_arg_option by reflexivity.
      unfold option_arg. cbn [item String.get Py.bind].
      apply Ascii.eqb_neq in Hd, Hf, Ht. rewrite Hd, Hf, Ht.
      discriminate.
  - assert (Hdash : dashed (String c0 rest) = false).
    { cbn. destruct (Ascii.eqb_spec c0 "-"); [discriminate |].
      destruct c0 as [[] [] [] [] [] [] [] []]; try reflexivity.
      congruence. }
    unfold parse_arg. cbn [item String.get Py.bind]. rewrite E0.
    cbn [negb sparam truthy].
    destruct sp; cbn [truthy Bool.eqb negb orb]; [discriminate | |];
      destruct (str_in (String c0 rest) "..") eqn:Edots; try discriminate;
      unfold value_arg; cbn [sparam weighted Py.bind].
    + destruct wt; cbn; intros H; injection H as <-; cbn; right;
        (repeat split; try discriminate; try reflexivity; try exact Hdash;
         intros Habs; rewrite Habs in Edots; discriminate Edots).
    + destruct (int (String c0 rest)) as [n | e] eqn:En; cbn;
        intros H; [| discriminate H].
      injection H as <-. cbn. right.
      repeat split; try discriminate; try reflexivity; try exact Hdash;
        intros Habs; rewrite Habs in Edots; discriminate Edots.
Qed.

Lemma parse_args_language (args : list string) :
  forall l l' : locals,
    parse_args int l args = Py.Ok l' ->
    alternates (negb (truthy (sparam l))) args = true
    /\ Forall well_formed_arg args.
Proof.
  induction args as [| a args IH]; intros l l' H.
  - split; [reflexivity | constructor].
  - cbn [parse_args] in H.
    destruct (parse_arg int l a) as [l1 | e] eqn:E1; [| discriminate H].
    cbn [Py.bind] in H. destruct (IH l1 l' H) as [Halt Hwf].
    apply parse_arg_effect in E1.
    destruct E1 as [[Hd [Hsp [Hin [_ [_ [Hsp1 _]]]]]]
                   | [Hd [Hsp [Hdot [Hdots [Hsp1 _]]]]]].
    + split.
      * cbn [alternates]. rewrite Hd, Hsp. cbn.
        rewrite Hsp1 in Halt. destruct (time_option a); exact Halt.
      * constructor; [| exact Hwf].
        unfold well_formed_arg. rewrite Hd. exact Hin.
    + split.
      * cbn [alternates]. rewrite Hd.
        rewrite Hsp1 in Halt.
        destruct (sparam l); [congruence | exact Halt | exact Halt].
      * constructor; [| exact Hwf].
        unfold well_formed_arg. rewrite Hd. split; assumption.
Qed.

Lemma parse_args_datasets (args : list string) :
  forall l l' : locals,
    sparam l = SpFalse ->
    parse_args int l args = Py.Ok l' ->
    udatas l' = (udatas l ++ datasets false args)%list
    /\ wdatas l' = (wdatas l ++ datasets true args)%list.
Proof.
  induction args as [| a | a b rest IH] using pair_ind; intros l l' Hsp H.
  - injection H as <-. cbn. rewrite !app_nil_r. split; reflexivity.
  - cbn [parse_args] in H.
    destruct (parse_arg int l a) as [l1 | e] eqn:E1; [| discriminate H].
    cbn [Py.bind] in H. injection H as <-.
    apply parse_arg_effect in E1.
    destruct E1 as [[_ [_ [_ [Hu [Hw _]]]]] | [_ [Hne _]]]; [| congruence].
    cbn. rewrite !app_nil_r. split; assumption.
  - cbn [parse_args] in H.
    destruct (parse_arg int l a) as [l1 | e] eqn:E1; [| discriminate H].
    cbn [Py.bind] in H.
    destruct (parse_arg int l1 b) as [l2 | e] eqn:E2; [| discriminate H].
    cbn [Py.bind] in H.
    apply parse_arg_effect in E1. apply parse_arg_effect in E2.
    destruct E1 as [[_ [_ [_ [Hu1 [Hw1 [Hsp1 Hwt1]]]]]] | [_ [Hne _]]];
      [| congruence].
    destruct E2 as [[_ [Hsp1' _]] | [_ [_ [_ [_ [Hsp2 [Hu2 Hw2]]]]]]].
    { rewrite Hsp1 in Hsp1'. destruct (time_option a); discriminate. }
    destruct (IH l2 l' Hsp2 H) as [IHu IHw].
    rewrite IHu, IHw, Hu2, Hw2, Hu1, Hw1, Hsp1.
    cbn [datasets].
    destruct (time_option a) eqn:Ea; cbn [negb andb].
    + split; reflexivity.
    + rewrite (Hwt1 eq_refl).
      destruct (weighted_option a); cbn [negb Bool.eqb];
        rewrite <- ?app_assoc; split; reflexivity.
Qed.

End ParseParamsLanguage.

Example parseParams_option_after_option :
  parseParams int_decimal ["-d"; "-t"; "5"]
  = Py.Raise (Py.ValueError "Unexpected argument, file/dir name is expected: -t").
Proof. reflexivity. Qed.

Example parseParams_trailing_option :
  parseParams int_decimal ["-fw"; "a.net"; "-th"] = Py.Ok ([], ["a.net"], 0).
Proof. reflexivity. Qed.

(** X1: the argument lists that [parseParams] of hicbem.py accepts start
    with an option and then alternate values and options; every option is
    one of the ten spellings [-d], [-du], [-dw], [-f], [-fu], [-fw], [-t],
    [-ts], [-tm], [-th], and no value is ["."] or [".."]. *)
Theorem parseParams_accepts_alternating
    (int : string -> Py.res Z) (args udatas wdatas : list string)
    (timeout : Z) :
  parseParams int args = Py.Ok (udatas, wdatas, timeout) ->
  args <> [] /\ alternates true args = true /\ Forall well_formed_arg args.
Proof.
  unfold parseParams. destruct args as [| a args]; [discriminate |].
  destruct (parse_args int locals0 (a :: args)) as [l | e] eqn:E;
    [| discriminate].
  intros _. split; [discriminate |].
  apply (parse_args_language int (a :: args) locals0 l E).
Qed.

Lemma parseParams_accepts_alternating_witness :
  alternates true ["-fw"; "a.net"; "-th"] = true.
Proof.
  apply (parseParams_accepts_alternating int_decimal
           ["-fw"; "a.net"; "-th"] [] ["a.net"] 0).
  reflexivity.
Defined.

(** X2: when [parseParams] of hicbem.py accepts its arguments, [udatas]
    holds the values given to [-d], [-du], [-f] and [-fu] and [wdatas]
    those given to [-dw] and [-fw], each in the order of the arguments. *)
Theorem parseParams_datasets
    (int : string -> Py.res Z) (args udatas wdatas : list string)
    (timeout : Z) :
  parseParams int args = Py.Ok (udatas, wdatas, timeout) ->
  udatas = datasets false args /\ wdatas = datasets true args.
Proof.
  unfold parseParams. destruct args as [| a args]; [discriminate |].
  destruct (parse_args int locals0 (a :: args)) as [l | e] eqn:E;
    [| discriminate].
  cbn [Py.bind]. intros H. injection H as Hu Hw _.
  destruct (parse_args_datasets int (a :: args) locals0 l eq_refl E)
    as [Hu' Hw'].
  cbn [Hicbem.udatas Hicbem.wdatas locals0 app] in Hu', Hw'.
  split; congruence.
Qed.

Lemma parseParams_datasets_witness :
  ["b"; "c"] = datasets false ["-dw"; "a"; "-f"; "b"; "-t"; "9"; "-du"; "c"]
  /\ ["a"] = datasets true ["-dw"; "a"; "-f"; "b"; "-t"; "9"; "-du"; "c"].
Proof.
  apply (parseParams_datasets int_decimal
           ["-dw"; "a"; "-f"; "b"; "-t"; "9"; "-du"; "c"] ["b"; "c"] ["a"] 9).
  reflexivity.
Defined.

Section ParseParamsAcceptance.

Variable int : string -> Py.res Z.

Lemma str_in_dots (s : string) :
  str_in s ".." = true -> s = "" \/ s = "." \/ s = "..".
Proof.
  destruct s as [| c [| c' [| c'' s]]]; cbn.
  - auto.
  - destruct (ascii_dec c "."); [subst; auto | discriminate].
  - destruct (ascii_dec c "."); [subst | discriminate].
    destruct (ascii_dec c' "."); [subst; auto | discriminate].
  - destruct (ascii_dec c "."); [subst | discriminate].
    destruct (ascii_dec c' "."); [subst | discriminate]. discriminate.
Qed.

Lemma parse_arg_accepts_option (l : locals) (arg : string) :
  sparam l = SpFalse -> In arg options ->
  exists l',
    parse_arg int l arg = Py.Ok l'
    /\ sparam l' = (if time_option arg then SpT else SpD).
Proof.
  intros Hsp Hin. destruct l as [u w t sp wt tm mu]. cbn in Hsp. subst sp.
  unfold options in Hin. cbn [In] in Hin.
  repeat (destruct Hin as [<- | Hin]; [eexists; split; reflexivity |]).
  destruct Hin.
Qed.

Lemma parse_arg_accepts_value (l : locals) (arg : string) :
  sparam l <> SpFalse ->
  dashed arg = false -> arg <> "" -> arg <> "." -> arg <> ".." ->
  (sparam l = SpT -> exists n, int arg = Py.Ok n) ->
  exists l', parse_arg int l arg = Py.Ok l' /\ sparam l' = SpFalse.
Proof.
  intros Hsp Hd Hne Hdot Hdots Hint.
  destruct arg as [| c0 rest]; [congruence |].
  assert (E0 : Ascii.eqb c0 "-" = false).
  { destruct (Ascii.eqb_spec c0 "-") as [-> | Hc]; [discriminate Hd |].
    reflexivity. }
  assert (Edots : str_in (String c0 rest) ".." = false).
  { destruct (str_in (String c0 rest) "..") eqn:E; [| reflexivity].
    apply str_in_dots in E. destruct E as [E | [E | E]]; congruence. }
  unfold parse_arg. cbn [item String.get Py.bind]. rewrite E0, Edots.
  destruct l as [u w t sp wt tm mu]. cbn [sparam] in *.
  destruct sp; [congruence | |]; cbn [truthy negb Bool.eqb orb];
    unfold value_arg; cbn [sparam weighted Py.bind].
  - destruct wt; eexists; split; reflexivity.
  - destruct (Hint eq_refl) as [n Hn]. rewrite Hn.
    eexists; split; reflexivity.
Qed.

Lemma parse_args_accepts (args : list string) :
  forall l : locals,
    sparam l = SpFalse ->
    alternates true args = true ->
    Forall well_formed_arg args ->
    Forall (fun a => a <> "") args ->
    time_values_readable int args = true ->
    exists l', parse_args int l args = Py.Ok l'.
Proof.
  induction args as [| a | a b rest IH] using pair_ind;
    intros l Hsp Halt Hwf Hne Hread.
  - exists l. reflexivity.
  - cbn in Halt. rewrite andb_true_r in Halt. apply Bool.eqb_prop in Halt.
    inversion Hwf as [| ? ? Hwa _]; subst.
    unfold well_formed_arg in Hwa. rewrite Halt in Hwa.
    destruct (parse_arg_accepts_option l a Hsp Hwa) as [l1 [H1 _]].
    cbn [parse_args]. rewrite H1. exists l1. reflexivity.
  - cbn [alternates negb] in Halt.
    apply andb_true_iff in Halt. destruct Halt as [Ha Halt].
    apply andb_true_iff in Halt. destruct Halt as [Hb Halt].
    apply Bool.eqb_prop in Ha. apply Bool.eqb_prop in Hb.
    inversion Hwf as [| ? ? Hwa Hwf1]; subst.
    inversion Hwf1 as [| ? ? Hwb Hwf2]; subst.
    inversion Hne as [| ? ? _ Hne1]; subst.
    inversion Hne1 as [| ? ? Hnb Hne2]; subst.
    unfold well_formed_arg in Hwa, Hwb. rewrite Ha in Hwa. rewrite Hb in Hwb.
    cbn [time_values_readable] in Hread.
    apply andb_true_iff in Hread. destruct Hread as [Hrb Hread].
    destruct (parse_arg_accepts_option l a Hsp Hwa) as [l1 [H1 Hsp1]].
    destruct (parse_arg_accepts_value l1 b) as [l2 [H2 Hsp2]];
      try tauto.
    + rewrite Hsp1. destruct (time_option a); discriminate.
    + rewrite Hsp1. destruct (time_option a); [| discriminate].
      intros _. destruct (int b) as [n | e]; [eauto | discriminate].
    + destruct (IH l2 Hsp2 Halt Hwf2 Hne2 Hread) as [l' H'].
      cbn [parse_args]. rewrite H1. cbn [Py.bind]. rewrite H2.
      cbn [Py.bind]. exists l'. exact H'.
Qed.

End ParseParamsAcceptance.

(** X3: [parseParams] of hicbem.py accepts every non-empty argument list
    in which options and values alternate, starting with an option, every
    option is one of the ten spellings, every value is non-empty, neither
    ["."] nor [".."], and every value of a time option is read by [int]. *)
Theorem parseParams_accepts_well_formed
    (int : string -> Py.res Z) (args : list string) :
  args <> [] ->
  alternates true args = true ->
  Forall well_formed_arg args ->
  Forall (fun a => a <> "") args ->
  time_values_readable int args = true ->
  exists udatas wdatas timeout,
    parseParams int args = Py.Ok (udatas, wdatas, timeout).
Proof.
  intros Hne Halt Hwf Hnonempty Hread.
  destruct (parse_args_accepts int args locals0 eq_refl Halt Hwf Hnonempty
              Hread) as [l Hl].
  unfold parseParams. destruct args as [| a args]; [congruence |].
  rewrite Hl. cbn [Py.bind]. eauto.
Qed.

Lemma parseParams_accepts_well_formed_witness :
  exists udatas wdatas timeout,
    parseParams int_decimal ["-du"; "nets"; "-tm"; "15"]
    = Py.Ok (udatas, wdatas, timeout).
Proof.
  apply (parseParams_accepts_well_formed int_decimal
           ["-du"; "nets"; "-tm"; "15"]).
  - discriminate.
  - reflexivity.
  - repeat apply Forall_cons; try apply Forall_nil;
      unfold well_formed_arg; cbn;
      first [split; discriminate | repeat first [left; reflexivity | right]].
  - repeat apply Forall_cons; try apply Forall_nil; discriminate.
  - reflexivity.
Defined.

(** ** More on controlTime and execAlgorithm *)

Section Monitor.

Variable p : Proc.
Variable algname : string.

(** Whatever the timeout, the monitoring loop is left only when a poll has
    seen the child exited. *)
Lemma controlTime_done_exited (rounds : nat) :
  forall (exectime timeout : Z) (w w' : World),
    controlTime rounds p algname exectime timeout w = Done w' ->
    poll_is_None p w' = false.
Proof.
  induction rounds as [| rounds IH]; intros exectime timeout w w' H.
  - cbn [controlTime] in H. destruct (poll_is_None p w) eqn:E.
    + discriminate H.
    + injection H as <-. exact E.
  - cbn [controlTime] in H. destruct (poll_is_None p w) eqn:E.
    + cbv zeta in H.
      destruct (negb (timeout =? 0)
                && (now (sleep1 w) - exectime >? timeout));
        apply IH in H; exact H.
    + injection H as <-. exact E.
Qed.

(** The signals of the monitoring loop go to the monitored child only, and
    time does not run backwards. *)
Lemma controlTime_signals_own_child (rounds : nat) :
  forall (exectime timeout : Z) (w : World),
    let w' := world_of (controlTime rounds p algname exectime timeout w) in
    now w <= now w' /\
    exists l : list (nat * signal * Z),
      sent w' = (sent w ++ l)%list /\
      Forall (fun s => fst (fst s) = pid p /\ now w <= snd s) l.
Proof.
  induction rounds as [| rounds IH]; intros exectime timeout w.
  - cbn [controlTime]. destruct (poll_is_None p w); cbn;
      (split; [lia | exists []; rewrite app_nil_r; split; [reflexivity | constructor]]).
  - cbn [controlTime]. destruct (poll_is_None p w).
    + cbv zeta.
      destruct (negb (timeout =? 0)
                && (now (sleep1 w) - exectime >? timeout)).
      * specialize (IH (now (sleep1 w) - exectime) timeout
                      (on_timeout p algname timeout
                         (now (sleep1 w) - exectime) (sleep1 w))).
        cbv zeta in IH. destruct IH as [Hnow [l [Hl Hall]]].
        pose proof (on_timeout_exited p algname timeout
                      (now (sleep1 w) - exectime) (sleep1 w)) as [_ Ht].
        change (now (sleep1 w)) with (now w + 1) in *.
        split; [lia |].
        rewrite on_timeout_sent in Hl.
        change (sent (sleep1 w)) with (sent w) in Hl.
        change (now (sleep1 w)) with (now w + 1) in Hl.
        rewrite <- app_assoc in Hl.
        eexists. split; [exact Hl |].
        apply Forall_app. split.
        -- constructor; [cbn; split; [reflexivity | lia] |].
           destruct (poll_is_None p (later 10 (terminate p (sleep1 w))));
             [| constructor].
           constructor; [cbn; split; [reflexivity | lia] | constructor].
        -- eapply Forall_impl; [| exact Hall].
           cbv beta. intros s [Hs1 Hs2]. split; [exact Hs1 | lia].
      * specialize (IH exectime timeout (sleep1 w)).
        cbv zeta in IH. destruct IH as [Hnow [l [Hl Hall]]].
        change (now (sleep1 w)) with (now w + 1) in *.
        change (sent (sleep1 w)) with (sent w) in Hl.
        split; [lia |]. exists l. split; [exact Hl |].
        eapply Forall_impl; [| exact Hall].
        cbv beta. intros s [Hs1 Hs2]. split; [exact Hs1 | lia].
    + cbn. split; [lia |]. exists []. rewrite app_nil_r.
      split; [reflexivity | constructor].
Qed.

End Monitor.

Section LateExit.

Variable p : Proc.
Variable algname : string.

Lemma exited_send (s : signal) (w : World) :
  exited p w = true -> exited p (send p s w) = true.
Proof.
  unfold exited, send. cbn [now sent]. rewrite existsb_app.
  intros H. apply orb_true_iff in H. destruct H as [H | H].
  - rewrite H. reflexivity.
  - rewrite H. cbn. rewrite orb_true_r. reflexivity.
Qed.

(** The timeout branch on a child that has already exited: SIGTERM is
    sent all the same, the grace loop is not entered and no SIGKILL
    follows. *)
Lemma on_timeout_after_exit (timeout elapsed : Z) (w : World) :
  poll_is_None p w = false ->
  on_timeout p algname timeout elapsed w
  = print (MsgTimeout algname timeout elapsed (secondsToHms elapsed))
      (terminate p w).
Proof.
  intros Hdead. unfold poll_is_None in Hdead.
  apply negb_false_iff in Hdead.
  pose proof (exited_send SIGTERM w Hdead) as Hterm.
  cbv beta zeta delta [on_timeout].
  assert (Hpoll : poll_is_None p (terminate p w) = false).
  { unfold poll_is_None, terminate. rewrite Hterm. reflexivity. }
  cbn [grace_wait]. rewrite Hpoll. rewrite Hpoll. reflexivity.
Qed.

End LateExit.

Example controlTime_late_exit :
  controlTime 4 (mkProc 7 (Some 103) None) "Louvain" 100 2 (mkWorld 100 [] [])
  = Done (mkWorld 103 [(7%nat, SIGTERM, 103)]
            [MsgTimeout "Louvain" 2 3 (0, 0, 3)]).
Proof. vm_compute. reflexivity. Qed.

(** X4: for every timeout, [controlTime] returns only when a poll has seen
    the child exited: it never leaves a running child behind. *)
Theorem controlTime_returns_after_exit
    (rounds : nat) (p : Proc) (algname : string) (exectime timeout : Z)
    (w w' : World) :
  controlTime rounds p algname exectime timeout w = Done w' ->
  poll_is_None p w' = false.
Proof. apply controlTime_done_exited. Qed.

Lemma controlTime_returns_after_exit_witness :
  poll_is_None (mkProc 7 None (Some 4))
    (mkWorld 107 [(7%nat, SIGTERM, 103)] [MsgTimeout "Louvain" 2 3 (0, 0, 3)])
  = false.
Proof.
  apply (controlTime_returns_after_exit 4 (mkProc 7 None (Some 4)) "Louvain"
           100 2 (mkWorld 100 [] [])).
  vm_compute. reflexivity.
Defined.

(** X5: whatever the timeout and however long it runs, [controlTime]
    sends signals to the monitored child only, none dated before the
    monitoring began, and the clock does not run backwards. *)
Theorem controlTime_signals_only_its_child
    (rounds : nat) (p : Proc) (algname : string) (exectime timeout : Z)
    (w : World) :
  let w' := world_of (controlTime rounds p algname exectime timeout w) in
  now w <= now w' /\
  exists l : list (nat * signal * Z),
    sent w' = (sent w ++ l)%list /\
    Forall (fun s => fst (fst s) = pid p /\ now w <= snd s) l.
Proof. apply controlTime_signals_own_child. Qed.

(** X7: a negative timeout is true in [if timeout and ...] and is exceeded
    at once: a child alive at the first poll gets SIGTERM after the first
    second, whatever time it would have needed. *)
Theorem controlTime_negative_timeout
    (rounds : nat) (p : Proc) (algname : string) (timeout : Z) (w : World) :
  timeout < 0 ->
  poll_is_None p w = true ->
  exists w' : World,
    controlTime (S rounds) p algname (now w) timeout w = Done w' /\
    w' = on_timeout p algname timeout 1 (sleep1 w) /\
    In (pid p, SIGTERM, now w + 1) (sent w').
Proof.
  intros Hneg Halive.
  exists (on_timeout p algname timeout 1 (sleep1 w)).
  split; [| split; [reflexivity |]].
  - rewrite controlTime_fires; [| lia | exact Halive | lia].
    replace (now w + 1 - now w) with 1 by lia. reflexivity.
  - rewrite on_timeout_sent. apply in_or_app. right. left. reflexivity.
Qed.

Lemma controlTime_negative_timeout_witness :
  exists w' : World,
    controlTime 1 (mkProc 7 (Some 1000) (Some 0)) "HiReCS" 5 (-3)
      (mkWorld 5 [] [])
    = Done w' /\
    w' = on_timeout (mkProc 7 (Some 1000) (Some 0)) "HiReCS" (-3) 1
           (sleep1 (mkWorld 5 [] [])) /\
    In (7%nat, SIGTERM, 5 + 1) (sent w').
Proof.
  apply (controlTime_negative_timeout 0 (mkProc 7 (Some 1000) (Some 0))
           "HiReCS" (-3) (mkWorld 5 [] [])); [lia | reflexivity].
Defined.

Section ExecAlgorithmFacts.

Variable popen : list string -> string -> World -> spawn.
Variable rounds : nat.

(** What [execAlgorithm] does once its assertion holds, by the outcome of
    the spawn. *)
Lemma execAlgorithm_cases (algname workdir : string) (args : list string)
    (timeout : Z) (trace : bool) (w : World) :
  algname <> "" -> workdir <> "" -> args <> [] ->
  let w1 := if trace then print (MsgStarting algname) w else w in
  execAlgorithm popen rounds algname workdir args timeout trace w
  = match popen args workdir w1 with
    | Spawned p =>
        match controlTime rounds p algname (now w1) timeout w1 with
        | Done w2 =>
            Returned tt
              (if trace then print (MsgFinished algname) w2 else w2)
        | Looping w2 => Running w2
        end
    | SpawnFails e =>
        if Py.isStandardError e then
          let w2 := print (MsgSpawnError algname e) w1 in
          Returned tt (if trace then print (MsgFinished algname) w2 else w2)
        else Raised e w1
    end.
Proof.
  intros Ha Hw Hargs w1. unfold execAlgorithm.
  apply String.eqb_neq in Ha. apply String.eqb_neq in Hw.
  rewrite Ha, Hw. destruct args as [| a args]; [congruence |].
  cbn [orb].
  destruct trace; cbn [when];
    unfold bindM, act, ret, try_else, clock, Popen, controlTimeM;
    subst w1; cbv beta iota zeta.
  - destruct (popen (a :: args) workdir (print (MsgStarting algname) w))
      as [p | e].
    + cbn [fst snd].
      destruct (controlTime rounds p algname
                  (now (print (MsgStarting algname) w)) timeout
                  (print (MsgStarting algname) w)); reflexivity.
    + destruct (Py.isStandardError e); reflexivity.
  - destruct (popen (a :: args) workdir w) as [p | e].
    + cbn [fst snd].
      destruct (controlTime rounds p algname (now w) timeout w); reflexivity.
    + destruct (Py.isStandardError e); reflexivity.
Qed.

End ExecAlgorithmFacts.

Example execAlgorithm_monitors_the_child :
  execAlgorithm (fun _ _ _ => Spawned (mkProc 7 (Some 12) None)) 10
    "HiReCS" "." ["./hirecs"] 5 true (mkWorld 10 [] [])
  = Returned tt
      (mkWorld 12 [] [MsgStarting "HiReCS"; MsgFinished "HiReCS"]).
Proof. vm_compute. reflexivity. Qed.

(** X8: when [execAlgorithm] has spawned a child and returns, a poll has
    seen that child exited, whatever the timeout: the function does not
    return while its child runs. *)
Theorem execAlgorithm_returns_after_child
    (popen : list string -> string -> World -> spawn) (rounds : nat)
    (algname workdir : string) (args : list string) (timeout : Z)
    (trace : bool) (w w' : World) (p : Proc) :
  algname <> "" -> workdir <> "" -> args <> [] ->
  popen args workdir (if trace then print (MsgStarting algname) w else w)
    = Spawned p ->
  execAlgorithm popen rounds algname workdir args timeout trace w
    = Returned tt w' ->
  poll_is_None p w' = false.
Proof.
  intros Ha Hw Hargs Hspawn Hrun.
  rewrite (execAlgorithm_cases popen rounds algname workdir args timeout
             trace w Ha Hw Hargs) in Hrun.
  cbv zeta in Hrun. rewrite Hspawn in Hrun.
  destruct (controlTime rounds p algname
              (now (if trace then print (MsgStarting algname) w else w))
              timeout (if trace then print (MsgStarting algname) w else w))
    as [w2 | w2] eqn:Ect; [| discriminate Hrun].
  apply controlTime_done_exited in Ect.
  injection Hrun as <-. destruct trace; exact Ect.
Qed.

Lemma execAlgorithm_returns_after_child_witness :
  poll_is_None (mkProc 7 (Some 12) None)
    (mkWorld 12 [] [MsgStarting "HiReCS"; MsgFinished "HiReCS"])
  = false.
Proof.
  apply (execAlgorithm_returns_after_child
           (fun _ _ _ => Spawned (mkProc 7 (Some 12) None)) 10
           "HiReCS" "." ["./hirecs"] 5 true (mkWorld 10 [] []));
    try discriminate; reflexivity.
Defined.

(** X10: hicbem's [benchmark] lets an exception out in two cases only:
    [parseParams] refused the arguments, and then no algorithm function was
    called and nothing printed, or an algorithm function raised something
    that is not a [StandardError]. *)
Theorem benchmark_raises_only
    (int : string -> Py.res Z) (algs : list alg) (args : list string)
    (w w' : World) (called : list string) (e : Py.exc) :
  benchmark_over int algs args w = (called, Raised e w') ->
  (parseParams int args = Py.Raise e /\ called = [] /\ w' = w)
  \/ Py.isStandardError e = false.
Proof.
  unfold benchmark_over.
  destruct (parseParams int args) as [[[udatas wdatas] timeout] | e0].
  - destruct (for_alg algs udatas wdatas timeout
                (print (MsgParsed udatas wdatas timeout) w))
      as [called0 [[] w0 | e0 w0 | w0]]; try discriminate.
    destruct (Py.isStandardError e0) eqn:Estd; [discriminate |].
    intros H. injection H as _ <- _. right. exact Estd.
  - intros H. injection H as <- <- <-. left. auto.
Qed.

Lemma benchmark_raises_only_witness :
  (parseParams int_decimal ["-x"]
   = Py.Raise (Py.ValueError "Unexpected argument: -x")
   /\ @nil string = [] /\ mkWorld 0 [] [] = mkWorld 0 [] [])
  \/ Py.isStandardError (Py.ValueError "Unexpected argument: -x") = false.
Proof.
  apply (benchmark_raises_only int_decimal (algors popen_ENOENT 0) ["-x"]
           (mkWorld 0 [] []) (mkWorld 0 [] []) []
           (Py.ValueError "Unexpected argument: -x")).
  reflexivity.
Defined.


(** ** The job count of runApps *)

Section JobCount.

Variable iglob : string -> list string.
Variable timeout : Q.

(** [execute] returns at least the count it was given. *)
Lemma execute_count (algs : list Benchmark.app) (net : string)
    (asym : Benchmark.pyval) :
  Forall (behaves timeout) algs ->
  forall (jobsnum : Z) (st : Benchmark.State),
  exists (n : Z) (st' : Benchmark.State),
    Benchmark.execute algs timeout net asym jobsnum st
    = (map Benchmark.app_name algs, Benchmark.Ret n st')
    /\ jobsnum <= n.
Proof.
  induction 1 as [| alg rest Halg Hrest IH]; intros jobsnum st.
  - exists jobsnum, st. split; [reflexivity | lia].
  - cbn [Benchmark.execute map].
    specialize (Halg net asym st).
    destruct (Benchmark.app_call alg net asym timeout st)
      as [n st1 | e st1].
    + destruct (IH (jobsnum + n) st1) as [n' [st' [Hrun Hle]]].
      rewrite Hrun. exists n', st'. split; [reflexivity | lia].
    + rewrite Halg.
      destruct (IH jobsnum
                  (Benchmark.printed
                     (Benchmark.MsgAppInterrupted
                        (Benchmark.app_name alg) e) st1))
        as [n' [st' [Hrun Hle]]].
      rewrite Hrun. exists n', st'. split; [reflexivity | lia].
Qed.

Variable algs : list Benchmark.app.
Hypothesis algs_behave : Forall (behaves timeout) algs.

(** One network at least doubles [jobsnum] and is counted. *)
Lemma run_net_doubles (asym : Benchmark.pyval) (net : string)
    (jobsnum netcount : Z) (st : Benchmark.State) :
  1 <= jobsnum ->
  exists (jobsnum' : Z) (st' : Benchmark.State),
    Benchmark.run_net algs timeout asym net (jobsnum, netcount) st
    = Benchmark.Ret (jobsnum', netcount + 1) st'
    /\ 2 * jobsnum <= jobsnum'.
Proof.
  intros Hj. unfold Benchmark.run_net.
  destruct (execute_count algs net asym algs_behave jobsnum st) as [n [st' [Hrun Hle]]].
  rewrite Hrun. cbn [snd].
  assert (Hn : (n =? 0) = false) by (apply Z.eqb_neq; lia).
  rewrite Hn. exists (jobsnum + n), st'. split; [reflexivity | lia].
Qed.

Lemma nets_loop_doubles (asym : Benchmark.pyval) (nets : list string) :
  forall (jobsnum netcount : Z) (st : Benchmark.State),
    1 <= jobsnum ->
    exists (jobsnum' : Z) (st' : Benchmark.State),
      Benchmark.for_each nets
        (fun net acc => Benchmark.run_net algs timeout asym net acc)
        (jobsnum, netcount) st
      = Benchmark.Ret (jobsnum', netcount + Z.of_nat (List.length nets)) st'
      /\ 2 ^ Z.of_nat (List.length nets) * jobsnum <= jobsnum'.
Proof.
  induction nets as [| net nets IH]; intros jobsnum netcount st Hj.
  - exists jobsnum, st. cbn [Benchmark.for_each Benchmark.ret List.length networks flat_map map app].
      change (Z.of_nat 0) with 0. rewrite Z.pow_0_r.
      rewrite Z.add_0_r. split; [reflexivity | lia].
  - cbn [Benchmark.for_each]. unfold Benchmark.bind at 1.
    destruct (run_net_doubles asym net jobsnum netcount st Hj)
      as [j1 [st1 [H1 Hd1]]].
    rewrite H1.
    destruct (IH j1 (netcount + 1) st1 ltac:(lia)) as [j2 [st2 [H2 Hd2]]].
    rewrite H2. exists j2, st2. split.
    + f_equal. f_equal. cbn [List.length]. lia.
    + cbn [List.length]. rewrite Nat2Z.inj_succ, Z.pow_succ_r by lia.
      nia.
Qed.

Lemma runApps_nets_count
    (datadirs datafiles : list (Benchmark.pyval * string))
    (st : Benchmark.State) :
  let n := Z.of_nat (List.length (networks iglob datadirs datafiles)) in
  exists (jobsnum : Z) (st' : Benchmark.State),
    Benchmark.runApps_nets iglob algs timeout datadirs datafiles st
    = Benchmark.Ret (jobsnum, n) st'
    /\ 2 ^ n <= jobsnum.
Proof.
  intros n. unfold Benchmark.runApps_nets, Benchmark.bind.
  assert (Hdirs : forall dirs jobsnum netcount st0,
             1 <= jobsnum ->
             exists jobsnum' st',
               Benchmark.for_each dirs
                 (fun d acc =>
                    let '(asym, ddir) := d in
                    Benchmark.for_each
                      (iglob (ddir ++ "*" ++ Benchmark._extnetfile))
                      (fun net acc =>
                         Benchmark.run_net algs timeout asym net acc)
                      acc)
                 (jobsnum, netcount) st0
               = Benchmark.Ret
                   (jobsnum',
                    netcount
                    + Z.of_nat (List.length (networks iglob dirs []))) st'
               /\ 2 ^ Z.of_nat (List.length (networks iglob dirs []))
                  * jobsnum <= jobsnum').
  { induction dirs as [| [asym ddir] dirs IH]; intros j c st0 Hj.
    - exists j, st0. cbn [Benchmark.for_each Benchmark.ret List.length networks flat_map map app].
      change (Z.of_nat 0) with 0. rewrite Z.pow_0_r.
      rewrite Z.add_0_r. split; [reflexivity | lia].
    - cbn [Benchmark.for_each]. unfold Benchmark.bind at 1.
      destruct (nets_loop_doubles asym
                  (iglob (ddir ++ "*" ++ Benchmark._extnetfile)) j c st0 Hj)
        as [j1 [st1 [H1 Hd1]]].
      rewrite H1.
      assert (Hj1 : 1 <= j1).
      { pose proof (Z.pow_pos_nonneg 2
                      (Z.of_nat (List.length
                         (iglob (ddir ++ "*" ++ Benchmark._extnetfile))))
                      ltac:(lia) ltac:(lia)). nia. }
      destruct (IH j1 (c + Z.of_nat (List.length
                  (iglob (ddir ++ "*" ++ Benchmark._extnetfile)))) st1 Hj1)
        as [j2 [st2 [H2 Hd2]]].
      rewrite H2. exists j2, st2.
      unfold networks in *. cbn [flat_map map snd] in *.
      rewrite !app_nil_r in *. rewrite length_app, Nat2Z.inj_add.
      split; [f_equal; f_equal; lia |].
      rewrite Z.pow_add_r by lia.
      pose proof (Z.pow_pos_nonneg 2
                    (Z.of_nat (List.length (flat_map
                       (fun d => iglob (snd d ++ "*" ++ Benchmark._extnetfile))
                       dirs))) ltac:(lia) ltac:(lia)).
      nia. }
  assert (Hfiles : forall files jobsnum netcount st0,
             1 <= jobsnum ->
             exists jobsnum' st',
               Benchmark.for_each files
                 (fun d acc =>
                    let '(asym, net) := d in
                    Benchmark.run_net algs timeout asym net acc)
                 (jobsnum, netcount) st0
               = Benchmark.Ret
                   (jobsnum', netcount + Z.of_nat (List.length files)) st'
               /\ 2 ^ Z.of_nat (List.length files) * jobsnum <= jobsnum').
  { induction files as [| [asym net] files IH]; intros j c st0 Hj.
    - exists j, st0. cbn [Benchmark.for_each Benchmark.ret List.length networks flat_map map app].
      change (Z.of_nat 0) with 0. rewrite Z.pow_0_r.
      rewrite Z.add_0_r. split; [reflexivity | lia].
    - cbn [Benchmark.for_each]. unfold Benchmark.bind at 1.
      destruct (run_net_doubles asym net j c st0 Hj) as [j1 [st1 [H1 Hd1]]].
      rewrite H1.
      destruct (IH j1 (c + 1) st1 ltac:(lia)) as [j2 [st2 [H2 Hd2]]].
      rewrite H2. exists j2, st2. split.
      + f_equal. f_equal. cbn [List.length]. lia.
      + cbn [List.length]. rewrite Nat2Z.inj_succ, Z.pow_succ_r by lia.
        nia. }
  destruct (Hdirs datadirs 1 0 st ltac:(lia)) as [j1 [st1 [H1 Hd1]]].
  rewrite H1.
  assert (Hj1 : 1 <= j1).
  { pose proof (Z.pow_pos_nonneg 2
                  (Z.of_nat (List.length (networks iglob datadirs [])))
                  ltac:(lia) ltac:(lia)). nia. }
  destruct (Hfiles datafiles j1
              (0 + Z.of_nat (List.length (networks iglob datadirs []))) st1
              Hj1) as [j2 [st2 [H2 Hd2]]].
  rewrite H2. exists j2, st2.
  subst n. unfold networks in *. cbn [map] in *. rewrite app_nil_r in *.
  rewrite length_app, length_map, Nat2Z.inj_add.
  split; [f_equal; f_equal; lia |].
  rewrite Z.pow_add_r by lia.
  pose proof (Z.pow_pos_nonneg 2 (Z.of_nat (List.length datafiles))
                ltac:(lia) ltac:(lia)).
  nia.
Qed.

End JobCount.

Example runApps_nets_all_failing :
  Benchmark.runApps_nets (fun _ => []) [failing_app] 10 []
    [(Benchmark.VNone, "a.nsa"); (Benchmark.VNone, "b.nsa");
     (Benchmark.VNone, "c.nsa")] Benchmark.start
  = Benchmark.Ret (8, 3)
      (Benchmark.mkState None Benchmark.start_handlers
         [Benchmark.MsgAppInterrupted "execScp" (Py.ValueError "scp");
          Benchmark.MsgAppInterrupted "execScp" (Py.ValueError "scp");
          Benchmark.MsgAppInterrupted "execScp" (Py.ValueError "scp")] []).
Proof. reflexivity. Qed.

Example execute_counts_returning_apps :
  Benchmark.execute [one_job_app; failing_app; one_job_app] 10 "a.nsa"
    Benchmark.VNone 5 Benchmark.start
  = (["execHirecs"; "execScp"; "execHirecs"],
     Benchmark.Ret 7
       (Benchmark.mkState None Benchmark.start_handlers
          [Benchmark.MsgAppInterrupted "execScp" (Py.ValueError "scp")] [])).
Proof. reflexivity. Qed.

(** X11: when the functions of the tuple return counts that are not
    negative or raise [StandardError]s, [runApps.execute] calls them all and
    returns a count that is at least the one it was given: the result is
    the accumulated count, not the number of jobs of this network. *)
Theorem execute_returns_accumulated_count
    (algs : list Benchmark.app) (timeout : Q) (net : string)
    (asym : Benchmark.pyval) (jobsnum : Z) (st : Benchmark.State) :
  Forall (behaves timeout) algs ->
  exists (n : Z) (st' : Benchmark.State),
    Benchmark.execute algs timeout net asym jobsnum st
    = (map Benchmark.app_name algs, Benchmark.Ret n st')
    /\ jobsnum <= n.
Proof. intros H. apply execute_count. exact H. Qed.

Lemma execute_returns_accumulated_count_witness :
  exists (n : Z) (st' : Benchmark.State),
    Benchmark.execute [one_job_app; failing_app] 10 "a.nsa" Benchmark.VNone
      5 Benchmark.start
    = (map Benchmark.app_name [one_job_app; failing_app], Benchmark.Ret n st')
    /\ 5 <= n.
Proof.
  apply (execute_returns_accumulated_count [one_job_app; failing_app] 10
           "a.nsa" Benchmark.VNone 5 Benchmark.start).
  apply Forall_cons; [intros net asym st; cbn; lia |].
  apply Forall_cons; [intros net asym st; reflexivity | apply Forall_nil].
Defined.

(** X12: the loops of [runApps] add to [jobsnum] what [execute] returns,
    which already contains [jobsnum]: with algorithms that behave, after
    [n] networks [netcount] is [n] and [jobsnum] is at least [2 ^ n],
    however few jobs were scheduled. *)
Theorem runApps_jobsnum_doubles
    (iglob : string -> list string) (algs : list Benchmark.app) (timeout : Q)
    (datadirs datafiles : list (Benchmark.pyval * string))
    (st : Benchmark.State) :
  Forall (behaves timeout) algs ->
  let n := Z.of_nat (List.length (networks iglob datadirs datafiles)) in
  exists (jobsnum : Z) (st' : Benchmark.State),
    Benchmark.runApps_nets iglob algs timeout datadirs datafiles st
    = Benchmark.Ret (jobsnum, n) st'
    /\ 2 ^ n <= jobsnum.
Proof. intros H. apply runApps_nets_count. exact H. Qed.

Lemma runApps_jobsnum_doubles_witness :
  exists (jobsnum : Z) (st' : Benchmark.State),
    Benchmark.runApps_nets (fun _ => ["x.nsa"; "y.nsa"]) [one_job_app] 10
      [(Benchmark.VNone, "dir/")] [(Benchmark.VNone, "a.nsa")] Benchmark.start
    = Benchmark.Ret (jobsnum, 3) st'
    /\ 2 ^ 3 <= jobsnum.
Proof.
  apply (runApps_jobsnum_doubles (fun _ => ["x.nsa"; "y.nsa"]) [one_job_app]
           10 [(Benchmark.VNone, "dir/")] [(Benchmark.VNone, "a.nsa")]
           Benchmark.start).
  apply Forall_cons; [intros net asym st; cbn; lia | apply Forall_nil].
Defined.


(** ** More on evalResults *)

Section EvalResultsMore.
Import Benchmark.

Variable cpu_count : Z.
Variable _extclnodes : string.
Variable dir : list string.
Variable lower : string -> string.
Variable iglob : string -> list string.
Variable splitext : string -> string * string.
Variable func : option string.
Variable evalAlgorithm : string -> pyval -> pyval -> Q -> M unit.

(** The assertions of [evalResults] hold and the pool is created. *)
Lemma evalResults_enters (evalres : Z) (algorithms : option (list string))
    (datadirs datafiles : list (pyval * string)) (exectime timeout : Q)
    (st : State) :
  evalres <> 0 ->
  datadirs <> [] \/ datafiles <> [] ->
  (0 <= exectime)%Q -> (0 <= timeout)%Q ->
  execpool st = None ->
  evalResults cpu_count _extclnodes dir lower iglob splitext func
    evalAlgorithm evalres algorithms datadirs datafiles exectime timeout st
  = bind
      (for_each (measures _extclnodes)
         (eval_measure dir lower iglob splitext func evalAlgorithm evalres
            algorithms datadirs datafiles timeout)
         None)
      (fun jobsnum =>
         bind
           (fun st0 =>
              match execpool st0, jobsnum with
              | None, _ => Ret tt st0
              | Some _, None => Exc (Py.NameError "jobsnum") st0
              | Some p, Some _ =>
                  bind (set_execpool (Some (ExecPool.join p)))
                    (fun _ => set_execpool None) st0
              end)
           (fun _ => print MsgEvalDone))
      (mkState (Some (ExecPool.ExecPool (Z.to_nat (Z.max (cpu_count - 1) 1))))
         (handlers st) (stdout st) (log st)).
Proof.
  intros Hres Hdata Hexec Htime Hnone. unfold evalResults.
  apply Z.eqb_neq in Hres. rewrite Hres.
  apply Qle_bool_iff in Hexec. apply Qle_bool_iff in Htime.
  rewrite Hexec, Htime.
  replace (match datadirs, datafiles with
           | [], [] => true
           | _, _ => false
           end) with false
    by (destruct datadirs, datafiles; try reflexivity;
        destruct Hdata; congruence).
  cbn [negb andb]. rewrite Hnone.
  unfold bind at 1.
  unfold evalResults_pool, ensure_pool. rewrite Hnone.
  reflexivity.
Qed.

(** A measure that is not selected is skipped. *)
Lemma eval_measure_skips (evalres : Z) (algorithms : option (list string))
    (datadirs datafiles : list (pyval * string)) (timeout : Q)
    (im : Z) (names : string * string * string) (jobsnum : option Z)
    (st : State) :
  Z.land evalres im <> im ->
  eval_measure dir lower iglob splitext func evalAlgorithm evalres algorithms
    datadirs datafiles timeout (im, names) jobsnum st
  = Ret jobsnum st.
Proof.
  intros Hsel. unfold eval_measure. destruct names as [[measure fileext] title].
  apply Z.eqb_neq in Hsel. rewrite Hsel. reflexivity.
Qed.

(** Without named algorithms a selected measure ends in the [NameError]
    on [func]. *)
Lemma eval_measure_NameError (evalres : Z) (algorithms : option (list string))
    (datadirs datafiles : list (pyval * string)) (timeout : Q)
    (im : Z) (names : string * string * string) (jobsnum : option Z)
    (st : State) :
  Z.land evalres im = im ->
  algorithms = None \/ algorithms = Some [] ->
  dir <> [] -> func = None ->
  eval_measure dir lower iglob splitext func evalAlgorithm evalres algorithms
    datadirs datafiles timeout (im, names) jobsnum st
  = Exc (Py.NameError "func") st.
Proof.
  intros Hsel Halg Hdir Hfunc. unfold eval_measure.
  destruct names as [[measure fileext] title].
  rewrite Hsel, Z.eqb_refl. cbn [negb]. unfold bind at 1.
  unfold evalalgs_of. rewrite Hfunc.
  destruct dir as [| d0 dirs]; [congruence |].
  destruct Halg as [-> | ->]; reflexivity.
Qed.

Hypothesis evalAlgorithm_StandardError :
  forall elgname basefile measure timeout st e st',
    evalAlgorithm elgname basefile measure timeout st = Exc e st' ->
    Py.isStandardError e = true.

(** [evaluate] counts the algorithms whose evaluation did not raise. *)
Lemma evaluate_count (evalalgs : list string) (timeout : Q)
    (measure basefile asym : pyval) :
  forall (jobsnum : Z) (st : State),
  exists (n : Z) (st' : State),
    evaluate evalAlgorithm evalalgs timeout
      [measure; basefile; asym; VInt jobsnum] st
    = Ret (VInt n) st'
    /\ jobsnum <= n <= jobsnum + Z.of_nat (List.length evalalgs).
Proof.
  unfold evaluate.
  induction evalalgs as [| elgname evalalgs IH]; intros jobsnum st.
  - exists jobsnum, st. cbn. split; [reflexivity | lia].
  - cbn [for_each List.length]. unfold bind at 1, try_else at 1.
    unfold bind at 1.
    assert (Hnext : forall j st0, jobsnum <= j <= jobsnum + 1 ->
              exists n st',
                for_each evalalgs
                  (fun elgname jobsnum =>
                     try_else
                       (bind (evalAlgorithm elgname basefile measure timeout)
                          (fun _ =>
                             when (pyval_eqb measure (VStr "nmi"))
                               (evalAlgorithm elgname basefile (VStr "nmi-s")
                                  timeout)))
                       (fun err =>
                          bind (print (MsgEvalInterrupted elgname err))
                            (fun _ => ret jobsnum))
                       (fun _ => incr jobsnum))
                  (VInt j) st0
                = Ret (VInt n) st'
                /\ jobsnum <= n
                   <= jobsnum + Z.of_nat (S (List.length evalalgs))).
    { intros j st0 Hj. destruct (IH j st0) as [n [st' [Hrun Hn]]].
      exists n, st'. split; [exact Hrun | lia]. }
    destruct (evalAlgorithm elgname basefile measure timeout st)
      as [[] st1 | e st1] eqn:E1.
    + unfold when.
      destruct (pyval_eqb measure (VStr "nmi")).
      * destruct (evalAlgorithm elgname basefile (VStr "nmi-s") timeout st1)
          as [[] st2 | e st2] eqn:E2.
        -- cbn [incr ret]. apply Hnext. lia.
        -- rewrite (evalAlgorithm_StandardError _ _ _ _ _ _ _ E2).
           cbn. apply Hnext. lia.
      * cbn [ret incr]. apply Hnext. lia.
    + rewrite (evalAlgorithm_StandardError _ _ _ _ _ _ _ E1).
      cbn. apply Hnext. lia.
Qed.

(** With nothing but directories a selected measure is evaluated and
    leaves [jobsnum] at 0. *)
Lemma eval_measure_directories (evalres : Z) (a : string)
    (algorithms : list string) (datadirs : list (pyval * string))
    (timeout : Q) (im : Z) (names : string * string * string)
    (jobsnum : option Z) (st : State) :
  Z.land evalres im = im ->
  exists st',
    eval_measure dir lower iglob splitext func evalAlgorithm evalres
      (Some (a :: algorithms)) datadirs [] timeout (im, names) jobsnum st
    = Ret (Some 0) st'.
Proof.
  intros Hsel. unfold eval_measure.
  destruct names as [[measure fileext] title].
  rewrite Hsel, Z.eqb_refl. cbn [negb evalalgs_of].
  unfold bind at 1. cbn [ret]. unfold bind at 1. cbn [print].
  unfold bind at 1.
  destruct (eval_datadirs_returns iglob evalAlgorithm
              evalAlgorithm_StandardError (map lower (a :: algorithms))
              timeout measure fileext 0 datadirs
              (printed (MsgEvalStarting title) st)) as [st1 H1].
  rewrite H1. unfold bind at 1. cbn [eval_datafiles for_each ret].
  unfold bind at 1. cbn [print ret].
  eexists. reflexivity.
Qed.

End EvalResultsMore.

Example evalResults_directories_only_run :
  Benchmark.evalResults 4 ".cnl" ["execHirecs"] (fun s => s)
    (fun _ => ["d/x.cnl"]) (fun s => (s, "")) None
    (fun _ _ _ _ => Benchmark.ret tt)
    1 (Some ["hirecs"]) [(Benchmark.VNone, "d/")] [] 0 10 Benchmark.start
  = Benchmark.Ret tt
      (Benchmark.mkState None Benchmark.start_handlers
         [Benchmark.MsgEvalStarting "NMI"; Benchmark.MsgEvalCompleted "NMI";
          Benchmark.MsgEvalDone] []).
Proof. reflexivity. Qed.

(** X13: called without named algorithms ([None] or an empty list), with
    a measure selected and a non-empty [dir(appsmodule)], [evalResults]
    raises [NameError] when no imported module binds a global [func]: the
    comprehension iterates with [funcname] but tests [func].  The pool it
    has just created stays bound to [_execpool]. *)
Theorem evalResults_all_algorithms_NameError
    (cpu_count : Z) (_extclnodes : string) (dir : list string)
    (lower : string -> string) (iglob : string -> list string)
    (splitext : string -> string * string)
    (evalAlgorithm : string -> Benchmark.pyval -> Benchmark.pyval -> Q
                     -> Benchmark.M unit)
    (evalres : Z) (algorithms : option (list string))
    (datadirs datafiles : list (Benchmark.pyval * string))
    (exectime timeout : Q) (st : Benchmark.State) :
  algorithms = None \/ algorithms = Some [] ->
  dir <> [] ->
  Benchmark.execpool st = None ->
  Z.land evalres 1 = 1 \/ Z.land evalres 2 = 2 ->
  datadirs <> [] \/ datafiles <> [] ->
  (0 <= exectime)%Q -> (0 <= timeout)%Q ->
  Benchmark.evalResults cpu_count _extclnodes dir lower iglob splitext None
    evalAlgorithm evalres algorithms datadirs datafiles exectime timeout st
  = Benchmark.Exc (Py.NameError "func")
      (Benchmark.mkState
         (Some (ExecPool.ExecPool (Z.to_nat (Z.max (cpu_count - 1) 1))))
         (Benchmark.handlers st) (Benchmark.stdout st) (Benchmark.log st)).
Proof.
  intros Halg Hdir Hnone Hsel Hdata Hexec Htime.
  rewrite evalResults_enters; try assumption.
  2:{ intros ->. destruct Hsel as [H | H]; discriminate H. }
  unfold Benchmark.bind at 1. unfold Benchmark.measures.
  cbn [Benchmark.for_each]. unfold Benchmark.bind at 1.
  destruct (Z.eq_dec (Z.land evalres 1) 1) as [H1 | H1].
  - rewrite eval_measure_NameError by auto. reflexivity.
  - rewrite eval_measure_skips by exact H1.
    destruct Hsel as [H | H2]; [congruence |].
    unfold Benchmark.bind at 1.
    rewrite eval_measure_NameError by auto. reflexivity.
Qed.

Lemma evalResults_all_algorithms_NameError_witness :
  Benchmark.evalResults 4 ".cnl" ["execHirecs"] (fun s => s) (fun _ => [])
    (fun s => (s, "")) None (fun _ _ _ _ => Benchmark.ret tt)
    3 None [] [(Benchmark.VNone, "net")] 0 10 Benchmark.start
  = Benchmark.Exc (Py.NameError "func")
      (Benchmark.mkState (Some (ExecPool.ExecPool 3))
         Benchmark.start_handlers [] []).
Proof.
  apply (evalResults_all_algorithms_NameError 4 ".cnl" ["execHirecs"]
           (fun s => s) (fun _ => []) (fun s => (s, ""))
           (fun _ _ _ _ => Benchmark.ret tt)
           3 None [] [(Benchmark.VNone, "net")] 0 10 Benchmark.start).
  - left. reflexivity.
  - discriminate.
  - reflexivity.
  - left. reflexivity.
  - right. discriminate.
  - discriminate.
  - discriminate.
Defined.

(** X14: with named algorithms, a measure selected, directories only (no
    individually given files) and an [evalAlgorithm] that raises nothing
    but [StandardError]s, [evalResults] returns, and [_execpool] is [None]
    again when it does. *)
Theorem evalResults_directories_only
    (cpu_count : Z) (_extclnodes : string) (dir : list string)
    (lower : string -> string) (iglob : string -> list string)
    (splitext : string -> string * string) (func : option string)
    (evalAlgorithm : string -> Benchmark.pyval -> Benchmark.pyval -> Q
                     -> Benchmark.M unit)
    (evalres : Z) (a : string) (algorithms : list string)
    (datadirs : list (Benchmark.pyval * string))
    (exectime timeout : Q) (st : Benchmark.State) :
  (forall elgname basefile measure t st0 e st1,
     evalAlgorithm elgname basefile measure t st0 = Benchmark.Exc e st1 ->
     Py.isStandardError e = true) ->
  Benchmark.execpool st = None ->
  Z.land evalres 1 = 1 \/ Z.land evalres 2 = 2 ->
  datadirs <> [] ->
  (0 <= exectime)%Q -> (0 <= timeout)%Q ->
  exists st',
    Benchmark.evalResults cpu_count _extclnodes dir lower iglob splitext func
      evalAlgorithm evalres (Some (a :: algorithms)) datadirs [] exectime
      timeout st
    = Benchmark.Ret tt st'
    /\ Benchmark.execpool st' = None.
Proof.
  intros Hstd Hnone Hsel Hdirs Hexec Htime.
  rewrite evalResults_enters; try assumption; [| | left; exact Hdirs].
  2:{ intros ->. destruct Hsel as [H | H]; discriminate H. }
  set (st0 := Benchmark.mkState _ _ _ _).
  assert (Hloop : exists st1,
             Benchmark.for_each (Benchmark.measures _extclnodes)
               (Benchmark.eval_measure dir lower iglob splitext func
                  evalAlgorithm evalres (Some (a :: algorithms)) datadirs []
                  timeout)
               None st0
             = Benchmark.Ret (Some 0) st1).
  { unfold Benchmark.measures. cbn [Benchmark.for_each].
    unfold Benchmark.bind at 1.
    destruct (Z.eq_dec (Z.land evalres 1) 1) as [H1 | H1].
    - destruct (eval_measure_directories dir lower iglob splitext func
                  evalAlgorithm Hstd evalres a algorithms datadirs timeout 1
                  ("nmi", _extclnodes, "NMI") None st0 H1) as [st1 Hm1].
      rewrite Hm1. unfold Benchmark.bind at 1.
      destruct (Z.eq_dec (Z.land evalres 2) 2) as [H2 | H2].
      + destruct (eval_measure_directories dir lower iglob splitext func
                    evalAlgorithm Hstd evalres a algorithms datadirs timeout 2
                    ("mod", ".hig", "Q") (Some 0) st1 H2) as [st2 Hm2].
        rewrite Hm2. exists st2. reflexivity.
      + rewrite eval_measure_skips by exact H2. exists st1. reflexivity.
    - rewrite eval_measure_skips by exact H1.
      destruct Hsel as [H | H2]; [congruence |].
      unfold Benchmark.bind at 1.
      destruct (eval_measure_directories dir lower iglob splitext func
                  evalAlgorithm Hstd evalres a algorithms datadirs timeout 2
                  ("mod", ".hig", "Q") None st0 H2) as [st2 Hm2].
      rewrite Hm2. exists st2. reflexivity. }
  destruct Hloop as [st1 Hloop].
  unfold Benchmark.bind at 1. rewrite Hloop.
  unfold Benchmark.bind at 1.
  destruct (Benchmark.execpool st1) as [pool |] eqn:Epool.
  - cbn. eexists. split; reflexivity.
  - cbn. eexists. split; [reflexivity | exact Epool].
Qed.

Lemma evalResults_directories_only_witness :
  exists st',
    Benchmark.evalResults 4 ".cnl" ["execHirecs"] (fun s => s)
      (fun _ => ["d/x.cnl"]) (fun s => (s, "")) None
      (fun _ _ _ _ => Benchmark.ret tt)
      1 (Some ["hirecs"]) [(Benchmark.VNone, "d/")] [] 0 10 Benchmark.start
    = Benchmark.Ret tt st'
    /\ Benchmark.execpool st' = None.
Proof.
  apply (evalResults_directories_only 4 ".cnl" ["execHirecs"] (fun s => s)
           (fun _ => ["d/x.cnl"]) (fun s => (s, "")) None
           (fun _ _ _ _ => Benchmark.ret tt)
           1 "hirecs" [] [(Benchmark.VNone, "d/")] 0 10 Benchmark.start).
  - intros elgname basefile measure t st0 e st1 H. discriminate H.
  - reflexivity.
  - left. reflexivity.
  - discriminate.
  - discriminate.
  - discriminate.
Defined.

(** X15: when [evalres] is not zero but selects neither measure (bit 1
    for NMI, bit 2 for modularity), [evalResults] raises on the unbound
    local [jobsnum] after the loop, with the pool it created still bound
    to [_execpool]. *)
Theorem evalResults_no_measure_selected
    (cpu_count : Z) (_extclnodes : string) (dir : list string)
    (lower : string -> string) (iglob : string -> list string)
    (splitext : string -> string * string) (func : option string)
    (evalAlgorithm : string -> Benchmark.pyval -> Benchmark.pyval -> Q
                     -> Benchmark.M unit)
    (evalres : Z) (algorithms : option (list string))
    (datadirs datafiles : list (Benchmark.pyval * string))
    (exectime timeout : Q) (st : Benchmark.State) :
  evalres <> 0 ->
  Z.land evalres 1 <> 1 -> Z.land evalres 2 <> 2 ->
  Benchmark.execpool st = None ->
  datadirs <> [] \/ datafiles <> [] ->
  (0 <= exectime)%Q -> (0 <= timeout)%Q ->
  Benchmark.evalResults cpu_count _extclnodes dir lower iglob splitext func
    evalAlgorithm evalres algorithms datadirs datafiles exectime timeout st
  = Benchmark.Exc (Py.NameError "jobsnum")
      (Benchmark.mkState
         (Some (ExecPool.ExecPool (Z.to_nat (Z.max (cpu_count - 1) 1))))
         (Benchmark.handlers st) (Benchmark.stdout st) (Benchmark.log st)).
Proof.
  intros Hres H1 H2 Hnone Hdata Hexec Htime.
  rewrite evalResults_enters; try assumption.
  unfold Benchmark.bind at 1. unfold Benchmark.measures.
  cbn [Benchmark.for_each]. unfold Benchmark.bind at 1.
  rewrite eval_measure_skips by exact H1.
  unfold Benchmark.bind at 1.
  rewrite eval_measure_skips by exact H2.
  reflexivity.
Qed.

Lemma evalResults_no_measure_selected_witness :
  Benchmark.evalResults 4 ".cnl" ["execHirecs"] (fun s => s) (fun _ => [])
    (fun s => (s, "")) None (fun _ _ _ _ => Benchmark.ret tt)
    4 (Some ["hirecs"]) [] [(Benchmark.VNone, "net")] 0 10 Benchmark.start
  = Benchmark.Exc (Py.NameError "jobsnum")
      (Benchmark.mkState (Some (ExecPool.ExecPool 3))
         Benchmark.start_handlers [] []).
Proof.
  apply (evalResults_no_measure_selected 4 ".cnl" ["execHirecs"]
           (fun s => s) (fun _ => []) (fun s => (s, "")) None
           (fun _ _ _ _ => Benchmark.ret tt)
           4 (Some ["hirecs"]) [] [(Benchmark.VNone, "net")] 0 10
           Benchmark.start); try discriminate; try reflexivity.
  right. discriminate.
Defined.

Section EvaluateCount.
Import Benchmark.

Variable evalAlgorithm : string -> pyval -> pyval -> Q -> M unit.

(** [fails elgname] is what the evaluation of [elgname] raises, if
    anything. *)
Variable fails : string -> option Py.exc.

Hypothesis evalAlgorithm_outcome :
  forall elgname basefile measure timeout st,
    match evalAlgorithm elgname basefile measure timeout st with
    | Ret _ st' => fails elgname = None /\ incl (stdout st) (stdout st')
    | Exc e st' =>
        fails elgname = Some e /\ Py.isStandardError e = true /\
        incl (stdout st) (stdout st')
    end.

Lemma evaluate_exact (evalalgs : list string) (timeout : Q)
    (measure basefile asym : pyval) :
  forall (jobsnum : Z) (st : State),
  exists st' : State,
    evaluate evalAlgorithm evalalgs timeout
      [measure; basefile; asym; VInt jobsnum] st
    = Ret (VInt (jobsnum
                 + Z.of_nat
                     (List.length
                        (filter (fun elgname =>
                                   match fails elgname with
                                   | None => true
                                   | Some _ => false
                                   end) evalalgs)))) st'
    /\ incl (stdout st) (stdout st')
    /\ forall elgname e,
         In elgname evalalgs -> fails elgname = Some e ->
         In (MsgEvalInterrupted elgname e) (stdout st').
Proof.
  unfold evaluate.
  induction evalalgs as [| elgname evalalgs IH]; intros jobsnum st.
  - exists st. cbn. rewrite Z.add_0_r.
    split; [reflexivity | split; [apply incl_refl |]].
    intros elg e [].
  - cbn [for_each filter]. unfold bind at 1, try_else at 1.
    unfold bind at 1.
    pose proof (evalAlgorithm_outcome elgname basefile measure timeout st)
      as H1.
    destruct (evalAlgorithm elgname basefile measure timeout st)
      as [[] st1 | e st1].
    + destruct H1 as [Hnone Hincl1]. rewrite Hnone.
      assert (Hsecond : exists st2,
                 when (pyval_eqb measure (VStr "nmi"))
                   (evalAlgorithm elgname basefile (VStr "nmi-s") timeout)
                   st1
                 = Ret tt st2 /\ incl (stdout st1) (stdout st2)).
      { unfold when. destruct (pyval_eqb measure (VStr "nmi")).
        - pose proof (evalAlgorithm_outcome elgname basefile (VStr "nmi-s")
                        timeout st1) as H2.
          destruct (evalAlgorithm elgname basefile (VStr "nmi-s") timeout
                      st1) as [[] st2 | e st2].
          + exists st2. split; [reflexivity | apply H2].
          + destruct H2 as [H2 _]. congruence.
        - exists st1. split; [reflexivity | apply incl_refl]. }
      destruct Hsecond as (st2 & -> & Hincl2).
      cbn [incr ret].
      destruct (IH (jobsnum + 1) st2) as (st' & Hrun & Hincl & Hrep).
      exists st'. split; [| split].
      * unfold ret in Hrun |- *. rewrite Hrun. cbn [List.length].
        f_equal. f_equal. lia.
      * eapply incl_tran; [exact Hincl1 |].
        eapply incl_tran; [exact Hincl2 | exact Hincl].
      * intros elg e [<- | Hin] He; [congruence |].
        exact (Hrep elg e Hin He).
    + destruct H1 as (Hsome & Hstd & Hincl1). rewrite Hsome, Hstd.
      unfold bind at 1. unfold print at 1. unfold ret at 1.
      destruct (IH jobsnum (printed (MsgEvalInterrupted elgname e) st1))
        as (st' & Hrun & Hincl & Hrep).
      exists st'. split; [exact Hrun | split].
      * eapply incl_tran; [exact Hincl1 |].
        eapply incl_tran; [| exact Hincl].
        unfold printed. cbn. apply incl_appl, incl_refl.
      * intros elg e0 [<- | Hin] He.
        -- assert (e0 = e) by congruence. subst e0.
           apply Hincl. unfold printed. cbn.
           apply in_or_app. right. left. reflexivity.
        -- exact (Hrep elg e0 Hin He).
Qed.

End EvaluateCount.

(** X16: when what the evaluation of an algorithm raises is a
    [StandardError] that depends on the algorithm alone, and standard
    output only grows, the inner [evaluate], called with its four
    arguments, returns the count it was given plus the number of
    algorithms whose evaluation did not raise, and every algorithm whose
    evaluation raised has been reported with its exception. *)
Theorem evaluate_counts_successes
    (evalAlgorithm : string -> Benchmark.pyval -> Benchmark.pyval -> Q
                     -> Benchmark.M unit)
    (fails : string -> option Py.exc)
    (evalalgs : list string) (timeout : Q)
    (measure basefile asym : Benchmark.pyval) (jobsnum : Z)
    (st : Benchmark.State) :
  (forall elgname basefile0 measure0 t st0,
     match evalAlgorithm elgname basefile0 measure0 t st0 with
     | Benchmark.Ret _ st1 =>
         fails elgname = None /\
         incl (Benchmark.stdout st0) (Benchmark.stdout st1)
     | Benchmark.Exc e st1 =>
         fails elgname = Some e /\ Py.isStandardError e = true /\
         incl (Benchmark.stdout st0) (Benchmark.stdout st1)
     end) ->
  exists st' : Benchmark.State,
    Benchmark.evaluate evalAlgorithm evalalgs timeout
      [measure; basefile; asym; Benchmark.VInt jobsnum] st
    = Benchmark.Ret
        (Benchmark.VInt
           (jobsnum
            + Z.of_nat
                (List.length
                   (filter (fun elgname =>
                              match fails elgname with
                              | None => true
                              | Some _ => false
                              end) evalalgs)))) st'
    /\ forall elgname e,
         In elgname evalalgs -> fails elgname = Some e ->
         In (Benchmark.MsgEvalInterrupted elgname e) (Benchmark.stdout st').
Proof.
  intros H.
  destruct (evaluate_exact evalAlgorithm fails H evalalgs timeout measure
              basefile asym jobsnum st) as (st' & Hrun & _ & Hrep).
  exists st'. split; [exact Hrun | exact Hrep].
Qed.

Lemma evaluate_counts_successes_witness :
  exists st' : Benchmark.State,
    Benchmark.evaluate
      (fun elgname _ _ _ =>
         if (elgname =? "scp")%string then Benchmark.raise (Py.OSError 2)
         else Benchmark.ret tt)
      ["hirecs"; "scp"; "louvain"] 10
      [Benchmark.VStr "nmi"; Benchmark.VStr "x.cnl"; Benchmark.VNone;
       Benchmark.VInt 5] Benchmark.start
    = Benchmark.Ret
        (Benchmark.VInt
           (5 + Z.of_nat
                  (List.length
                     (filter (fun elgname =>
                                match (if (elgname =? "scp")%string
                                       then Some (Py.OSError 2) else None)
                                with
                                | None => true
                                | Some _ => false
                                end) ["hirecs"; "scp"; "louvain"])))) st'
    /\ forall elgname e,
         In elgname ["hirecs"; "scp"; "louvain"] ->
         (if (elgname =? "scp")%string then Some (Py.OSError 2) else None)
         = Some e ->
         In (Benchmark.MsgEvalInterrupted elgname e) (Benchmark.stdout st').
Proof.
  apply (evaluate_counts_successes
           (fun elgname _ _ _ =>
              if (elgname =? "scp")%string then Benchmark.raise (Py.OSError 2)
              else Benchmark.ret tt)
           (fun elgname =>
              if (elgname =? "scp")%string then Some (Py.OSError 2) else None)
           ["hirecs"; "scp"; "louvain"] 10 (Benchmark.VStr "nmi")
           (Benchmark.VStr "x.cnl") Benchmark.VNone 5 Benchmark.start).
  intros elgname basefile0 measure0 t st0.
  destruct (elgname =? "scp")%string; cbn.
  - split; [reflexivity | split; [reflexivity | apply incl_refl]].
  - split; [reflexivity | apply incl_refl].
Defined.

Example evaluate_counts_run :
  Benchmark.evaluate
    (fun elgname _ _ _ =>
       if (elgname =? "scp")%string then Benchmark.raise (Py.OSError 2)
       else Benchmark.ret tt)
    ["hirecs"; "scp"; "louvain"] 10
    [Benchmark.VStr "nmi"; Benchmark.VStr "x.cnl"; Benchmark.VNone;
     Benchmark.VInt 5] Benchmark.start
  = Benchmark.Ret (Benchmark.VInt 7)
      (Benchmark.mkState None Benchmark.start_handlers
         [Benchmark.MsgEvalInterrupted "scp" (Py.OSError 2)] []).
Proof. reflexivity. Qed.

(** ** More on the signal handlers *)

Lemma set_handlers_dispositions (st : Benchmark.State) (s : Benchmark.signum) :
  Benchmark.handlers (Benchmark.set_handlers st) s
  = if existsb (Benchmark.signum_eqb s) handled
    then Benchmark.Handler Benchmark.terminationHandler_fn
    else Benchmark.handlers st s.
Proof. destruct s; reflexivity. Qed.

(** X17: the main block changes the dispositions of its five signals and
    of no other, so a signal outside the five that has the default
    disposition gets the default action of the operating system: it
    kills the process (SIGUSR1, SIGUSR2), stops it (SIGTSTP) or leaves it
    running (SIGCHLD, SIGURG, SIGWINCH, SIGCONT).  In no case is
    [terminationHandler] run: the pool stays bound to [_execpool] and
    nothing is deleted. *)
Theorem unhandled_signal_leaves_pool
    (sig : Benchmark.signum) (st0 : Benchmark.State) (p : ExecPool.Pool)
    (out : list Benchmark.message) (log : list Benchmark.event) :
  ~ In sig handled ->
  Benchmark.handlers st0 sig = Benchmark.SIG_DFL ->
  let hs := Benchmark.handlers (Benchmark.set_handlers st0) in
  hs sig = Benchmark.SIG_DFL /\
  Benchmark.deliver sig (Benchmark.mkState (Some p) hs out log)
  = Benchmark.mkState (Some p) hs out
      (log ++ match Benchmark.default_action sig with
              | Benchmark.Terminate => [Benchmark.KilledBy sig]
              | Benchmark.Stop => [Benchmark.StoppedBy sig]
              | Benchmark.Ignore | Benchmark.Continue => []
              end)%list.
Proof.
  intros Hout Hdfl hs.
  assert (Hh : hs sig = Benchmark.SIG_DFL).
  { subst hs. rewrite set_handlers_dispositions.
    destruct sig; cbn; try exact Hdfl;
      exfalso; apply Hout; unfold handled; cbn; tauto. }
  split; [exact Hh |].
  unfold Benchmark.deliver. cbn [Benchmark.handlers]. rewrite Hh.
  destruct (Benchmark.default_action sig); cbn;
    rewrite ?app_nil_r; reflexivity.
Qed.

Lemma unhandled_signal_leaves_pool_witness :
  Benchmark.deliver Benchmark.SIGCHLD
    (Benchmark.mkState (Some (ExecPool.ExecPool 3))
       (Benchmark.handlers (Benchmark.set_handlers Benchmark.start)) [] [])
  = Benchmark.mkState (Some (ExecPool.ExecPool 3))
      (Benchmark.handlers (Benchmark.set_handlers Benchmark.start)) [] [].
Proof.
  apply (unhandled_signal_leaves_pool Benchmark.SIGCHLD Benchmark.start
           (ExecPool.ExecPool 3) [] []).
  - unfold handled. cbn. intros H.
    repeat (destruct H as [H | H]; [discriminate H |]). exact H.
  - reflexivity.
Defined.

(** X18: a handled signal that arrives while [_execpool] is [None] makes
    the process exit with code 0 and nothing is deleted; this holds for
    SIGINT as well, which no longer raises [KeyboardInterrupt]. *)
Theorem termination_signal_without_pool
    (sig : Benchmark.signum) (st0 : Benchmark.State)
    (out : list Benchmark.message) (log : list Benchmark.event) :
  In sig handled ->
  let hs := Benchmark.handlers (Benchmark.set_handlers st0) in
  Benchmark.deliver sig (Benchmark.mkState None hs out log)
  = Benchmark.mkState None hs out (log ++ [Benchmark.Exit 0])%list.
Proof.
  intros Hin hs.
  assert (Hh : hs sig = Benchmark.Handler Benchmark.terminationHandler_fn).
  { subst hs. rewrite set_handlers_dispositions.
    unfold handled in *. cbn [In] in Hin.
    destruct Hin as [<- | [<- | [<- | [<- | [<- | []]]]]]; reflexivity. }
  unfold Benchmark.deliver. cbn [Benchmark.handlers]. rewrite Hh.
  reflexivity.
Qed.

Lemma termination_signal_without_pool_witness :
  Benchmark.deliver Benchmark.SIGINT
    (Benchmark.mkState None
       (Benchmark.handlers (Benchmark.set_handlers Benchmark.start)) [] [])
  = Benchmark.mkState None
      (Benchmark.handlers (Benchmark.set_handlers Benchmark.start)) []
      [Benchmark.Exit 0].
Proof.
  apply (termination_signal_without_pool Benchmark.SIGINT Benchmark.start
           [] []).
  unfold handled. cbn. tauto.
Defined.

(** ** The parameters of benchmark.py *)

Section BenchmarkParamsFacts.
Import BenchmarkParams ParamsReference.

Variable int : string -> Py.res Z.
Variable float : string -> Py.res Q.

Ltac inv_step :=
  match goal with
  | H : Py.Raise _ = Py.Ok _ |- _ => discriminate H
  | H : Py.Ok _ = Py.Raise _ |- _ => discriminate H
  | H : Py.Ok _ = Py.Ok _ |- _ => injection H as H
  | H : Py.Raise _ = Py.Raise _ |- _ => injection H as H
  | H : context [Py.bind ?m _] |- _ =>
      let E := fresh "E" in destruct m eqn:E; cbn [Py.bind] in H
  | H : context [if ?b then _ else _] |- _ =>
      let E := fresh "E" in destruct b eqn:E
  | H : context [match ?x with _ => _ end] |- _ =>
      let E := fresh "E" in destruct x eqn:E
  end.

Ltac inv_res := repeat inv_step.

Ltac bool_facts :=
  repeat match goal with
  | H : (_ || _) = false |- _ =>
      apply Bool.orb_false_iff in H; destruct H
  | H : negb _ = false |- _ => apply Bool.negb_false_iff in H
  | H : negb _ = true |- _ => apply Bool.negb_true_iff in H
  | H : (_ <? _) = false |- _ => apply Z.ltb_ge in H
  | H : (_ <? _) = true |- _ => apply Z.ltb_lt in H
  | H : (_ =? _) = false |- _ => apply Z.eqb_neq in H
  | H : (_ =? _) = true |- _ => apply Z.eqb_eq in H
  end.

Lemma parse_args_app (l : locals) (xs ys : list string) :
  parse_args int float l (xs ++ ys)
  = (l' <-? parse_args int float l xs ;; parse_args int float l' ys).
Proof.
  revert l. induction xs as [| x xs IH]; intros l; cbn; [reflexivity |].
  destruct (parse_arg int float l x); cbn; [apply IH | reflexivity].
Qed.

(** An argument that passes the first two tests is an option. *)
Lemma parse_arg_shape (l : locals) (arg : string) (r : Py.res locals) :
  parse_arg int float l arg = r ->
  (r = Py.Raise Py.IndexError /\ (arg = "" \/ arg = "-"))
  \/ (exists m, r = Py.Raise (Py.ValueError m))
  \/ exists c rest, arg = String "-" (String c rest).
Proof.
  intros <-. unfold parse_arg.
  destruct arg as [| c0 [| c1 rest]]; cbn.
  - left. auto.
  - destruct (Ascii.eqb_spec c0 "-") as [-> | Hc]; cbn.
    + left. auto.
    + right. left. eexists. reflexivity.
  - destruct (Ascii.eqb_spec c0 "-") as [-> | Hc]; cbn.
    + right. right. eauto.
    + right. left. eexists. reflexivity.
Qed.

Lemma endswith_app (c : ascii) (s : string) :
  endswith c (s ++ String c "") = true.
Proof.
  induction s as [| a s IH]; cbn; [apply Ascii.eqb_refl |].
  destruct (s ++ String c "")%string eqn:E; [| exact IH].
  destruct s; discriminate E.
Qed.

Lemma instances_in_range (l l' : locals) (val0 : string) :
  in_range l -> instances int l val0 = Py.Ok l' -> in_range l'.
Proof.
  unfold in_range, instances. intros Hl H.
  destruct val0 as [| a val0]; [injection H as <-; exact Hl |].
  destruct (split1 "." (String a val0)) as [nums0 nums1].
  inv_res; subst; cbn in *; bool_facts; intuition lia.
Qed.

Lemma outpdir_in_range (l l' : locals) (arg : string) (val1 : option string) :
  in_range l -> outpdir l arg val1 = Py.Ok l' -> in_range l'.
Proof.
  unfold in_range, outpdir. intros Hl H.
  inv_res; subst; cbn [gensynt netins shufnum syntdir convnets evalres
                       set_syntdir];
    try rewrite endswith_app; intuition auto.
Qed.

Lemma in_range_gensynt (l : locals) (v : Z) :
  In v [0; 1; 2] -> in_range l -> in_range (set_gensynt v l).
Proof. unfold in_range. cbn. intuition auto. Qed.

Lemma option_g_in_range (l l' : locals) (arg : string) :
  in_range l -> option_g int l arg = Py.Ok l' -> in_range l'.
Proof.
  unfold option_g. intros Hl H.
  assert (H1 : in_range (set_gensynt 1 l))
    by (apply in_range_gensynt; cbn; auto).
  assert (H2 : in_range (set_gensynt 2 (set_gensynt 1 l)))
    by (apply in_range_gensynt; cbn; auto).
  inv_res; subst; try assumption;
    match goal with
    | Hi : instances _ ?l0 _ = Py.Ok ?m, Ho : outpdir ?m _ _ = Py.Ok _,
      Hr : in_range ?l0 |- _ =>
        exact (outpdir_in_range _ _ _ _
                 (instances_in_range _ _ _ Hr Hi) Ho)
    end.
Qed.

Lemma option_a_in_range (l l' : locals) (arg : string) :
  in_range l -> option_a l arg = Py.Ok l' -> in_range l'.
Proof. unfold option_a. intros Hl H. inv_res; subst; exact Hl. Qed.

Lemma option_c_in_range (l l' : locals) (arg : string) :
  in_range l -> option_c l arg = Py.Ok l' -> in_range l'.
Proof.
  unfold in_range, option_c. intros Hl H.
  destruct (check_char "fr" arg 2); [| discriminate H].
  destruct (check_char "fr" arg 3); [| discriminate H].
  cbn [Py.bind] in H.
  destruct (Hicbem.str_in "f" (slice_from 2 arg));
    destruct (Hicbem.str_in "r" (slice_from 2 arg));
    injection H as <-; cbn; intuition auto.
Qed.

Lemma option_r_in_range (l l' : locals) (arg : string) :
  in_range l -> option_r l arg = Py.Ok l' -> in_range l'.
Proof. unfold option_r. intros Hl H. inv_res; subst; exact Hl. Qed.

Lemma option_e_in_range (l l' : locals) (arg : string) :
  in_range l -> option_e l arg = Py.Ok l' -> in_range l'.
Proof.
  unfold in_range, option_e. intros Hl H.
  inv_res; subst; cbn; intuition auto.
Qed.

Lemma option_d_in_range (l l' : locals) (arg : string) :
  in_range l -> option_d l arg = Py.Ok l' -> in_range l'.
Proof.
  unfold in_range, option_d. intros Hl H.
  inv_res; subst; cbn; intuition auto.
Qed.

Lemma option_t_in_range (l l' : locals) (arg : string) :
  in_range l -> option_t float l arg = Py.Ok l' -> in_range l'.
Proof.
  unfold in_range, option_t. intros Hl H.
  inv_res; subst; cbn; intuition auto.
Qed.

Lemma parse_arg_in_range (l l' : locals) (arg : string) :
  in_range l -> parse_arg int float l arg = Py.Ok l' -> in_range l'.
Proof.
  unfold parse_arg. intros Hl H.
  destruct (Hicbem.item 0 arg); [| discriminate H]. cbn [Py.bind] in H.
  destruct (negb (Ascii.eqb a "-")); [discriminate H |].
  destruct (Hicbem.item 1 arg) as [c1 |]; [| discriminate H].
  cbn [Py.bind] in H.
  repeat match type of H with
  | (if ?b then _ else _) = _ => destruct b
  end;
  eauto using option_g_in_range, option_a_in_range, option_c_in_range,
    option_r_in_range, option_e_in_range, option_d_in_range,
    option_t_in_range.
  discriminate H.
Qed.

Lemma parse_args_in_range (args : list string) (l l' : locals) :
  in_range l -> parse_args int float l args = Py.Ok l' -> in_range l'.
Proof.
  revert l. induction args as [| arg args IH]; intros l Hl H; cbn in H.
  - injection H as <-. exact Hl.
  - destruct (parse_arg int float l arg) as [l1 |] eqn:E; [| discriminate H].
    cbn [Py.bind] in H.
    exact (IH l1 (parse_arg_in_range l l1 arg Hl E) H).
Qed.

Lemma locals0_in_range : in_range locals0.
Proof.
  unfold in_range, locals0, _syntinum, _syntdir.
  cbn [gensynt netins shufnum syntdir convnets evalres].
  repeat split; try lia; cbn; auto.
Qed.

Lemma parseParams_in_range (args : list string) (l : locals) :
  parse_args int float locals0 args = Py.Ok l -> in_range l.
Proof. apply parse_args_in_range, locals0_in_range. Qed.

(** Every accepted argument is an option with one of the eight
    letters. *)
Lemma parse_arg_letter (l l' : locals) (arg : string) :
  parse_arg int float l arg = Py.Ok l' -> has_letter letters arg = true.
Proof.
  intros H.
  destruct (parse_arg_shape l arg _ H) as [[H1 _] | [[m H1] | [c [rest ->]]]];
    try discriminate H1.
  unfold parse_arg in H. cbn in H. unfold has_letter, letters. cbn.
  repeat match type of H with
  | (if ?b then _ else _) = _ => destruct b eqn:?
  end; try reflexivity; try discriminate H.
  all: repeat match goal with
       | E : (_ || _) = true |- _ => apply Bool.orb_true_iff in E; destruct E
       | E : Ascii.eqb _ _ = true |- _ => rewrite E
       end; cbn; rewrite ?Bool.orb_true_r; reflexivity.
Qed.

Lemma parse_args_letters (args : list string) (l l' : locals) :
  parse_args int float l args = Py.Ok l' ->
  forallb (has_letter letters) args = true.
Proof.
  revert l. induction args as [| arg args IH]; intros l H; cbn in *;
    [reflexivity |].
  destruct (parse_arg int float l arg) as [l1 |] eqn:E; [| discriminate H].
  cbn [Py.bind] in H.
  rewrite (parse_arg_letter _ _ _ E), (IH _ H). reflexivity.
Qed.

(** What the branches leave alone. *)
Lemma instances_frame (l l' : locals) (val0 : string) :
  instances int l val0 = Py.Ok l' ->
  runalgs l' = runalgs l /\ timeout l' = timeout l /\
  timemul l' = timemul l /\ datas l' = datas l.
Proof.
  unfold instances. intros H.
  destruct val0 as [| a val0]; [injection H as <-; auto |].
  destruct (split1 "." (String a val0)) as [nums0 nums1].
  inv_res; subst; cbn; auto.
Qed.

Lemma outpdir_frame (l l' : locals) (arg : string) (val1 : option string) :
  outpdir l arg val1 = Py.Ok l' ->
  runalgs l' = runalgs l /\ timeout l' = timeout l /\
  timemul l' = timemul l /\ datas l' = datas l.
Proof. unfold outpdir. intros H. inv_res; subst; cbn; auto. Qed.

Lemma option_g_frame (l l' : locals) (arg : string) :
  option_g int l arg = Py.Ok l' ->
  runalgs l' = runalgs l /\ timeout l' = timeout l /\
  timemul l' = timemul l /\ datas l' = datas l.
Proof.
  unfold option_g. intros H.
  inv_res; subst; cbn; auto;
    match goal with
    | Hi : instances _ ?l0 _ = Py.Ok ?m, Ho : outpdir ?m _ _ = Py.Ok _ |- _ =>
        destruct (instances_frame _ _ _ Hi) as (-> & -> & -> & ->) ||
        (destruct (instances_frame _ _ _ Hi) as (Ha & Hb & Hc & Hd);
         destruct (outpdir_frame _ _ _ _ Ho) as (Ha' & Hb' & Hc' & Hd');
         rewrite Ha', Hb', Hc', Hd', Ha, Hb, Hc, Hd; cbn; auto)
    end.
Qed.

Lemma parse_arg_frame (l l' : locals) (c : ascii) (rest : string) :
  parse_arg int float l (String "-" (String c rest)) = Py.Ok l' ->
  (c <> "r"%char -> runalgs l' = runalgs l) /\
  (c <> "t"%char -> timeout l' = timeout l /\ timemul l' = timemul l) /\
  (c <> "d"%char -> c <> "f"%char -> datas l' = datas l).
Proof.
  unfold parse_arg. cbn [Hicbem.item String.get Py.bind Ascii.eqb].
  cbn [Ascii.eqb Bool.eqb negb Py.bind]. cbn.
  intros H.
  repeat match type of H with
  | (if ?b then _ else _) = _ => destruct b eqn:?
  end; try discriminate H.
  - destruct (option_g_frame _ _ _ H) as (Ha & Hb & Hc & Hd). auto.
  - unfold option_a in H. inv_res; subst; cbn; auto.
  - unfold option_c in H. inv_res; subst; cbn; auto.
  - apply Ascii.eqb_eq in Heqb2. subst c.
    unfold option_r in H. inv_res; subst; cbn; intuition congruence.
  - unfold option_e in H. inv_res; subst; cbn; auto.
  - apply Bool.orb_true_iff in Heqb4.
    rewrite !Ascii.eqb_eq in Heqb4.
    unfold option_d in H. inv_res; subst; cbn; intuition congruence.
  - apply Ascii.eqb_eq in Heqb5. subst c.
    unfold option_t in H. inv_res; subst; cbn; intuition congruence.
Qed.

(** [runalgs] becomes true at the argument [-r] and nowhere else. *)
Lemma parse_arg_runalgs (l l' : locals) (arg : string) :
  parse_arg int float l arg = Py.Ok l' ->
  runalgs l' = runalgs l || String.eqb arg "-r".
Proof.
  intros H.
  destruct (parse_arg_shape l arg _ H) as [[H1 _] | [[m H1] | [c [rest ->]]]];
    try discriminate H1.
  destruct (Ascii.eqb_spec c "r") as [-> | Hc].
  - unfold parse_arg in H. cbn in H. unfold option_r in H.
    destruct (String.eqb_spec (String "-" (String "r" rest)) "-r")
      as [E | E]; [| discriminate H].
    cbn in H. injection H as <-. cbn. symmetry. apply Bool.orb_true_r.
  - destruct (parse_arg_frame l l' c rest H) as (Hr & _). rewrite (Hr Hc).
    destruct (String.eqb_spec (String "-" (String c rest)) "-r") as [E | E].
    + injection E as -> _. congruence.
    + symmetry. apply Bool.orb_false_r.
Qed.

Lemma parse_args_runalgs (args : list string) (l l' : locals) :
  parse_args int float l args = Py.Ok l' ->
  runalgs l' = runalgs l || existsb (fun arg => String.eqb arg "-r") args.
Proof.
  revert l. induction args as [| arg args IH]; intros l H; cbn in *.
  - injection H as <-. symmetry. apply Bool.orb_false_r.
  - destruct (parse_arg int float l arg) as [l1 |] eqn:E; [| discriminate H].
    cbn [Py.bind] in H.
    rewrite (IH _ H), (parse_arg_runalgs _ _ _ E). symmetry.
    apply Bool.orb_assoc.
Qed.

(** Arguments other than time options leave [timeout] and [timemul]
    alone. *)
Lemma parse_args_no_time (args : list string) (l l' : locals) :
  forallb (fun arg => negb (has_letter ["t"%char] arg)) args = true ->
  parse_args int float l args = Py.Ok l' ->
  timeout l' = timeout l /\ timemul l' = timemul l.
Proof.
  revert l. induction args as [| arg args IH]; intros l Hall H; cbn in *.
  - injection H as <-. auto.
  - destruct (parse_arg int float l arg) as [l1 |] eqn:E; [| discriminate H].
    cbn [Py.bind] in H.
    apply Bool.andb_true_iff in Hall. destruct Hall as [Harg Hall].
    destruct (IH _ Hall H) as [-> ->].
    destruct (parse_arg_shape l arg _ E)
      as [[H1 _] | [[m H1] | [c [rest ->]]]]; try discriminate H1.
    destruct (parse_arg_frame l l1 c rest E) as (_ & Ht & _).
    apply Ht. intros ->. discriminate Harg.
Qed.

(** The branch of [-t] on an argument that starts with [-t], an optional
    unit and [=]. *)
Lemma option_t_value (l : locals) (arg value : string) (c2 : ascii)
    (pos : Z) :
  Hicbem.item 2 arg = Py.Ok c2 ->
  Hicbem.chr_in c2 "smh=" = true ->
  find "=" 2 arg = pos ->
  pos <> -1 ->
  slice_from (Z.to_nat (pos + 1)) arg = value ->
  Hicbem.len arg <> pos + 1 ->
  option_t float l arg
  = (let l := if Ascii.eqb c2 "m" then set_timemul 60 l
              else if Ascii.eqb c2 "h" then set_timemul 3600 l
              else l in
     x <-? float value ;;
     Py.Ok (set_timeout (x * inject_Z (timemul l)) l)).
Proof.
  intros Hitem Hin Hfind Hpos Hslice Hlen.
  apply Z.eqb_neq in Hpos, Hlen.
  unfold option_t. cbv zeta. rewrite Hfind, Hitem, Hpos.
  cbn [Py.bind]. rewrite Hin, Hslice, Hlen. reflexivity.
Qed.

Lemma len_append (s t : string) :
  Hicbem.len (s ++ t) = Hicbem.len s + Hicbem.len t.
Proof.
  unfold Hicbem.len. induction s as [| a s IH]; [reflexivity |].
  cbn [String.append String.length]. lia.
Qed.

Lemma len_value (b : string) : b <> "" -> 0 < Hicbem.len b.
Proof.
  destruct b; [congruence |]. intros _. unfold Hicbem.len. cbn. lia.
Qed.

(** A time option without a value is refused. *)
Lemma option_t_no_value (l : locals) (u : string) :
  In u ["-ts="; "-t="; "-tm="; "-th="] ->
  parse_arg int float l u = Py.Raise (unexpected u).
Proof.
  intros Hu. cbn in Hu.
  repeat (destruct Hu as [<- | Hu]; [reflexivity |]). destruct Hu.
Qed.

Lemma parse_arg_time (l : locals) (u b : string) :
  In u ["-ts="; "-t="; "-tm="; "-th="] ->
  b <> "" ->
  parse_arg int float l (u ++ b)
  = (let l := if String.eqb u "-tm=" then set_timemul 60 l
              else if String.eqb u "-th=" then set_timemul 3600 l
              else l in
     x <-? float b ;;
     Py.Ok (set_timeout (x * inject_Z (timemul l)) l)).
Proof.
  intros Hu Hb. apply len_value in Hb. cbn in Hu.
  destruct Hu as [<- | [<- | [<- | [<- | []]]]].
  - unfold parse_arg. cbn [String.append Hicbem.item String.get Py.bind].
    cbn [Ascii.eqb Bool.eqb negb andb orb].
    rewrite (option_t_value l _ b "s" 3); try reflexivity; try lia.
    unfold Hicbem.len in *. cbn [String.length]. lia.
  - unfold parse_arg. cbn [String.append Hicbem.item String.get Py.bind].
    cbn [Ascii.eqb Bool.eqb negb andb orb].
    rewrite (option_t_value l _ b "=" 2); try reflexivity; try lia.
    unfold Hicbem.len in *. cbn [String.length]. lia.
  - unfold parse_arg. cbn [String.append Hicbem.item String.get Py.bind].
    cbn [Ascii.eqb Bool.eqb negb andb orb].
    rewrite (option_t_value l _ b "m" 3); try reflexivity; try lia.
    unfold Hicbem.len in *. cbn [String.length]. lia.
  - unfold parse_arg. cbn [String.append Hicbem.item String.get Py.bind].
    cbn [Ascii.eqb Bool.eqb negb andb orb].
    rewrite (option_t_value l _ b "h" 3); try reflexivity; try lia.
    unfold Hicbem.len in *. cbn [String.length]. lia.
Qed.

Lemma parse_arg_time_ok (l l' : locals) (u b : string) :
  In u ["-ts="; "-t="; "-tm="; "-th="] ->
  parse_arg int float l (u ++ b) = Py.Ok l' ->
  exists x,
    float b = Py.Ok x /\
    timemul l' = (if String.eqb u "-tm=" then 60
                  else if String.eqb u "-th=" then 3600 else timemul l) /\
    timeout l' = (x * inject_Z (timemul l'))%Q.
Proof.
  intros Hu H.
  destruct (string_dec b "") as [-> | Hb].
  - assert (E : (u ++ "")%string = u).
    { cbn in Hu. repeat (destruct Hu as [<- | Hu]; [reflexivity |]).
      destruct Hu. }
    rewrite E, (option_t_no_value l u Hu) in H. discriminate H.
  - rewrite (parse_arg_time l u b Hu Hb) in H. cbv zeta in H.
    destruct (float b) as [x |]; [| discriminate H]. cbn [Py.bind] in H.
    exists x. split; [reflexivity |]. injection H as <-.
    destruct (String.eqb u "-tm="); [cbn; auto |].
    destruct (String.eqb u "-th="); cbn; auto.
Qed.

(** The multiplier set by [-tm] or [-th] is still there when a later time
    option gives seconds. *)
Lemma parse_args_sticky (pre mid post : list string) (m u a b : string)
    (k : Z) (y : Q) (l l' : locals) :
  In (m, k) [("-tm=", 60); ("-th=", 3600)] ->
  In u ["-ts="; "-t="] ->
  forallb (fun arg => negb (has_letter ["t"%char] arg)) mid = true ->
  forallb (fun arg => negb (has_letter ["t"%char] arg)) post = true ->
  float b = Py.Ok y ->
  parse_args int float l (pre ++ [m ++ a] ++ mid ++ [u ++ b] ++ post)
  = Py.Ok l' ->
  timeout l' = (y * inject_Z k)%Q.
Proof.
  intros Hm Hu Hmid Hpost Hb H.
  rewrite parse_args_app in H.
  destruct (parse_args int float l pre) as [l1 |]; [| discriminate H].
  cbn [Py.bind parse_args app] in H.
  destruct (parse_arg int float l1 (m ++ a)) as [l2 |] eqn:E2;
    [| discriminate H].
  cbn [Py.bind] in H. rewrite parse_args_app in H.
  destruct (parse_args int float l2 mid) as [l3 |] eqn:E3;
    [| discriminate H].
  cbn [Py.bind parse_args app] in H.
  destruct (parse_arg int float l3 (u ++ b)) as [l4 |] eqn:E4;
    [| discriminate H].
  cbn [Py.bind] in H.
  destruct (parse_args_no_time post l4 l' Hpost H) as [-> _].
  destruct (parse_args_no_time mid l2 l3 Hmid E3) as [_ Hmul].
  assert (Hk : timemul l2 = k).
  { assert (Hm' : In m ["-ts="; "-t="; "-tm="; "-th="]).
    { cbn in Hm |- *. destruct Hm as [Hm | [Hm | []]];
        injection Hm as <- _; auto. }
    destruct (parse_arg_time_ok l1 l2 m a Hm' E2) as (x & _ & Hx & _).
    rewrite Hx. cbn in Hm.
    destruct Hm as [Hm | [Hm | []]]; injection Hm as <- <-; reflexivity. }
  assert (Hu' : In u ["-ts="; "-t="; "-tm="; "-th="])
    by (cbn in Hu |- *; tauto).
  destruct (parse_arg_time_ok l3 l4 u b Hu' E4) as (x & Hx & Hx1 & Hx2).
  rewrite Hx2, Hx1.
  assert (x = y) by congruence. subst x.
  cbn in Hu. destruct Hu as [<- | [<- | []]]; cbn; congruence.
Qed.

(** *** The exceptions of parseParams *)

Lemma item_in_range (i : nat) (s : string) :
  (Z.of_nat i <? Hicbem.len s) = true -> exists c, Hicbem.item i s = Py.Ok c.
Proof.
  unfold Hicbem.len, Hicbem.item. intros H. apply Z.ltb_lt in H.
  assert (Hi : (i < String.length s)%nat) by lia. clear H.
  revert i Hi. induction s as [| a s IH]; intros i Hi; cbn in Hi; [lia |].
  destruct i as [| i]; cbn; [eauto |]. apply IH. lia.
Qed.

Lemma check_char_raises (allowed arg : string) (i : nat) (e : Py.exc) :
  check_char allowed arg i = Py.Raise e -> e = unexpected arg.
Proof.
  unfold check_char. intros H.
  destruct (Z.of_nat i <? Hicbem.len arg) eqn:E; [| discriminate H].
  destruct (item_in_range i arg E) as [c Hc]. rewrite Hc in H.
  cbn [Py.bind] in H.
  destruct (negb (Hicbem.chr_in c allowed)); [| discriminate H].
  injection H as <-. reflexivity.
Qed.

Section Raises.

Hypothesis int_raises : raises_ValueError int.
Hypothesis float_raises : raises_ValueError float.

Ltac value_error :=
  match goal with
  | |- exists m, ?e = Py.ValueError m =>
      first [ eexists; reflexivity
            | match goal with
              | E : int _ = Py.Raise _ |- _ => exact (int_raises _ _ E)
              | E : float _ = Py.Raise _ |- _ => exact (float_raises _ _ E)
              | E : check_char _ _ _ = Py.Raise _ |- _ =>
                  rewrite (check_char_raises _ _ _ _ E); eexists; reflexivity
              end ]
  end.

Lemma instances_raises (l : locals) (val0 : string) (e : Py.exc) :
  instances int l val0 = Py.Raise e -> exists m, e = Py.ValueError m.
Proof.
  unfold instances. intros H.
  destruct val0 as [| a val0]; [discriminate H |].
  destruct (split1 "." (String a val0)) as [nums0 nums1].
  inv_res; subst; value_error.
Qed.

Lemma outpdir_raises (l : locals) (arg : string) (val1 : option string)
    (e : Py.exc) :
  outpdir l arg val1 = Py.Raise e -> exists m, e = Py.ValueError m.
Proof. unfold outpdir. intros H. inv_res; subst; value_error. Qed.

Lemma option_g_raises (l : locals) (c : ascii) (rest : string) (e : Py.exc) :
  option_g int l (String "-" (String c rest)) = Py.Raise e ->
  exists m, e = Py.ValueError m.
Proof.
  unfold option_g. intros H.
  destruct rest as [| c2 rest]; [discriminate H |].
  set (arg := String "-" (String c (String c2 rest))) in *.
  assert (H2 : Hicbem.item 2 arg = Py.Ok c2) by reflexivity.
  clearbody arg. cbv zeta in H. rewrite H2 in H. cbn [Py.bind] in H.
  inv_res; subst;
    first [ value_error
          | eapply instances_raises; eassumption
          | eapply outpdir_raises; eassumption ].
Qed.

Lemma option_e_raises (l : locals) (c : ascii) (rest : string) (e : Py.exc) :
  option_e l (String "-" (String c rest)) = Py.Raise e ->
  exists m, e = Py.ValueError m.
Proof.
  unfold option_e. intros H.
  destruct rest as [| c2 rest].
  - cbn in H. discriminate H.
  - set (arg := String "-" (String c (String c2 rest))) in *.
    assert (H2 : Hicbem.item 2 arg = Py.Ok c2) by reflexivity.
    clearbody arg. rewrite H2 in H.
    inv_res; subst; value_error.
Qed.

Lemma option_d_raises (l : locals) (c : ascii) (rest : string) (e : Py.exc) :
  option_d l (String "-" (String c rest)) = Py.Raise e ->
  exists m, e = Py.ValueError m.
Proof.
  unfold option_d. intros H.
  destruct rest as [| c2 rest]; [cbn in H; injection H as <-; value_error |].
  destruct (Ascii.eqb_spec c2 "g") as [-> | Hg].
  - destruct rest as [| c3 rest];
      [cbn in H; injection H as <-; value_error |].
    set (arg := String "-" (String c (String "g" (String c3 rest)))) in *.
    assert (H2 : Hicbem.item 2 arg = Py.Ok "g"%char) by reflexivity.
    assert (H3 : Hicbem.item 3 arg = Py.Ok c3) by reflexivity.
    clearbody arg. cbv zeta in H. rewrite H2 in H. cbn [Py.bind] in H.
    change (Ascii.eqb "g" "g") with true in H. cbv iota in H.
    rewrite H3 in H. cbn [Py.bind] in H.
    inv_res; subst; value_error.
  - set (arg := String "-" (String c (String c2 rest))) in *.
    assert (H2 : Hicbem.item 2 arg = Py.Ok c2) by reflexivity.
    clearbody arg. cbv zeta in H. rewrite H2 in H. cbn [Py.bind] in H.
    apply Ascii.eqb_neq in Hg. rewrite Hg in H. cbn [Py.bind] in H.
    inv_res; subst; value_error.
Qed.

Lemma option_t_raises (l : locals) (c : ascii) (rest : string) (e : Py.exc) :
  option_t float l (String "-" (String c rest)) = Py.Raise e ->
  exists m, e = Py.ValueError m.
Proof.
  unfold option_t. intros H.
  destruct rest as [| c2 rest]; [cbn in H; injection H as <-; value_error |].
  set (arg := String "-" (String c (String c2 rest))) in *.
  assert (H2 : Hicbem.item 2 arg = Py.Ok c2) by reflexivity.
  clearbody arg. cbv zeta in H. rewrite H2 in H. cbn [Py.bind] in H.
  inv_res; subst; value_error.
Qed.

Lemma parse_arg_raises (l : locals) (arg : string) (e : Py.exc) :
  parse_arg int float l arg = Py.Raise e ->
  (e = Py.IndexError /\ (arg = "" \/ arg = "-"))
  \/ exists m, e = Py.ValueError m.
Proof.
  intros H.
  destruct (parse_arg_shape l arg _ H) as [[H1 H2] | [[m H1] | [c [rest ->]]]].
  - injection H1 as ->. left. auto.
  - injection H1 as ->. right. eauto.
  - right. unfold parse_arg in H. cbn in H.
    repeat match type of H with
    | (if ?b then _ else _) = _ => destruct b eqn:?
    end.
    + exact (option_g_raises _ _ _ _ H).
    + unfold option_a in H. inv_res; subst; value_error.
    + unfold option_c in H. inv_res; subst; value_error.
    + unfold option_r in H. inv_res; subst; value_error.
    + exact (option_e_raises _ _ _ _ H).
    + exact (option_d_raises _ _ _ _ H).
    + exact (option_t_raises _ _ _ _ H).
    + injection H as <-. value_error.
Qed.

Lemma parse_args_raises (args : list string) (l : locals) (e : Py.exc) :
  parse_args int float l args = Py.Raise e ->
  (e = Py.IndexError /\ (In "" args \/ In "-" args))
  \/ exists m, e = Py.ValueError m.
Proof.
  revert l. induction args as [| arg args IH]; intros l H; cbn in H;
    [discriminate H |].
  destruct (parse_arg int float l arg) as [l1 |] eqn:E; cbn [Py.bind] in H.
  - destruct (IH _ H) as [[He Hin] | Hv]; [left | right; exact Hv].
    split; [exact He |]. cbn. tauto.
  - injection H as <-.
    destruct (parse_arg_raises _ _ _ E) as [[He Hin] | Hv];
      [left | right; exact Hv].
    split; [exact He |]. cbn. destruct Hin as [-> | ->]; auto.
Qed.

End Raises.

(** *** The datasets of parseParams *)

Lemma lstrip_first (chars s : string) (c : ascii) :
  first_char (lstrip chars s) = Some c -> Hicbem.chr_in c chars = false.
Proof.
  induction s as [| a s IH]; cbn [lstrip]; [discriminate |].
  destruct (Hicbem.chr_in a chars) eqn:E; [exact IH |].
  cbn. intros H. injection H as <-. exact E.
Qed.

Lemma rstrip_first (chars s : string) (c : ascii) :
  first_char (rstrip chars s) = Some c -> first_char s = Some c.
Proof.
  destruct s as [| a s]; cbn [rstrip]; [discriminate |].
  destruct (rstrip chars s); [| exact (fun H => H)].
  destruct (Hicbem.chr_in a chars); [discriminate | exact (fun H => H)].
Qed.

Lemma rstrip_last (chars s : string) (c : ascii) :
  last_char (rstrip chars s) = Some c -> Hicbem.chr_in c chars = false.
Proof.
  induction s as [| a s IH]; cbn [rstrip]; [discriminate |].
  destruct (rstrip chars s) as [| b r] eqn:E.
  - destruct (Hicbem.chr_in a chars) eqn:Ea; [discriminate |].
    cbn. intros H. injection H as <-. exact Ea.
  - exact IH.
Qed.

Lemma strip_unquoted (s : string) : unquoted (strip quotes s).
Proof.
  unfold unquoted, strip. split; intros c H.
  - apply rstrip_first in H. exact (lstrip_first _ _ _ H).
  - exact (rstrip_last _ _ _ H).
Qed.

(** The entry a dataset option appends. *)
Lemma option_d_appends (l l' : locals) (arg : string) :
  option_d l arg = Py.Ok l' ->
  exists asym path,
    datas l' = (datas l ++ [(asym, path, third_is_g arg)])%list /\
    unquoted path.
Proof.
  unfold option_d, third_is_g, Hicbem.item. intros H.
  destruct (String.get 2 arg) as [c2 |]; inv_res; subst;
    repeat match goal with
    | E : (_, _) = (_, _) |- _ => injection E as ? ?; subst
    end;
    cbn [datas append_datas];
    match goal with
    | E : Ascii.eqb _ "g" = _ |- _ => rewrite E
    end;
    eexists; eexists; (split; [reflexivity | apply strip_unquoted]).
Qed.

Lemma parse_arg_datas (l l' : locals) (arg : string) :
  parse_arg int float l arg = Py.Ok l' ->
  if has_letter ["d"; "f"]%char arg then
    exists asym path,
      datas l' = (datas l ++ [(asym, path, third_is_g arg)])%list /\
      unquoted path
  else datas l' = datas l.
Proof.
  intros H.
  destruct (parse_arg_shape l arg _ H) as [[H1 _] | [[m H1] | [c [rest ->]]]];
    try discriminate H1.
  unfold has_letter. cbn [option_letter existsb].
  rewrite Bool.orb_false_r.
  destruct (Ascii.eqb c "d" || Ascii.eqb c "f") eqn:E.
  - apply option_d_appends.
    unfold parse_arg in H. cbn in H.
    apply Bool.orb_true_iff in E. rewrite !Ascii.eqb_eq in E.
    destruct E as [-> | ->]; exact H.
  - apply Bool.orb_false_iff in E. rewrite !Ascii.eqb_neq in E.
    destruct (parse_arg_frame l l' c rest H) as (_ & _ & Hd).
    apply Hd; tauto.
Qed.

Lemma parse_args_datas (args : list string) (l l' : locals) :
  parse_args int float l args = Py.Ok l' ->
  exists new,
    datas l' = (datas l ++ new)%list /\
    map snd new
    = map third_is_g (filter (has_letter ["d"; "f"]%char) args) /\
    Forall (fun d => unquoted (snd (fst d))) new.
Proof.
  revert l. induction args as [| arg args IH]; intros l H; cbn in H.
  - injection H as <-. exists []. rewrite app_nil_r. auto.
  - destruct (parse_arg int float l arg) as [l1 |] eqn:E; [| discriminate H].
    cbn [Py.bind] in H.
    destruct (IH _ H) as (new & Hnew & Hgen & Hpaths).
    pose proof (parse_arg_datas _ _ _ E) as Harg.
    cbn [filter].
    destruct (has_letter ["d"; "f"]%char arg).
    + destruct Harg as (asym & path & Hd & Hq).
      exists ((asym, path, third_is_g arg) :: new).
      rewrite Hnew, Hd, <- app_assoc. cbn [app map snd].
      rewrite Hgen. repeat split. constructor; assumption.
    + exists new. rewrite Hnew, Harg. auto.
Qed.

End BenchmarkParamsFacts.

Lemma parseParams_accepted (int : string -> Py.res Z)
    (float : string -> Py.res Q) (args : list string)
    (r : Z * Z * Z * string * Z * bool * Z * list BenchmarkParams.data * Q
         * option (list string)) :
  BenchmarkParams.parseParams int float args = Py.Ok r ->
  args <> [] /\
  exists l,
    BenchmarkParams.parse_args int float BenchmarkParams.locals0 args
    = Py.Ok l /\
    r = (BenchmarkParams.gensynt l, BenchmarkParams.netins l,
         BenchmarkParams.shufnum l, BenchmarkParams.syntdir l,
         BenchmarkParams.convnets l, BenchmarkParams.runalgs l,
         BenchmarkParams.evalres l, BenchmarkParams.datas l,
         BenchmarkParams.timeout l, BenchmarkParams.algorithms l).
Proof.
  unfold BenchmarkParams.parseParams. intros H.
  destruct args as [| a args]; [discriminate H |].
  split; [discriminate |].
  destruct (BenchmarkParams.parse_args int float BenchmarkParams.locals0
              (a :: args)) as [l |]; [| discriminate H].
  cbn [Py.bind] in H. injection H as <-. exists l. auto.
Qed.

Lemma int_decimal_raises : ParamsReference.raises_ValueError Hicbem.int_decimal.
Proof.
  intros s e H. unfold Hicbem.int_decimal in H.
  repeat match type of H with
  | context [match ?x with _ => _ end] => destruct x
  end; first [discriminate H | injection H as <-; eexists; reflexivity].
Qed.

Lemma float_decimal_raises :
  ParamsReference.raises_ValueError BenchmarkParams.float_decimal.
Proof.
  intros s e H. unfold BenchmarkParams.float_decimal in H.
  destruct (Hicbem.int_decimal s) eqn:E; [discriminate H |].
  injection H as <-. exact (int_decimal_raises s e0 E).
Qed.

(** X19: whatever [parseParams] of benchmark.py returns, [gensynt] is 0,
    1 or 2, [netins] and [shufnum] are not negative, [convnets] is one of
    0, 1, 3, 5 and 7, and [evalres] is one of 0, 1, 2 and 3. *)
Theorem parseParams_flag_ranges
    (int : string -> Py.res Z) (float : string -> Py.res Q)
    (args : list string) (gensynt netins shufnum : Z) (syntdir : string)
    (convnets : Z) (runalgs : bool) (evalres : Z)
    (datas : list BenchmarkParams.data) (timeout : Q)
    (algorithms : option (list string)) :
  BenchmarkParams.parseParams int float args
  = Py.Ok (gensynt, netins, shufnum, syntdir, convnets, runalgs, evalres,
           datas, timeout, algorithms) ->
  In gensynt [0; 1; 2] /\ 0 <= netins /\ 0 <= shufnum /\
  In convnets [0; 1; 3; 5; 7] /\ In evalres [0; 1; 2; 3].
Proof.
  intros H.
  destruct (parseParams_accepted _ _ _ _ H) as (_ & l & Hl & Hr).
  injection Hr as -> -> -> -> -> -> -> -> -> ->.
  pose proof (parseParams_in_range int float args l Hl) as Hin.
  unfold ParamsReference.in_range in Hin. tauto.
Qed.

Lemma parseParams_flag_ranges_witness :
  In 2 [0; 1; 2] /\ 0 <= 0 /\ 0 <= 4 /\ In 5 [0; 1; 3; 5; 7] /\
  In 1 [0; 1; 2; 3].
Proof.
  apply (parseParams_flag_ranges Hicbem.int_decimal
           BenchmarkParams.float_decimal ["-gf=.4"; "-cr"; "-en"]
           2 0 4 "syntnets/" 5 false 1 [] (inject_Z 129600) None).
  reflexivity.
Defined.

(** X20: the [syntdir] that [parseParams] of benchmark.py returns always
    ends with a slash, also when the directory given to [-g] is empty once
    its quotes are stripped. *)
Theorem parseParams_syntdir_slash
    (int : string -> Py.res Z) (float : string -> Py.res Q)
    (args : list string) (gensynt netins shufnum : Z) (syntdir : string)
    (convnets : Z) (runalgs : bool) (evalres : Z)
    (datas : list BenchmarkParams.data) (timeout : Q)
    (algorithms : option (list string)) :
  BenchmarkParams.parseParams int float args
  = Py.Ok (gensynt, netins, shufnum, syntdir, convnets, runalgs, evalres,
           datas, timeout, algorithms) ->
  BenchmarkParams.endswith "/" syntdir = true.
Proof.
  intros H.
  destruct (parseParams_accepted _ _ _ _ H) as (_ & l & Hl & Hr).
  injection Hr as -> -> -> -> -> -> -> -> -> ->.
  pose proof (parseParams_in_range int float args l Hl) as Hin.
  unfold ParamsReference.in_range in Hin. tauto.
Qed.

Lemma parseParams_syntdir_slash_witness :
  BenchmarkParams.endswith "/" "/" = true.
Proof.
  apply (parseParams_syntdir_slash Hicbem.int_decimal
           BenchmarkParams.float_decimal ["-g=='"]
           1 5 0 "/" 0 false 0 [] (inject_Z 129600) None).
  reflexivity.
Defined.

(** X21: [parseParams] of benchmark.py accepts only non-empty argument
    lists in which every argument is a dash followed by one of the letters
    [g], [a], [c], [r], [e], [d], [f] and [t]. *)
Theorem parseParams_accepts_options_only
    (int : string -> Py.res Z) (float : string -> Py.res Q)
    (args : list string)
    (r : Z * Z * Z * string * Z * bool * Z * list BenchmarkParams.data * Q
         * option (list string)) :
  BenchmarkParams.parseParams int float args = Py.Ok r ->
  args <> [] /\
  forallb (ParamsReference.has_letter ParamsReference.letters) args = true.
Proof.
  intros H.
  destruct (parseParams_accepted _ _ _ _ H) as (Hne & l & Hl & _).
  split; [exact Hne |].
  exact (parse_args_letters int float args _ l Hl).
Qed.

Lemma parseParams_accepts_options_only_witness :
  ["-r"; "-e"; "-d=nets"] <> [] /\
  forallb (ParamsReference.has_letter ParamsReference.letters)
    ["-r"; "-e"; "-d=nets"] = true.
Proof.
  apply (parseParams_accepts_options_only Hicbem.int_decimal
           BenchmarkParams.float_decimal ["-r"; "-e"; "-d=nets"]
           (0, 5, 0, "syntnets/", 0, true, 3, [(None, "nets", false)],
            inject_Z 129600, None)).
  reflexivity.
Defined.

(** X22: the time multiplier of benchmark.py's [parseParams] is never
    reset: after [-tm=...] or [-th=...], a later [-ts=b] or [-t=b] that is
    the last time option yields [float(b)] times 60 or 3600, not
    [float(b)] seconds. *)
Theorem parseParams_time_multiplier_sticks
    (int : string -> Py.res Z) (float : string -> Py.res Q)
    (pre mid post : list string) (m u a b : string) (k : Z) (y : Q)
    (gensynt netins shufnum : Z) (syntdir : string)
    (convnets : Z) (runalgs : bool) (evalres : Z)
    (datas : list BenchmarkParams.data) (timeout : Q)
    (algorithms : option (list string)) :
  In (m, k) [("-tm=", 60); ("-th=", 3600)] ->
  In u ["-ts="; "-t="] ->
  forallb (fun arg => negb (ParamsReference.has_letter ["t"%char] arg)) mid
  = true ->
  forallb (fun arg => negb (ParamsReference.has_letter ["t"%char] arg)) post
  = true ->
  float b = Py.Ok y ->
  BenchmarkParams.parseParams int float
    (pre ++ [(m ++ a)%string] ++ mid ++ [(u ++ b)%string] ++ post)%list
  = Py.Ok (gensynt, netins, shufnum, syntdir, convnets, runalgs, evalres,
           datas, timeout, algorithms) ->
  timeout = (y * inject_Z k)%Q.
Proof.
  intros Hm Hu Hmid Hpost Hb H.
  destruct (parseParams_accepted _ _ _ _ H) as (_ & l & Hl & Hr).
  injection Hr as -> -> -> -> -> -> -> -> -> ->.
  exact (parse_args_sticky int float pre mid post m u a b k y _ l
           Hm Hu Hmid Hpost Hb Hl).
Qed.

Lemma parseParams_time_multiplier_sticks_witness :
  (inject_Z 5 * inject_Z 3600)%Q = (inject_Z 5 * inject_Z 3600)%Q.
Proof.
  apply (parseParams_time_multiplier_sticks Hicbem.int_decimal
           BenchmarkParams.float_decimal ["-r"] ["-e"] ["-c"]
           "-th=" "-ts=" "2" "5" 3600 (inject_Z 5)
           0 5 0 "syntnets/" 1 true 3 [] (inject_Z 5 * inject_Z 3600)%Q None).
  - right. left. reflexivity.
  - left. reflexivity.
  - reflexivity.
  - reflexivity.
  - reflexivity.
  - reflexivity.
Defined.

(** X23: [parseParams] of benchmark.py returns [runalgs] true exactly
    when one of the arguments is [-r]. *)
Theorem parseParams_runalgs
    (int : string -> Py.res Z) (float : string -> Py.res Q)
    (args : list string) (gensynt netins shufnum : Z) (syntdir : string)
    (convnets : Z) (runalgs : bool) (evalres : Z)
    (datas : list BenchmarkParams.data) (timeout : Q)
    (algorithms : option (list string)) :
  BenchmarkParams.parseParams int float args
  = Py.Ok (gensynt, netins, shufnum, syntdir, convnets, runalgs, evalres,
           datas, timeout, algorithms) ->
  runalgs = true <-> In "-r" args.
Proof.
  intros H.
  destruct (parseParams_accepted _ _ _ _ H) as (_ & l & Hl & Hr).
  injection Hr as -> -> -> -> -> -> -> -> -> ->.
  rewrite (parse_args_runalgs int float args _ l Hl).
  change (BenchmarkParams.runalgs BenchmarkParams.locals0) with false.
  cbn [orb]. rewrite existsb_exists. split.
  - intros (x & Hin & Hx). apply String.eqb_eq in Hx. subst x. exact Hin.
  - intros Hin. exists "-r". split; [exact Hin | reflexivity].
Qed.

Lemma parseParams_runalgs_witness : true = true <-> In "-r" ["-e"; "-r"].
Proof.
  apply (parseParams_runalgs Hicbem.int_decimal
           BenchmarkParams.float_decimal ["-e"; "-r"]
           0 5 0 "syntnets/" 0 true 3 [] (inject_Z 129600) None).
  reflexivity.
Defined.

(** X24: when [int] and [float] raise nothing but [ValueError],
    [parseParams] of benchmark.py raises [AssertionError] on an empty
    argument list and otherwise only [ValueError] or [IndexError], the
    latter only when one of the arguments is empty or a lone dash. *)
Theorem parseParams_raises_only
    (int : string -> Py.res Z) (float : string -> Py.res Q)
    (args : list string) (e : Py.exc) :
  ParamsReference.raises_ValueError int ->
  ParamsReference.raises_ValueError float ->
  BenchmarkParams.parseParams int float args = Py.Raise e ->
  (args = [] /\ e = Py.AssertionError "Input arguments must be specified")
  \/ (e = Py.IndexError /\ (In "" args \/ In "-" args))
  \/ exists m, e = Py.ValueError m.
Proof.
  intros Hint Hfloat H. unfold BenchmarkParams.parseParams in H.
  destruct args as [| a args]; [injection H as <-; left; auto |].
  right.
  destruct (BenchmarkParams.parse_args int float BenchmarkParams.locals0
              (a :: args)) as [l |] eqn:E; [discriminate H |].
  cbn [Py.bind] in H. injection H as <-.
  exact (parse_args_raises int float Hint Hfloat _ _ _ E).
Qed.

Lemma parseParams_raises_only_witness :
  (["-r"; "-"] = [] /\
   Py.IndexError = Py.AssertionError "Input arguments must be specified")
  \/ (Py.IndexError = Py.IndexError /\
      (In "" ["-r"; "-"] \/ In "-" ["-r"; "-"]))
  \/ exists m, Py.IndexError = Py.ValueError m.
Proof.
  apply (parseParams_raises_only Hicbem.int_decimal
           BenchmarkParams.float_decimal ["-r"; "-"] Py.IndexError).
  - exact int_decimal_raises.
  - exact float_decimal_raises.
  - reflexivity.
Defined.

(** X25: [parseParams] of benchmark.py returns one entry of [datas] per
    [-d] or [-f] argument, in the order of the arguments; the [gen] flag
    of an entry tells whether the third character of its argument is [g],
    and its path neither starts nor ends with a quote. *)
Theorem parseParams_datas
    (int : string -> Py.res Z) (float : string -> Py.res Q)
    (args : list string) (gensynt netins shufnum : Z) (syntdir : string)
    (convnets : Z) (runalgs : bool) (evalres : Z)
    (datas : list BenchmarkParams.data) (timeout : Q)
    (algorithms : option (list string)) :
  BenchmarkParams.parseParams int float args
  = Py.Ok (gensynt, netins, shufnum, syntdir, convnets, runalgs, evalres,
           datas, timeout, algorithms) ->
  map snd datas
  = map ParamsReference.third_is_g
      (filter (ParamsReference.has_letter ["d"; "f"]%char) args) /\
  Forall (fun d => ParamsReference.unquoted (snd (fst d))) datas.
Proof.
  intros H.
  destruct (parseParams_accepted _ _ _ _ H) as (_ & l & Hl & Hr).
  injection Hr as -> -> -> -> -> -> -> -> -> ->.
  destruct (parse_args_datas int float args _ l Hl) as (new & Hd & Hg & Hq).
  cbn [BenchmarkParams.datas BenchmarkParams.locals0 app] in Hd.
  rewrite Hd. auto.
Qed.

Lemma parseParams_datas_witness :
  map snd [(None, "a", false); (Some true, "b c", true)]
  = map ParamsReference.third_is_g
      (filter (ParamsReference.has_letter ["d"; "f"]%char)
         ["-d=a"; "-r"; "-fga='b c'"]) /\
  Forall (fun d : BenchmarkParams.data =>
            ParamsReference.unquoted (snd (fst d)))
    [(None, "a", false); (Some true, "b c", true)].
Proof.
  apply (parseParams_datas Hicbem.int_decimal BenchmarkParams.float_decimal
           ["-d=a"; "-r"; "-fga='b c'"]
           0 5 0 "syntnets/" 0 true 0
           [(None, "a", false); (Some true, "b c", true)]
           (inject_Z 129600) None).
  reflexivity.
Defined.

(** ** The conversion of networks *)

Section ConversionFacts.
Import Conversion ConversionReference.

Variable Pool : Type.
Variable truth : Pool -> bool.
Variable ExecPool : Z -> Pool.
Variable pool_execute : job -> Pool -> Pool * option exc.
Variable pool_join : Z -> Pool -> Pool * option exc.
Variable pyexec : string.
Variable cpu_count : Z.
Variable iglob : string -> list string.
Variable split : string -> string * string.
Variable splitext : string -> string * string.

Local Abbreviation convertNet := (convertNet Pool pool_execute pyexec split splitext).
Local Abbreviation convertNets :=
  (convertNets Pool truth ExecPool pool_execute pool_join pyexec cpu_count
     iglob split splitext).
Local Abbreviation convert :=
  (convert Pool truth ExecPool pool_execute pool_join pyexec cpu_count
     iglob split splitext).

(** Without a pool [convertNet] reports an [AttributeError] and submits
    nothing. *)
Lemma convertNet_no_pool (inpnet : string) (asym : Benchmark.pyval)
    (overwrite : bool) (resdub timeout : Z) (st : State Pool) :
  execpool Pool st = None ->
  convertNet inpnet asym overwrite resdub timeout st
  = Ret tt (mkState Pool None (stdout Pool st)
              (stderr Pool st ++ [no_pool_error (asym, inpnet)])
              (executed Pool st)).
Proof.
  intros Hnone. unfold Conversion.convertNet, try_except, execute.
  rewrite Hnone. cbn. unfold print_stderr. rewrite Hnone. reflexivity.
Qed.

(** With a pool [convertNet] submits its job; the pool stays bound and
    nothing goes to standard output. *)
Lemma convertNet_pool (inpnet : string) (asym : Benchmark.pyval)
    (overwrite : bool) (resdub timeout : Z) (st : State Pool) (p : Pool)
    (a : unit) (st' : State Pool) :
  execpool Pool st = Some p ->
  convertNet inpnet asym overwrite resdub timeout st = Ret a st' ->
  (exists p', execpool Pool st' = Some p') /\
  stdout Pool st' = stdout Pool st /\
  executed Pool st'
  = (executed Pool st
     ++ [mkJob (fst (splitext (snd (split inpnet))))
           (tohig_args pyexec inpnet asym overwrite resdub) timeout])%list /\
  exists reports, stderr Pool st' = (stderr Pool st ++ reports)%list.
Proof.
  intros Hsome. unfold Conversion.convertNet, try_except, execute.
  rewrite Hsome.
  destruct (pool_execute _ p) as [p' [e |]]; cbn.
  - destruct (isStandardError e); [| discriminate].
    unfold print_stderr. cbn. intros H. injection H as _ <-. cbn. eauto 7.
  - intros H. injection H as _ <-. cbn.
    repeat split; eauto. exists []. symmetry. apply app_nil_r.
Qed.

(** The loop of [convertNets] over the networks of a directory. *)
Lemma nets_loop (asym : Benchmark.pyval) (overwrite : bool) (resdub : Z)
    (nets : list string) (acc n : Z) (st st' : State Pool) (p : Pool) :
  execpool Pool st = Some p ->
  for_each Pool nets
    (fun net netsnum =>
       if no_shuffle splitext net then
         bind Pool (convertNet net asym overwrite resdub convTimeMax)
           (fun _ => ret Pool (netsnum + 1))
       else ret Pool netsnum)
    acc st
  = Ret n st' ->
  (exists p', execpool Pool st' = Some p') /\
  stdout Pool st' = stdout Pool st /\
  n = acc + Z.of_nat (List.length (filter (no_shuffle splitext) nets)) /\
  executed Pool st'
  = (executed Pool st
     ++ map (conversion_job pyexec split splitext asym overwrite resdub)
          (filter (no_shuffle splitext) nets))%list /\
  exists reports, stderr Pool st' = (stderr Pool st ++ reports)%list.
Proof.
  revert acc st p. induction nets as [| net nets IH]; intros acc st p Hsome H.
  - cbn in H. injection H as <- <-. cbn. rewrite app_nil_r.
    repeat split; eauto; try lia. exists []. symmetry. apply app_nil_r.
  - cbn [for_each filter] in H |- *. unfold bind at 1 in H.
    destruct (no_shuffle splitext net).
    + unfold bind at 1 in H.
      destruct (convertNet net asym overwrite resdub convTimeMax st)
        as [a st1 | e st1] eqn:E; [| discriminate H].
      destruct (convertNet_pool _ _ _ _ _ _ _ _ _ Hsome E)
        as ([p1 Hp1] & Hout & Hexec & [r1 Herr]).
      unfold ret at 1 in H.
      destruct (IH _ _ _ Hp1 H) as (Hp & Hout' & Hn & Hexec' & [r2 Herr']).
      split; [exact Hp |]. split; [congruence |].
      split; [cbn [List.length]; lia |].
      split.
      * rewrite Hexec', Hexec, <- app_assoc. reflexivity.
      * exists (r1 ++ r2)%list. rewrite Herr', Herr, app_assoc. reflexivity.
    + unfold ret at 1 in H. exact (IH _ _ _ Hsome H).
Qed.

Section Truth.

(** Pool objects are true, as Python objects are unless their class
    says otherwise. *)
Hypothesis pools_are_true : forall p, truth p = true.

Lemma convertNets_returns (datadir : string) (asym : Benchmark.pyval)
    (overwrite : bool) (resdub convtimeout : Z) (st st' : State Pool) :
  convertNets datadir asym overwrite resdub convtimeout st = Ret tt st' ->
  execpool Pool st' = None /\
  stdout Pool st'
  = (stdout Pool st
     ++ [MsgConverting datadir;
         MsgConverted
           (Z.of_nat (List.length (networks_of iglob splitext datadir)))])%list
  /\
  executed Pool st'
  = (executed Pool st
     ++ map (conversion_job pyexec split splitext asym overwrite resdub)
          (networks_of iglob splitext datadir))%list /\
  exists reports, stderr Pool st' = (stderr Pool st ++ reports)%list.
Proof.
  unfold Conversion.convertNets, networks_of. intros H.
  unfold bind at 1 in H. unfold print at 1 in H.
  unfold bind at 1 in H.
  set (st0 := mkState Pool _ _ _ _) in H.
  assert (Hens : exists p st1,
             (if negb (execpool_truth Pool truth st0)
              then set_execpool Pool
                     (Some (ExecPool (Z.max (cpu_count - 1) 1))) st0
              else Ret tt st0) = Ret tt st1
             /\ execpool Pool st1 = Some p
             /\ stdout Pool st1 = stdout Pool st0
             /\ executed Pool st1 = executed Pool st0
             /\ stderr Pool st1 = stderr Pool st0).
  { unfold execpool_truth. destruct (execpool Pool st0) as [p |] eqn:Ep.
    - rewrite pools_are_true. cbn. eauto 7.
    - cbn. eexists. eexists. split; [reflexivity |]. cbn. auto. }
  destruct Hens as (p & st1 & Hens & Hp & Hout1 & Hexec1 & Herr1).
  rewrite Hens in H. unfold bind at 1 in H.
  match type of H with
  | context [for_each Pool ?nets ?body 0 st1] =>
      destruct (for_each Pool nets body 0 st1) as [n st2 | e st2] eqn:Eloop
  end; [| discriminate H].
  destruct (nets_loop _ _ _ _ _ _ _ _ _ Hp Eloop)
    as ([p2 Hp2] & Hout2 & Hn & Hexec2 & [r2 Herr2]).
  unfold bind at 1 in H. unfold execpool_truth in H. rewrite Hp2 in H.
  rewrite pools_are_true in H. unfold bind at 1 in H.
  unfold join in H. rewrite Hp2 in H.
  destruct (pool_join _ p2) as [p3 [e |]]; [discriminate H |].
  unfold set_execpool, print in H. cbn in H. injection H as <-.
  cbn. rewrite Hout2, Hout1, Hexec2, Hexec1, Herr2, Herr1. subst st0. cbn.
  rewrite <- app_assoc. cbn. rewrite Hn. eauto.
Qed.

(** The loop of [benchmark] over the directories. *)
Lemma dirs_loop (convnets : Z) (datadirs : list (Benchmark.pyval * string))
    (st st' : State Pool) (a : unit) :
  execpool Pool st = None ->
  for_each Pool datadirs
    (fun d _ =>
       convertNets (snd d) (fst d) (Z.land convnets 3 =? 3)
         (Z.land convnets 4) (30 * 60))
    tt st
  = Ret a st' ->
  execpool Pool st' = None /\
  executed Pool st'
  = (executed Pool st
     ++ directory_jobs pyexec iglob split splitext convnets datadirs)%list /\
  exists reports, stderr Pool st' = (stderr Pool st ++ reports)%list.
Proof.
  revert st. induction datadirs as [| d datadirs IH]; intros st Hnone H.
  - cbn in H. injection H as _ <-. cbn. rewrite app_nil_r.
    repeat split; auto. exists []. symmetry. apply app_nil_r.
  - cbn [for_each] in H. unfold bind at 1 in H.
    match type of H with
    | context [Conversion.convertNets ?a1 ?a2 ?a3 ?a4 ?a5 ?a6 ?a7 ?a8 ?a9
                 ?a10 ?a11 ?a12 ?a13 ?a14 ?a15 st] =>
        destruct (Conversion.convertNets a1 a2 a3 a4 a5 a6 a7 a8 a9 a10 a11
                    a12 a13 a14 a15 st) as [[] st1 | e st1] eqn:E
    end; [| discriminate H].
    destruct (convertNets_returns _ _ _ _ _ _ _ E)
      as (Hp & _ & Hexec & [r1 Herr]).
    destruct (IH _ Hp H) as (Hp' & Hexec' & [r2 Herr']).
    split; [exact Hp' |]. split.
    + rewrite Hexec', Hexec, <- app_assoc. reflexivity.
    + exists (r1 ++ r2)%list. rewrite Herr', Herr, app_assoc. reflexivity.
Qed.

(** The loop of [benchmark] over the files, entered without a pool. *)
Lemma files_loop (overwrite : bool) (resdub timeout : Z)
    (datafiles : list (Benchmark.pyval * string)) (st : State Pool) :
  execpool Pool st = None ->
  for_each Pool datafiles
    (fun d _ => convertNet (snd d) (fst d) overwrite resdub timeout) tt st
  = Ret tt (mkState Pool None (stdout Pool st)
              (stderr Pool st ++ map no_pool_error datafiles)
              (executed Pool st)).
Proof.
  revert st. induction datafiles as [| [asym f] datafiles IH];
    intros st Hnone.
  - cbn. unfold ret. rewrite app_nil_r, <- Hnone. destruct st; reflexivity.
  - cbn [for_each]. unfold bind at 1. cbn [fst snd].
    rewrite convertNet_no_pool by exact Hnone.
    rewrite IH by reflexivity. cbn. rewrite <- app_assoc. reflexivity.
Qed.

Lemma convert_returns (convnets : Z)
    (datadirs datafiles : list (Benchmark.pyval * string))
    (st st' : State Pool) :
  convnets <> 0 ->
  execpool Pool st = None ->
  convert convnets datadirs datafiles st = Ret tt st' ->
  execpool Pool st' = None /\
  executed Pool st'
  = (executed Pool st
     ++ directory_jobs pyexec iglob split splitext convnets datadirs)%list
  /\
  exists reports,
    stderr Pool st'
    = (stderr Pool st ++ reports ++ map no_pool_error datafiles)%list.
Proof.
  intros Hconv Hnone. unfold Conversion.convert.
  apply Z.eqb_neq in Hconv. rewrite Hconv. cbn [negb when].
  unfold bind at 1.
  match goal with
  | |- context [for_each Pool datadirs ?body tt st] =>
      destruct (for_each Pool datadirs body tt st) as [a st1 | e st1] eqn:E
  end; [| discriminate].
  destruct (dirs_loop _ _ _ _ _ Hnone E) as (Hp & Hexec & [r Herr]).
  rewrite (files_loop _ _ _ datafiles st1 Hp).
  intros H. injection H as <-. cbn.
  split; [reflexivity |]. split; [exact Hexec |].
  exists r. rewrite Herr, app_assoc. reflexivity.
Qed.

End Truth.

End ConversionFacts.

(** X26: when pool objects are true and [convertNets] returns,
    [_execpool] is [None], and the number it reports as converted is the
    number of networks of the directory that are no shuffles, whether
    their conversions failed or not. *)
Theorem convertNets_clears_pool_and_counts
    (Pool : Type) (truth : Pool -> bool) (ExecPool : Z -> Pool)
    (pool_execute : Conversion.job -> Pool -> Pool * option Conversion.exc)
    (pool_join : Z -> Pool -> Pool * option Conversion.exc)
    (pyexec : string) (cpu_count : Z) (iglob : string -> list string)
    (split splitext : string -> string * string)
    (datadir : string) (asym : Benchmark.pyval) (overwrite : bool)
    (resdub convtimeout : Z) (st st' : Conversion.State Pool) :
  (forall p, truth p = true) ->
  Conversion.convertNets Pool truth ExecPool pool_execute pool_join pyexec
    cpu_count iglob split splitext datadir asym overwrite resdub convtimeout
    st
  = Conversion.Ret tt st' ->
  Conversion.execpool Pool st' = None /\
  Conversion.stdout Pool st'
  = (Conversion.stdout Pool st
     ++ [Conversion.MsgConverting datadir;
         Conversion.MsgConverted
           (Z.of_nat
              (List.length
                 (ConversionReference.networks_of iglob splitext datadir)))])%list.
Proof.
  intros Htrue H.
  destruct (convertNets_returns Pool truth ExecPool pool_execute pool_join
              pyexec cpu_count iglob split splitext Htrue _ _ _ _ _ _ _ H)
    as (Hp & Hout & _).
  auto.
Qed.

Lemma convertNets_clears_pool_and_counts_witness :
  let st' :=
    Conversion.mkState nat None
      [Conversion.MsgConverting "d/"; Conversion.MsgConverted 2] []
      (map (ConversionReference.conversion_job "python"
              ConversionReference.sample_split
              ConversionReference.sample_splitext (Benchmark.VBool true)
              true 4)
         ["d/a.nsa"; "d/b.nsa"]) in
  Conversion.execpool nat st' = None /\
  Conversion.stdout nat st'
  = ([] ++ [Conversion.MsgConverting "d/";
            Conversion.MsgConverted
              (Z.of_nat
                 (List.length
                    (ConversionReference.networks_of
                       ConversionReference.sample_iglob
                       ConversionReference.sample_splitext "d/")))])%list.
Proof.
  intros st'.
  apply (convertNets_clears_pool_and_counts nat (fun _ => true)
           (fun _ => 0%nat) ConversionReference.counting_execute
           ConversionReference.counting_join "python" 4
           ConversionReference.sample_iglob ConversionReference.sample_split
           ConversionReference.sample_splitext "d/" (Benchmark.VBool true)
           true 4 1800 (Conversion.mkState nat None [] [] []) st').
  - reflexivity.
  - reflexivity.
Defined.

(** X27: when pool objects are true and [convertNets] returns, it has
    given the pool one job per network of the directory that is no
    shuffle, in the order of the listing, each with the timeout of three
    minutes: [convtimeout] reaches no job. *)
Theorem convertNets_jobs
    (Pool : Type) (truth : Pool -> bool) (ExecPool : Z -> Pool)
    (pool_execute : Conversion.job -> Pool -> Pool * option Conversion.exc)
    (pool_join : Z -> Pool -> Pool * option Conversion.exc)
    (pyexec : string) (cpu_count : Z) (iglob : string -> list string)
    (split splitext : string -> string * string)
    (datadir : string) (asym : Benchmark.pyval) (overwrite : bool)
    (resdub convtimeout : Z) (st st' : Conversion.State Pool) :
  (forall p, truth p = true) ->
  Conversion.convertNets Pool truth ExecPool pool_execute pool_join pyexec
    cpu_count iglob split splitext datadir asym overwrite resdub convtimeout
    st
  = Conversion.Ret tt st' ->
  exists jobs,
    Conversion.executed Pool st' = (Conversion.executed Pool st ++ jobs)%list
    /\ map Conversion.args jobs
       = map (fun net =>
                Conversion.tohig_args pyexec net asym overwrite resdub)
           (ConversionReference.networks_of iglob splitext datadir)
    /\ Forall (fun j => Conversion.timeout j = 180) jobs.
Proof.
  intros Htrue H.
  destruct (convertNets_returns Pool truth ExecPool pool_execute pool_join
              pyexec cpu_count iglob split splitext Htrue _ _ _ _ _ _ _ H)
    as (_ & _ & Hexec & _).
  eexists. split; [exact Hexec |]. split.
  - rewrite map_map. reflexivity.
  - apply Forall_map. apply Forall_forall. intros net _. reflexivity.
Qed.

Lemma convertNets_jobs_witness :
  exists jobs,
    map (ConversionReference.conversion_job "python"
           ConversionReference.sample_split
           ConversionReference.sample_splitext Benchmark.VNone false 0)
      ["d/a.nsa"; "d/b.nsa"]
    = ([] ++ jobs)%list
    /\ map Conversion.args jobs
       = map (fun net =>
                Conversion.tohig_args "python" net Benchmark.VNone false 0)
           (ConversionReference.networks_of ConversionReference.sample_iglob
              ConversionReference.sample_splitext "d/")
    /\ Forall (fun j => Conversion.timeout j = 180) jobs.
Proof.
  apply (convertNets_jobs nat (fun _ => true)
           (fun _ => 0%nat) ConversionReference.counting_execute
           ConversionReference.counting_join "python" 4
           ConversionReference.sample_iglob ConversionReference.sample_split
           ConversionReference.sample_splitext "d/" Benchmark.VNone
           false 0 7200 (Conversion.mkState nat None [] [] [])
           (Conversion.mkState nat None
              [Conversion.MsgConverting "d/"; Conversion.MsgConverted 2] []
              (map (ConversionReference.conversion_job "python"
                      ConversionReference.sample_split
                      ConversionReference.sample_splitext Benchmark.VNone
                      false 0)
                 ["d/a.nsa"; "d/b.nsa"]))).
  - reflexivity.
  - reflexivity.
Defined.

(** X28: in the conversion block of [benchmark], entered with [_execpool]
    at [None] and with pool objects true, the files given one by one are
    never converted: when the block returns, the jobs submitted are those
    of the directories alone, each file has been reported on standard
    error with an [AttributeError], and [_execpool] is [None]. *)
Theorem convert_never_converts_datafiles
    (Pool : Type) (truth : Pool -> bool) (ExecPool : Z -> Pool)
    (pool_execute : Conversion.job -> Pool -> Pool * option Conversion.exc)
    (pool_join : Z -> Pool -> Pool * option Conversion.exc)
    (pyexec : string) (cpu_count : Z) (iglob : string -> list string)
    (split splitext : string -> string * string)
    (convnets : Z) (datadirs datafiles : list (Benchmark.pyval * string))
    (st st' : Conversion.State Pool) :
  (forall p, truth p = true) ->
  convnets <> 0 ->
  Conversion.execpool Pool st = None ->
  Conversion.convert Pool truth ExecPool pool_execute pool_join pyexec
    cpu_count iglob split splitext convnets datadirs datafiles st
  = Conversion.Ret tt st' ->
  Conversion.execpool Pool st' = None /\
  Conversion.executed Pool st'
  = (Conversion.executed Pool st
     ++ ConversionReference.directory_jobs pyexec iglob split splitext
          convnets datadirs)%list
  /\
  exists reports,
    Conversion.stderr Pool st'
    = (Conversion.stderr Pool st ++ reports
       ++ map ConversionReference.no_pool_error datafiles)%list.
Proof.
  intros Htrue Hconv Hnone H.
  exact (convert_returns Pool truth ExecPool pool_execute pool_join pyexec
           cpu_count iglob split splitext Htrue convnets datadirs datafiles
           st st' Hconv Hnone H).
Qed.

Lemma convert_never_converts_datafiles_witness :
  let st' :=
    Conversion.mkState nat None
      [Conversion.MsgConverting "d/"; Conversion.MsgConverted 2]
      [ConversionReference.no_pool_error (Benchmark.VNone, "x.nsa")]
      (map (ConversionReference.conversion_job "python"
              ConversionReference.sample_split
              ConversionReference.sample_splitext Benchmark.VNone true 4)
         ["d/a.nsa"; "d/b.nsa"]) in
  Conversion.execpool nat st' = None /\
  Conversion.executed nat st'
  = ([] ++ ConversionReference.directory_jobs "python"
             ConversionReference.sample_iglob ConversionReference.sample_split
             ConversionReference.sample_splitext 7
             [(Benchmark.VNone, "d/")])%list
  /\
  exists reports,
    Conversion.stderr nat st'
    = ([] ++ reports
       ++ map ConversionReference.no_pool_error
            [(Benchmark.VNone, "x.nsa")])%list.
Proof.
  intros st'.
  apply (convert_never_converts_datafiles nat (fun _ => true)
           (fun _ => 0%nat) ConversionReference.counting_execute
           ConversionReference.counting_join "python" 4
           ConversionReference.sample_iglob ConversionReference.sample_split
           ConversionReference.sample_splitext 7 [(Benchmark.VNone, "d/")]
           [(Benchmark.VNone, "x.nsa")]
           (Conversion.mkState nat None [] [] []) st').
  - reflexivity.
  - discriminate.
  - reflexivity.
  - reflexivity.
Defined.

(** ** prepareInput *)

Section PrepareInputFacts.
Import PrepareInput PrepareReference.

Variable FS : Type.
Variable Gen : Type.
Variable iglob : string -> Gen.
Variable next : Gen -> FS -> option (string * Gen).
Variable isdir : string -> FS -> bool.
Variable exists_ : string -> FS -> bool.
Variable dirempty : string -> FS -> bool.
Variable split : string -> string * string.
Variable splitext : string -> string * string.
Variable backupPath : string -> bool -> nat -> FS -> FS * option Py.exc.
Variable mkdir : string -> FS -> FS * option Py.exc.
Variable link : string -> string -> FS -> FS * option Py.exc.

Local Abbreviation prepare_path :=
  (prepare_path FS Gen iglob next isdir exists_ dirempty split splitext
     backupPath mkdir link).
Local Abbreviation prepareInput :=
  (prepareInput FS Gen iglob next isdir exists_ dirempty split splitext
     backupPath mkdir link).

(** A property of the accumulator that every round keeps holds when the
    loop returns. *)
Lemma iterate_invariant {A : Type} (I : A -> Prop)
    (body : string -> A -> M FS A) :
  (forall x acc st acc' st',
     I acc -> body x acc st = Ret acc' st' -> I acc') ->
  forall rounds g acc st acc' st',
    I acc ->
    iterate FS Gen next rounds g body acc st = Ret acc' st' -> I acc'.
Proof.
  intros Hbody. induction rounds as [| rounds IH];
    intros g acc st acc' st' Hacc H; cbn in H; [discriminate H |].
  destruct (next g (fs FS st)) as [[x g'] |].
  - destruct (body x acc st) as [acc1 st1 | e st1 |] eqn:E;
      try discriminate H.
    exact (IH _ _ _ _ _ (Hbody _ _ _ _ _ Hacc E) H).
  - injection H as <- _. exact Hacc.
Qed.

Lemma for_each_invariant {X A : Type} (I : A -> Prop)
    (body : X -> A -> M FS A) :
  (forall x acc st acc' st',
     I acc -> body x acc st = Ret acc' st' -> I acc') ->
  forall xs acc st acc' st',
    I acc -> for_each FS xs body acc st = Ret acc' st' -> I acc'.
Proof.
  intros Hbody. induction xs as [| x xs IH];
    intros acc st acc' st' Hacc H; cbn in H.
  - injection H as <- _. exact Hacc.
  - unfold bind at 1 in H.
    destruct (body x acc st) as [acc1 st1 | e st1 |] eqn:E;
      try discriminate H.
    exact (IH _ _ _ _ (Hbody _ _ _ _ _ Hacc E) H).
Qed.

Lemma slashed_datadirs (d : option bool * string) (acc : lists) :
  BenchmarkParams.endswith "/" (snd d) = true ->
  slashed acc -> slashed (append_datadirs d acc).
Proof.
  unfold slashed, append_datadirs. cbn [fst]. intros Hd Hacc.
  apply Forall_app. split; [exact Hacc |]. constructor; [exact Hd |].
  constructor.
Qed.

Lemma prepare_path_slashed (rounds : nat) (asym : option bool) (gen : bool)
    (path : string) (acc acc' : lists) (st st' : State FS) :
  slashed acc ->
  prepare_path rounds asym gen path acc st = Ret acc' st' ->
  slashed acc'.
Proof.
  intros Hacc. unfold PrepareInput.prepare_path.
  unfold bind at 1.
  destruct ((if gen then SyncValue FS else ret FS 0%nat) st)
    as [bcksuffix st1 | e st1 |] eqn:Esv; try discriminate.
  unfold bind at 1. unfold read at 1.
  destruct (isdir path (fs FS st1)).
  - destruct gen.
    + apply iterate_invariant; [| exact Hacc].
      clear. intros net acc st acc' st' Hacc H.
      unfold bind at 1 in H.
      match type of H with
      | context [prepareDir ?a1 ?a2 ?a3 ?a4 ?a5 ?a6 ?a7 ?a8 ?a9 ?a10 st] =>
          destruct (prepareDir a1 a2 a3 a4 a5 a6 a7 a8 a9 a10 st)
            as [a s | e s |]
      end; try discriminate H.
      unfold ret in H. injection H as <- _.
      apply slashed_datadirs; [| exact Hacc].
      cbn [snd]. apply endswith_app.
    + unfold ret. intros H. injection H as <- _.
      apply slashed_datadirs; [| exact Hacc]. cbn [snd].
      destruct (BenchmarkParams.endswith "/" path) eqn:E; [exact E |].
      apply endswith_app.
  - destruct gen.
    + unfold bind at 1.
      match goal with
      | |- context [prepareDir ?a1 ?a2 ?a3 ?a4 ?a5 ?a6 ?a7 ?a8 ?a9 ?a10 st1] =>
          destruct (prepareDir a1 a2 a3 a4 a5 a6 a7 a8 a9 a10 st1)
            as [a s | e s |]
      end; try discriminate.
      unfold ret. intros H. injection H as <- _. exact Hacc.
    + unfold ret. intros H. injection H as <- _. exact Hacc.
Qed.

Lemma prepareInput_slashed (rounds : nat)
    (datas : list BenchmarkParams.data) (acc : lists) (st st' : State FS) :
  prepareInput rounds datas st = Ret acc st' -> slashed acc.
Proof.
  unfold PrepareInput.prepareInput.
  assert (H0 : slashed ([], [])) by constructor.
  destruct datas as [| d datas].
  - unfold ret. intros H. injection H as <- _. exact H0.
  - apply for_each_invariant; [| exact H0].
    intros [[asym wpath] gen] acc0 s acc1 s1 Hacc.
    apply iterate_invariant; [| exact Hacc].
    intros path a s2 a' s3 Ha. apply prepare_path_slashed. exact Ha.
Qed.

(** Without [gen] nothing is written and nothing raises. *)
Lemma iterate_untouched {A : Type} (body : string -> A -> M FS A)
    (st : State FS) :
  (forall x acc, untouched st (body x acc st)) ->
  forall rounds g acc,
    untouched st (iterate FS Gen next rounds g body acc st).
Proof.
  intros Hbody. induction rounds as [| rounds IH]; intros g acc; cbn;
    [exact I |].
  destruct (next g (fs FS st)) as [[x g'] |]; [| reflexivity].
  pose proof (Hbody x acc) as Hx.
  destruct (body x acc st) as [acc1 st1 | e st1 |]; cbn in Hx.
  - subst st1. apply IH.
  - destruct Hx.
  - exact I.
Qed.

Lemma prepare_path_untouched (rounds : nat) (asym : option bool)
    (path : string) (acc : lists) (st : State FS) :
  untouched st (prepare_path rounds asym false path acc st).
Proof.
  unfold PrepareInput.prepare_path, bind, ret, read.
  destruct (isdir path (fs FS st)); reflexivity.
Qed.

Lemma for_each_untouched (rounds : nat) (datas : list BenchmarkParams.data)
    (acc : lists) (st : State FS) :
  Forall (fun d => snd d = false) datas ->
  untouched st
    (for_each FS datas
       (fun d acc =>
          let '(asym, wpath, gen) := d in
          iterate FS Gen next rounds (iglob wpath)
            (prepare_path rounds asym gen) acc)
       acc st).
Proof.
  intros Hgen. revert acc.
  induction Hgen as [| [[asym wpath] gen] datas Hd Hgen IH]; intros acc;
    cbn [for_each]; [reflexivity |].
  cbn [snd] in Hd. subst gen. unfold bind at 1.
  pose proof (iterate_untouched (prepare_path rounds asym false) st
                (fun x a => prepare_path_untouched rounds asym x a st)
                rounds (iglob wpath) acc) as Hit.
  destruct (iterate FS Gen next rounds (iglob wpath)
              (prepare_path rounds asym false) acc st)
    as [acc1 st1 | e st1 |]; cbn in Hit.
  - subst st1. apply IH.
  - destruct Hit.
  - exact I.
Qed.

Lemma prepareInput_untouched (rounds : nat)
    (datas : list BenchmarkParams.data) (st : State FS) :
  Forall (fun d => snd d = false) datas ->
  untouched st (prepareInput rounds datas st).
Proof.
  intros Hgen. unfold PrepareInput.prepareInput.
  destruct datas as [| d datas]; [reflexivity |].
  apply for_each_untouched. exact Hgen.
Qed.

End PrepareInputFacts.

(** X29: every directory in the [datadirs] that [prepareInput] returns
    ends with a slash, whatever the file system holds and does: a listed
    directory gets one when it lacks it, and a generated one is built
    with it. *)
Theorem prepareInput_datadirs_end_with_slash
    (FS Gen : Type) (iglob : string -> Gen)
    (next : Gen -> FS -> option (string * Gen))
    (isdir exists_ dirempty : string -> FS -> bool)
    (split splitext : string -> string * string)
    (backupPath : string -> bool -> nat -> FS -> FS * option Py.exc)
    (mkdir : string -> FS -> FS * option Py.exc)
    (link : string -> string -> FS -> FS * option Py.exc)
    (rounds : nat) (datas : list BenchmarkParams.data)
    (datadirs datafiles : list (option bool * string))
    (st st' : PrepareInput.State FS) :
  PrepareInput.prepareInput FS Gen iglob next isdir exists_ dirempty split
    splitext backupPath mkdir link rounds datas st
  = PrepareInput.Ret (datadirs, datafiles) st' ->
  Forall (fun d => BenchmarkParams.endswith "/" (snd d) = true) datadirs.
Proof.
  intros H.
  exact (prepareInput_slashed FS Gen iglob next isdir exists_ dirempty split
           splitext backupPath mkdir link rounds datas _ st st' H).
Qed.

Lemma prepareInput_datadirs_end_with_slash_witness :
  Forall (fun d : option bool * string =>
            BenchmarkParams.endswith "/" (snd d) = true)
    [(None, "nets/"); (Some true, "more/")].
Proof.
  apply (prepareInput_datadirs_end_with_slash unit (list string)
           (fun pattern => [pattern]) PrepareReference.list_next
           (fun path _ => negb (path =? "a.nsa")%string)
           (fun _ _ => true) (fun _ _ => true)
           (fun path => ("", path)) (fun path => (path, ""))
           (fun _ _ _ => PrepareReference.no_effect)
           (fun _ => PrepareReference.no_effect)
           (fun _ _ => PrepareReference.no_effect)
           2
           [(None, "nets", false); (Some false, "a.nsa", false);
            (Some true, "more/", false)]
           [(None, "nets/"); (Some true, "more/")] [(Some false, "a.nsa")]
           (PrepareInput.mkState unit tt 0)
           (PrepareInput.mkState unit tt 0)).
  reflexivity.
Defined.

(** X30: when no entry of [datas] asks for generated directories,
    [prepareInput] only reads the file system: it raises nothing, and if
    it returns, the file system is as it was and no [SyncValue] has been
    created. *)
Theorem prepareInput_without_gen_only_reads
    (FS Gen : Type) (iglob : string -> Gen)
    (next : Gen -> FS -> option (string * Gen))
    (isdir exists_ dirempty : string -> FS -> bool)
    (split splitext : string -> string * string)
    (backupPath : string -> bool -> nat -> FS -> FS * option Py.exc)
    (mkdir : string -> FS -> FS * option Py.exc)
    (link : string -> string -> FS -> FS * option Py.exc)
    (rounds : nat) (datas : list BenchmarkParams.data)
    (st : PrepareInput.State FS) :
  Forall (fun d => snd d = false) datas ->
  (forall e st',
     PrepareInput.prepareInput FS Gen iglob next isdir exists_ dirempty
       split splitext backupPath mkdir link rounds datas st
     <> PrepareInput.Exc e st') /\
  (forall r st',
     PrepareInput.prepareInput FS Gen iglob next isdir exists_ dirempty
       split splitext backupPath mkdir link rounds datas st
     = PrepareInput.Ret r st' ->
     st' = st).
Proof.
  intros Hgen.
  pose proof (prepareInput_untouched FS Gen iglob next isdir exists_
                dirempty split splitext backupPath mkdir link rounds datas
                st Hgen) as H.
  split.
  - intros e st' E. rewrite E in H. exact H.
  - intros r st' E. rewrite E in H. exact H.
Qed.

Lemma prepareInput_without_gen_only_reads_witness :
  (forall e st',
     PrepareInput.prepareInput unit (list string)
       (fun pattern => [pattern]) PrepareReference.list_next
       (fun path _ => negb (path =? "a.nsa")%string)
       (fun _ _ => true) (fun _ _ => false)
       (fun path => ("", path)) (fun path => (path, ""))
       (fun _ _ _ s => (s, Some (Py.OSError 13)))
       (fun _ s => (s, Some (Py.OSError 13)))
       (fun _ _ s => (s, Some (Py.OSError 13)))
       2 [(None, "nets", false); (Some false, "a.nsa", false)]
       (PrepareInput.mkState unit tt 0)
     <> PrepareInput.Exc e st') /\
  (forall r st',
     PrepareInput.prepareInput unit (list string)
       (fun pattern => [pattern]) PrepareReference.list_next
       (fun path _ => negb (path =? "a.nsa")%string)
       (fun _ _ => true) (fun _ _ => false)
       (fun path => ("", path)) (fun path => (path, ""))
       (fun _ _ _ s => (s, Some (Py.OSError 13)))
       (fun _ s => (s, Some (Py.OSError 13)))
       (fun _ _ s => (s, Some (Py.OSError 13)))
       2 [(None, "nets", false); (Some false, "a.nsa", false)]
       (PrepareInput.mkState unit tt 0)
     = PrepareInput.Ret r st' ->
     st' = PrepareInput.mkState unit tt 0).
Proof.
  apply (prepareInput_without_gen_only_reads unit (list string)
           (fun pattern => [pattern]) PrepareReference.list_next
           (fun path _ => negb (path =? "a.nsa")%string)
           (fun _ _ => true) (fun _ _ => false)
           (fun path => ("", path)) (fun path => (path, ""))
           (fun _ _ _ s => (s, Some (Py.OSError 13)))
           (fun _ s => (s, Some (Py.OSError 13)))
           (fun _ _ s => (s, Some (Py.OSError 13)))
           2 [(None, "nets", false); (Some false, "a.nsa", false)]
           (PrepareInput.mkState unit tt 0)).
  repeat constructor.
Defined.
(** * hicbem.py on a host *)

Section HostFacts.
Import Host.

(** ** The host of the discrete-time model *)

(** On a host whose [time.clock()] is the clock that [time.sleep]
    advances and whose calls do not raise, the monitoring runs as
    [Hicbem.controlTime] does. *)
Variable popen : list string -> string -> World -> spawn.

Lemma grace_wait_wall_clock (p : Proc) (left : nat) (w : World) :
  grace_wait (wall_clock_host popen) p left w
  = Returned tt (Hicbem.grace_wait p left w).
Proof.
  revert w. induction left as [| left IH]; intros w; [reflexivity |].
  cbn [grace_wait Hicbem.grace_wait]. unfold bindM, poll.
  destruct (poll_is_None p w); [| reflexivity].
  unfold sleep. cbn. apply IH.
Qed.

Lemma on_timeout_wall_clock (p : Proc) (algname : string)
    (timeout elapsed : Z) (w : World) :
  on_timeout (wall_clock_host popen) p algname timeout elapsed w
  = Returned tt (Hicbem.on_timeout p algname timeout elapsed w).
Proof.
  unfold on_timeout, Hicbem.on_timeout. unfold bindM at 1.
  unfold terminate, send_signal. cbn [kill_error wall_clock_host].
  unfold bindM at 1. rewrite grace_wait_wall_clock.
  unfold bindM at 1. unfold poll at 1. unfold bindM at 1.
  change (Hicbem.terminate p w) with (send p SIGTERM w).
  destruct (poll_is_None p (Hicbem.grace_wait p 10 (send p SIGTERM w)));
    reflexivity.
Qed.

Lemma controlTime_wall_clock (rounds : nat) (p : Proc) (algname : string)
    (exectime timeout : Z) (w : World) :
  controlTime (wall_clock_host popen) rounds p algname exectime timeout w
  = match Hicbem.controlTime rounds p algname exectime timeout w with
    | Done w' => Returned tt w'
    | Looping w' => Running w'
    end.
Proof.
  revert exectime w. induction rounds as [| rounds IH]; intros exectime w.
  - cbn [controlTime Hicbem.controlTime]. unfold bindM, poll.
    destruct (poll_is_None p w); reflexivity.
  - cbn [controlTime Hicbem.controlTime]. unfold bindM at 1. unfold poll at 1.
    destruct (poll_is_None p w); [| reflexivity].
    unfold bindM at 1. unfold sleep at 1.
    cbn [sleep_error wall_clock_host].
    unfold bindM at 1. unfold clock at 1. cbn [clock_at wall_clock_host].
    destruct (negb (timeout =? 0)
              && (now (sleep1 w) - exectime >? timeout)).
    + unfold bindM at 1. rewrite on_timeout_wall_clock. apply IH.
    + apply IH.
Qed.

Lemma execAlgorithm_wall_clock (rounds : nat) (algname workdir : string)
    (args : list string) (timeout : Z) (trace : bool) (w : World) :
  execAlgorithm (wall_clock_host popen) rounds algname workdir args timeout
    trace w
  = Hicbem.execAlgorithm popen rounds algname workdir args timeout trace w.
Proof.
  unfold execAlgorithm, Hicbem.execAlgorithm.
  destruct ((algname =? "")%string || (workdir =? "")%string
            || match args with [] => true | _ => false end);
    [reflexivity |].
  unfold bindM, try_else, clock, Hicbem.clock, Popen, Hicbem.Popen,
    controlTimeM, ret, act, when.
  cbn [clock_at Host.popen wall_clock_host].
  destruct trace.
  - cbn.
    destruct (popen args workdir (print (MsgStarting algname) w))
      as [p | e]; [| reflexivity].
    cbn [fst snd]. rewrite controlTime_wall_clock.
    destruct (Hicbem.controlTime rounds p algname
                (now (print (MsgStarting algname) w)) timeout
                (print (MsgStarting algname) w)); reflexivity.
  - cbn. destruct (popen args workdir w) as [p | e]; [| reflexivity].
    cbn [fst snd]. rewrite controlTime_wall_clock.
    destruct (Hicbem.controlTime rounds p algname (now w) timeout w);
      reflexivity.
Qed.

End HostFacts.

Section OnAnyHost.
Import Host.

Variable h : host.

(** ** A child that exits during the last sleep *)

Lemma on_timeout_after_exit_host (p : Proc) (algname : string)
    (timeout elapsed : Z) (w : World) :
  poll_is_None p w = false ->
  kill_error h p SIGTERM w = None ->
  on_timeout h p algname timeout elapsed w
  = Returned tt
      (print (MsgTimeout algname timeout elapsed (secondsToHms elapsed))
         (send p SIGTERM w)).
Proof.
  intros Hdead Hkill.
  assert (Hpoll : poll_is_None p (send p SIGTERM w) = false).
  { unfold poll_is_None in *. apply negb_false_iff in Hdead.
    rewrite (exited_send p SIGTERM w Hdead). reflexivity. }
  unfold on_timeout, terminate, send_signal. unfold bindM at 1.
  rewrite Hkill. unfold bindM at 1. cbn [grace_wait].
  unfold bindM at 1. unfold poll at 1. rewrite Hpoll.
  unfold ret at 1. unfold bindM at 1. unfold poll at 1. rewrite Hpoll.
  reflexivity.
Qed.

Lemma controlTime_late_exit_on_host (rounds : nat) (p : Proc) (algname : string)
    (exectime timeout : Z) (w : World) :
  poll_is_None p w = true ->
  sleep_error h w = None ->
  timeout <> 0 ->
  clock_at h (now w + 1) - exectime > timeout ->
  poll_is_None p (sleep1 w) = false ->
  kill_error h p SIGTERM (sleep1 w) = None ->
  controlTime h (S rounds) p algname exectime timeout w
  = Returned tt
      (mkWorld (now w + 1) (sent w ++ [(pid p, SIGTERM, now w + 1)])
         (stdout w
          ++ [MsgTimeout algname timeout
                (clock_at h (now w + 1) - exectime)
                (secondsToHms (clock_at h (now w + 1) - exectime))])).
Proof.
  intros Halive Hsleep Htimeout Hclock Hdead Hkill.
  cbn [controlTime]. unfold bindM at 1. unfold poll at 1. rewrite Halive.
  unfold bindM at 1. unfold sleep at 1. rewrite Hsleep.
  unfold bindM at 1. unfold clock at 1.
  change (now (sleep1 w)) with (now w + 1).
  apply Z.eqb_neq in Htimeout. rewrite Htimeout.
  apply Z.gtb_gt in Hclock. rewrite Hclock. cbn [negb andb].
  unfold bindM at 1.
  rewrite (on_timeout_after_exit_host p algname timeout _ (sleep1 w) Hdead
             Hkill).
  assert (Hend : poll_is_None p
                   (print (MsgTimeout algname timeout
                             (clock_at h (now w + 1) - exectime)
                             (secondsToHms
                                (clock_at h (now w + 1) - exectime)))
                      (send p SIGTERM (sleep1 w))) = false).
  { unfold poll_is_None in *. apply negb_false_iff in Hdead.
    pose proof (exited_send p SIGTERM (sleep1 w) Hdead) as H.
    unfold exited in *. cbn [print now sent] in *. rewrite H. reflexivity. }
  destruct rounds as [| rounds]; cbn [controlTime]; unfold bindM at 1;
    unfold poll at 1; rewrite Hend; reflexivity.
Qed.

(** ** A launch that fails *)

Lemma execAlgorithm_spawn_failure (rounds : nat) (algname workdir : string)
    (args : list string) (timeout : Z) (trace : bool) (w : World)
    (e : Py.exc) :
  algname <> "" -> workdir <> "" -> args <> [] ->
  popen h args workdir (if trace then print (MsgStarting algname) w else w)
  = SpawnFails e ->
  execAlgorithm h rounds algname workdir args timeout trace w
  = if Py.isStandardError e then
      Returned tt
        (let w := print (MsgSpawnError algname e)
                    (if trace then print (MsgStarting algname) w else w) in
         if trace then print (MsgFinished algname) w else w)
    else Raised e (if trace then print (MsgStarting algname) w else w).
Proof.
  intros Ha Hw Hargs Hpopen. unfold execAlgorithm.
  apply String.eqb_neq in Ha, Hw. rewrite Ha, Hw.
  destruct args as [| a args]; [congruence |]. cbn [orb].
  unfold bindM, try_else, clock, Popen, ret, act, when.
  destruct trace; cbn in Hpopen |- *; rewrite Hpopen;
    destruct (Py.isStandardError e); reflexivity.
Qed.

(** ** The loop of benchmark *)

Variable rounds : nat.
Variable int : string -> Py.res Z.

Lemma benchmark_first_raises (args udatas wdatas : list string)
    (timeout : Z) (w w' : World) (err : Py.exc) :
  parseParams int args = Py.Ok (udatas, wdatas, timeout) ->
  execLouvain h rounds udatas wdatas timeout
    (print (MsgParsed udatas wdatas timeout) w)
  = Raised err w' ->
  Py.isStandardError err = true ->
  benchmark h rounds int args w
  = (["execLouvain"], Returned tt (print (MsgInterrupted err) w')).
Proof.
  intros Hparse Hraise Hstd. unfold benchmark. rewrite Hparse.
  unfold algors. cbn [for_alg alg_call alg_name].
  rewrite Hraise, Hstd. reflexivity.
Qed.

Lemma benchmark_second_raises (args udatas wdatas : list string)
    (timeout : Z) (w w1 w' : World) (err : Py.exc) :
  parseParams int args = Py.Ok (udatas, wdatas, timeout) ->
  execLouvain h rounds udatas wdatas timeout
    (print (MsgParsed udatas wdatas timeout) w)
  = Returned tt w1 ->
  execHirecs h rounds udatas wdatas timeout w1 = Raised err w' ->
  Py.isStandardError err = true ->
  benchmark h rounds int args w
  = (["execLouvain"; "execHirecs"],
     Returned tt (print (MsgInterrupted err) w')).
Proof.
  intros Hparse Hret Hraise Hstd. unfold benchmark. rewrite Hparse.
  unfold algors. cbn [for_alg alg_call alg_name].
  rewrite Hret, Hraise, Hstd. reflexivity.
Qed.

Lemma benchmark_launch_failure (args udatas wdatas : list string)
    (timeout : Z) (w : World) (e : Py.exc) :
  parseParams int args = Py.Ok (udatas, wdatas, timeout) ->
  popen h ["../exectime"; "ls"] "LouvainUpd"
    (print (MsgStarting "Louvain")
       (print (MsgParsed udatas wdatas timeout) w))
  = SpawnFails e ->
  Py.isStandardError e = true ->
  In "execHirecs" (fst (benchmark h rounds int args w)).
Proof.
  intros Hparse Hpopen Hstd. unfold benchmark. rewrite Hparse.
  unfold algors. cbn [for_alg alg_call alg_name].
  unfold execLouvain.
  rewrite (execAlgorithm_spawn_failure rounds "Louvain" "LouvainUpd"
             ["../exectime"; "ls"] timeout true _ e
             ltac:(discriminate) ltac:(discriminate) ltac:(discriminate)
             Hpopen).
  rewrite Hstd.
  destruct (execHirecs h rounds udatas wdatas timeout _)
    as [[] w2 | e2 w2 | w2].
  - cbn. destruct (Py.isStandardError _); cbn; auto.
  - destruct (Py.isStandardError e2); cbn; auto.
  - cbn. auto.
Qed.

Lemma benchmark_all_launches_fail (args udatas wdatas : list string)
    (timeout : Z) (w : World) :
  parseParams int args = Py.Ok (udatas, wdatas, timeout) ->
  (forall args0 workdir w0,
     exists e, popen h args0 workdir w0 = SpawnFails e /\
               Py.isStandardError e = true) ->
  exists w',
    benchmark h rounds int args w
    = (["execLouvain"; "execHirecs"; "execOslom2"; "execGanxis"],
       Returned tt w').
Proof.
  intros Hparse Hfail. unfold benchmark. rewrite Hparse.
  unfold algors. cbn [for_alg alg_call alg_name].
  set (w0 := print (MsgParsed udatas wdatas timeout) w).
  destruct (Hfail ["../exectime"; "ls"] "LouvainUpd"
              (print (MsgStarting "Louvain") w0)) as (e1 & Hp1 & Hs1).
  unfold execLouvain.
  rewrite (execAlgorithm_spawn_failure rounds "Louvain" "LouvainUpd"
             ["../exectime"; "ls"] timeout true w0 e1
             ltac:(discriminate) ltac:(discriminate) ltac:(discriminate)
             Hp1).
  rewrite Hs1. cbv zeta. cbn [fst snd].
  set (w1 := print (MsgFinished "Louvain") _).
  destruct (Hfail ["./hirecs"] "." (print (MsgStarting "HiReCS") w1))
    as (e2 & Hp2 & Hs2).
  unfold execHirecs.
  rewrite (execAlgorithm_spawn_failure rounds "HiReCS" "." ["./hirecs"]
             timeout true w1 e2
             ltac:(discriminate) ltac:(discriminate) ltac:(discriminate)
             Hp2).
  rewrite Hs2. cbv zeta. cbn. eexists. reflexivity.
Qed.

End OnAnyHost.

(** ** The clock of the timeout *)

(** As long as the readings of [time.clock()] stay within the timeout,
    [controlTime] sends nothing: it sleeps until a poll sees the child
    exited. *)
Lemma controlTime_within_timeout (h : Host.host) (p : Proc)
    (algname : string) (exectime timeout : Z) (rounds : nat) (w : World) :
  (forall w0, Host.sleep_error h w0 = None) ->
  (forall t, Host.clock_at h t - exectime <= timeout) ->
  exists k : nat,
    (k <= rounds)%nat /\
    (Host.controlTime h rounds p algname exectime timeout w
     = Returned tt (later (Z.of_nat k) w)
     \/ Host.controlTime h rounds p algname exectime timeout w
        = Running (later (Z.of_nat k) w)).
Proof.
  intros Hsleep Hclock. revert w.
  assert (Hstep : forall n w0,
            poll_is_None p w0 = true ->
            Host.controlTime h (S n) p algname exectime timeout w0
            = Host.controlTime h n p algname exectime timeout (sleep1 w0)).
  { intros n w0 Halive. cbn [Host.controlTime].
    unfold bindM at 1. unfold Host.poll at 1. rewrite Halive.
    unfold bindM at 1. unfold Host.sleep at 1. rewrite Hsleep.
    unfold bindM at 1. unfold Host.clock at 1.
    assert (Hguard : (Host.clock_at h (now (sleep1 w0)) - exectime
                      >? timeout) = false).
    { pose proof (Hclock (now (sleep1 w0))) as H.
      destruct (Host.clock_at h (now (sleep1 w0)) - exectime >? timeout)
        eqn:E; [| reflexivity].
      apply Z.gtb_gt in E. lia. }
    rewrite Hguard, andb_false_r. reflexivity. }
  assert (Hstop : forall n w0,
            poll_is_None p w0 = false ->
            Host.controlTime h n p algname exectime timeout w0
            = Returned tt w0).
  { intros n w0 Hdead. destruct n; cbn [Host.controlTime];
      unfold bindM, Host.poll; rewrite Hdead; reflexivity. }
  induction rounds as [| rounds IH]; intros w.
  - exists 0%nat. split; [lia |]. rewrite later_0.
    destruct (poll_is_None p w) eqn:Halive.
    + right. cbn [Host.controlTime]. unfold bindM, Host.poll.
      rewrite Halive. reflexivity.
    + left. apply Hstop. exact Halive.
  - destruct (poll_is_None p w) eqn:Halive.
    + rewrite (Hstep rounds w Halive).
      destruct (IH (sleep1 w)) as (k & Hk & Hrun).
      exists (S k). split; [lia |].
      replace (later (Z.of_nat (S k)) w)
        with (later (Z.of_nat k) (sleep1 w)); [exact Hrun |].
      rewrite sleep1_later, later_later. f_equal. lia.
    + exists 0%nat. split; [lia |]. left. rewrite later_0.
      apply Hstop. exact Halive.
Qed.

(** C1: on a Unix host the timeout is not measured in elapsed time.
    [time.clock()] reads the processor time of the benchmark process, a
    millisecond for every second it sleeps, so with a timeout of 2
    seconds a child that runs for 100 seconds is not signalled: it is
    still running 13 seconds after its spawn and [controlTime] returns
    when the child exits on its own, at second 100, nothing sent and
    nothing printed. *)
Theorem controlTime_processor_time_misses_timeout :
  let child := mkProc 7 (Some 100) (Some 0) in
  Host.controlTime (Host.unix_host child) 100 child "Louvain"
    (Host.clock_at (Host.unix_host child) 0) 2 (mkWorld 0 [] [])
  = Returned tt (mkWorld 100 [] [])
  /\ poll_is_None child (mkWorld (2 + 10 + 1) [] []) = true.
Proof. vm_compute. split; reflexivity. Qed.

(** ** Failures of single algorithms *)

Example benchmark_without_permission :
  Host.benchmark (Host.no_permission_host (mkProc 7 None None)) 5
    int_decimal ["-t"; "1"] (mkWorld 0 [] [])
  = (["execLouvain"],
     Returned tt
       (mkWorld 2 []
          [MsgParsed [] [] 1; MsgStarting "Louvain";
           MsgInterrupted (Py.OSError Host.EPERM)])).
Proof. reflexivity. Qed.

(** C5, as stated, fails on hicbem's [benchmark]: on a host where
    [os.kill] is refused, the [OSError] that [proc.terminate()] raises
    once the timeout of one second has passed leaves [execLouvain], and
    [execHirecs], the next function of the tuple, is not called. *)
Lemma benchmark_stops_counterexample :
  Py.isStandardError (Py.OSError Host.EPERM) = true
  /\ Host.execLouvain (Host.no_permission_host (mkProc 7 None None)) 5
       [] [] 1 (mkWorld 0 [] [MsgParsed [] [] 1])
     = Raised (Py.OSError Host.EPERM)
         (mkWorld 2 [] [MsgParsed [] [] 1; MsgStarting "Louvain"])
  /\ ~ In "execHirecs"
         (fst (Host.benchmark
                 (Host.no_permission_host (mkProc 7 None None)) 5
                 int_decimal ["-t"; "1"] (mkWorld 0 [] []))).
Proof.
  split; [reflexivity | split; [reflexivity |]].
  vm_compute. intros [H | []]. discriminate H.
Qed.

(** C5, amended: in [runApps.execute] of benchmark.py a [StandardError]
    raised by one function is local to it, every function of the tuple is
    called and the loop returns.  In hicbem.py a [StandardError] raised
    while launching is caught inside [execAlgorithm], so the next
    function of the tuple is still called, and with such failures alone
    [benchmark] calls its four functions and returns.  A [StandardError]
    raised while the algorithm runs escapes its function and ends the
    loop of [benchmark]: the functions after it are not called and the
    benchmark is reported as interrupted. *)
Theorem failure_locality :
  (forall (algs : list Benchmark.app) (timeout : Q) (net : string)
          (asym : Benchmark.pyval) (jobsnum : Z) (st : Benchmark.State),
     (forall alg st0 e st1,
        In alg algs ->
        Benchmark.app_call alg net asym timeout st0 = Benchmark.Exc e st1 ->
        Py.isStandardError e = true) ->
     exists (n : Z) (st' : Benchmark.State),
       Benchmark.execute algs timeout net asym jobsnum st
       = (map Benchmark.app_name algs, Benchmark.Ret n st'))
  /\
  (forall (h : Host.host) (rounds : nat) (int : string -> Py.res Z)
          (args udatas wdatas : list string) (timeout : Z) (w : World),
     parseParams int args = Py.Ok (udatas, wdatas, timeout) ->
     (forall e,
        Host.popen h ["../exectime"; "ls"] "LouvainUpd"
          (print (MsgStarting "Louvain")
             (print (MsgParsed udatas wdatas timeout) w))
        = SpawnFails e ->
        Py.isStandardError e = true ->
        In "execHirecs" (fst (Host.benchmark h rounds int args w)))
     /\
     ((forall args0 workdir w0,
         exists e, Host.popen h args0 workdir w0 = SpawnFails e /\
                   Py.isStandardError e = true) ->
      exists w',
        Host.benchmark h rounds int args w
        = (["execLouvain"; "execHirecs"; "execOslom2"; "execGanxis"],
           Returned tt w')))
  /\
  (forall (h : Host.host) (rounds : nat) (int : string -> Py.res Z)
          (args udatas wdatas : list string) (timeout : Z) (w : World)
          (err : Py.exc),
     parseParams int args = Py.Ok (udatas, wdatas, timeout) ->
     Py.isStandardError err = true ->
     (forall w',
        Host.execLouvain h rounds udatas wdatas timeout
          (print (MsgParsed udatas wdatas timeout) w)
        = Raised err w' ->
        Host.benchmark h rounds int args w
        = (["execLouvain"], Returned tt (print (MsgInterrupted err) w')))
     /\
     (forall w1 w',
        Host.execLouvain h rounds udatas wdatas timeout
          (print (MsgParsed udatas wdatas timeout) w)
        = Returned tt w1 ->
        Host.execHirecs h rounds udatas wdatas timeout w1 = Raised err w' ->
        Host.benchmark h rounds int args w
        = (["execLouvain"; "execHirecs"],
           Returned tt (print (MsgInterrupted err) w')))).
Proof.
  split; [| split].
  - intros algs timeout net asym jobsnum st Hstd.
    apply execute_calls_all. exact Hstd.
  - intros h rounds int args udatas wdatas timeout w Hparse. split.
    + intros e Hpopen Hstd.
      exact (benchmark_launch_failure h rounds int args udatas wdatas
               timeout w e Hparse Hpopen Hstd).
    + intros Hfail.
      exact (benchmark_all_launches_fail h rounds int args udatas wdatas
               timeout w Hparse Hfail).
  - intros h rounds int args udatas wdatas timeout w err Hparse Hstd. split.
    + intros w' Hraise.
      exact (benchmark_first_raises h rounds int args udatas wdatas timeout
               w w' err Hparse Hraise Hstd).
    + intros w1 w' Hret Hraise.
      exact (benchmark_second_raises h rounds int args udatas wdatas timeout
               w w1 w' err Hparse Hret Hraise Hstd).
Qed.

Lemma failure_locality_witness :
  Host.benchmark (Host.no_permission_host (mkProc 7 None None)) 5
    int_decimal ["-t"; "1"] (mkWorld 0 [] [])
  = (["execLouvain"],
     Returned tt
       (print (MsgInterrupted (Py.OSError Host.EPERM))
          (mkWorld 2 [] [MsgParsed [] [] 1; MsgStarting "Louvain"]))).
Proof.
  apply (proj1 (proj2 (proj2 failure_locality)
                  (Host.no_permission_host (mkProc 7 None None)) 5%nat
                  int_decimal ["-t"; "1"] [] [] 1 (mkWorld 0 [] [])
                  (Py.OSError Host.EPERM) eq_refl eq_refl)).
  reflexivity.
Defined.

(** ** More on the monitoring *)

(** X6: the timeout is tested after the sleep without a new poll: a child
    that was alive at the poll and exits during the following second, at
    the end of which the reading of [time.clock()] exceeds the timeout,
    still gets SIGTERM, gets no SIGKILL, and is reported as terminated by
    the timeout. *)
Theorem controlTime_late_exit_still_terminated
    (h : Host.host) (rounds : nat) (p : Proc) (algname : string)
    (exectime timeout : Z) (w : World) :
  poll_is_None p w = true ->
  Host.sleep_error h w = None ->
  timeout <> 0 ->
  Host.clock_at h (now w + 1) - exectime > timeout ->
  poll_is_None p (sleep1 w) = false ->
  Host.kill_error h p SIGTERM (sleep1 w) = None ->
  Host.controlTime h (S rounds) p algname exectime timeout w
  = Returned tt
      (mkWorld (now w + 1) (sent w ++ [(pid p, SIGTERM, now w + 1)])
         (stdout w
          ++ [MsgTimeout algname timeout
                (Host.clock_at h (now w + 1) - exectime)
                (secondsToHms (Host.clock_at h (now w + 1) - exectime))])).
Proof. apply controlTime_late_exit_on_host. Qed.

Lemma controlTime_late_exit_still_terminated_witness :
  Host.controlTime (Host.wall_clock_host popen_ENOENT) 1
    (mkProc 7 (Some 103) None) "Louvain" 100 2 (mkWorld 102 [] [])
  = Returned tt
      (mkWorld 103 [(7%nat, SIGTERM, 103)]
         [MsgTimeout "Louvain" 2 3 (0, 0, 3)]).
Proof.
  apply (controlTime_late_exit_still_terminated
           (Host.wall_clock_host popen_ENOENT) 0 (mkProc 7 (Some 103) None)
           "Louvain" 100 2 (mkWorld 102 [] []));
    [reflexivity | reflexivity | discriminate | reflexivity | reflexivity
    | reflexivity].
Defined.

(** X9: when the launch fails with an exception that is not a
    [StandardError], a [KeyboardInterrupt] or a [SystemExit], the handler
    of [execAlgorithm] lets it pass: the function raises that exception
    with nothing reported and no line that the algorithm is finished. *)
Theorem execAlgorithm_spawn_interrupt_passes
    (h : Host.host) (rounds : nat) (algname workdir : string)
    (args : list string) (timeout : Z) (trace : bool) (w : World)
    (e : Py.exc) :
  algname <> "" -> workdir <> "" -> args <> [] ->
  Host.popen h args workdir
    (if trace then print (MsgStarting algname) w else w)
  = SpawnFails e ->
  Py.isStandardError e = false ->
  Host.execAlgorithm h rounds algname workdir args timeout trace w
  = Raised e (if trace then print (MsgStarting algname) w else w).
Proof.
  intros Ha Hw Hargs Hpopen Hstd.
  rewrite (execAlgorithm_spawn_failure h rounds algname workdir args timeout
             trace w e Ha Hw Hargs Hpopen).
  rewrite Hstd. reflexivity.
Qed.

Lemma execAlgorithm_spawn_interrupt_passes_witness :
  Host.execAlgorithm
    (Host.mkHost (fun t => t) (fun _ => None) (fun _ _ _ => None)
       (fun _ _ _ => SpawnFails Py.KeyboardInterrupt))
    0 "HiReCS" "." ["./hirecs"] 5 true (mkWorld 3 [] [])
  = Raised Py.KeyboardInterrupt (mkWorld 3 [] [MsgStarting "HiReCS"]).
Proof.
  apply (execAlgorithm_spawn_interrupt_passes
           (Host.mkHost (fun t => t) (fun _ => None) (fun _ _ _ => None)
              (fun _ _ _ => SpawnFails Py.KeyboardInterrupt))
           0 "HiReCS" "." ["./hirecs"] 5 true (mkWorld 3 [] [])
           Py.KeyboardInterrupt);
    [discriminate | discriminate | discriminate | reflexivity | reflexivity].
Defined.
